(** * Payment processing and recurring billing of the weblate.org website

    A shallow embedding of [wlhosted/payments/models.py] and
    [wlhosted/payments/backends.py]: the [Customer] and [Payment] rows, the
    VAT arithmetic, the pluggable [Backend] life cycle
    ([initiate] / [complete] / [success] / [failure]) and the renewal
    scheduler [repeat_payment].

    Conventions.
    - Python [str] values are Rocq strings of ASCII characters; the
      translation markers [_()] and [ugettext_lazy] are the identity.
    - Python [float] is IEEE 754 binary64, modelled by the primitive floats
      and the standard library's specification of their operations.
    - JSON dictionaries ([details], [extra]) are finite maps from strings.
    - Mutable objects are threaded explicitly: a method of a [Backend]
      instance is a function on the instance state that also yields either
      a value or the exception it raised. *)

From Stdlib Require Import ZArith QArith Qpower Qabs String Ascii List Bool Lia Lqa Sorted.
From Stdlib Require Import Floats.PrimFloat Floats.SpecFloat Floats.FloatOps Floats.FloatAxioms.
From stdpp Require Import base option gmap strings list fin_maps pretty.

#[local] Open Scope string_scope.
#[local] Open Scope Z_scope.

(** ** Python values *)

(** Exceptions raised by the modelled code. *)
Inductive exn : Type :=
| InvalidState
| NotImplementedError
| KeyError (what : string)
| IndexError
| ValidationError (field message : string).

(** The result of a call: a returned value or a raised exception. *)
Inductive outcome (A : Type) : Type :=
| Return (a : A)
| Raise (e : exn).
Arguments Return {A} a.
Arguments Raise {A} e.

(** Values stored in the JSON fields. *)
Inductive jvalue : Type :=
| JNull
| JBool (b : bool)
| JInt (z : Z)
| JStr (s : string).

#[global] Instance jvalue_eq_dec : EqDecision jvalue.
Proof. solve_decision. Defined.

(** A Python number as returned by the VAT properties: the integer column
    itself or a float computed from it. *)
Inductive pynum : Type :=
| PyInt (z : Z)
| PyFloat (f : float).

(** [str.upper] on ASCII text. *)
Definition upper_ascii (c : ascii) : ascii :=
  let n := nat_of_ascii c in
  if ((97 <=? n)%nat && (n <=? 122)%nat)%bool then ascii_of_nat (n - 32) else c.

Fixpoint upper (s : string) : string :=
  match s with
  | EmptyString => EmptyString
  | String c rest => String (upper_ascii c) (upper rest)
  end.

(** Truth value of a [str]. *)
Definition str_truthy (s : string) : bool := negb (bool_decide (s = "")).

(** Truth value of a nullable [str]. *)
Definition optstr_truthy (o : option string) : bool :=
  match o with
  | None => false
  | Some s => str_truthy s
  end.

(** ** models.py: VAT tables *)

Definition EU_VAT_RATES : gmap string Z :=
  list_to_map
    [ ("BE", 21); ("BG", 20); ("CZ", 21); ("DK", 25); ("DE", 19); ("EE", 20);
      ("IE", 23); ("GR", 24); ("ES", 21); ("FR", 20); ("HR", 25); ("IT", 22);
      ("CY", 19); ("LV", 21); ("LT", 21); ("LU", 17); ("HU", 27); ("MT", 18);
      ("NL", 21); ("AT", 20); ("PL", 23); ("PT", 23); ("RO", 19); ("SI", 22);
      ("SK", 20); ("FI", 24); ("SE", 25); ("GB", 20) ].

Definition VAT_RATE : Z := 21.

(** [key in dict] where the key may be [None]. *)
Definition dict_contains {V : Type} (k : option string) (d : gmap string V) : bool :=
  match k with
  | None => false
  | Some s => bool_decide (is_Some (d !! s))
  end.

(** ** models.py: Customer *)

(** The value held by the [vat] column: [None], a plain string, or a VATIN
    object carrying a [country_code] attribute. *)
Inductive vat_value : Type :=
| VatNone
| VatStr (s : string)
| VatObj (country_code number : string).

Definition vat_truthy (v : vat_value) : bool :=
  match v with
  | VatNone => false
  | VatStr s => str_truthy s
  | VatObj _ _ => true
  end.

Record Customer : Type := mkCustomer {
  customer_pk : Z;
  vat : vat_value;
  tax : string;
  name : option string;
  address : option string;
  city : option string;
  country : option string;
  email : string;
  origin : string;
  user_id : Z
}.

Module CustomerModel.

(** [Customer.country_code] *)
Definition country_code (self : Customer) : option string :=
  if optstr_truthy (country self) then upper <$> country self else None.

(** [Customer.vat_country_code] *)
Definition vat_country_code (self : Customer) : option string :=
  if vat_truthy (vat self) then
    match vat self with
    | VatObj cc _ => Some (upper cc)
    | VatStr s => Some (upper (substring 0 2 s))
    | VatNone => None
    end
  else None.

(** [Customer.clean]: the instance after the call and how the call ended. *)
Definition clean (self : Customer) : Customer * outcome unit :=
  if vat_truthy (vat self) then
    if negb (bool_decide (vat_country_code self = country_code self)) then
      (self, Raise (ValidationError "country" "The country has to match your VAT code"))
    else (self, Return tt)
  else (self, Return tt).

(** [Customer.is_empty] *)
Definition is_empty (self : Customer) : bool :=
  negb (optstr_truthy (name self) && optstr_truthy (address self)
        && optstr_truthy (city self) && optstr_truthy (country self)).

(** [Customer.is_eu_enduser] *)
Definition is_eu_enduser (self : Customer) : bool :=
  dict_contains (country_code self) EU_VAT_RATES && negb (vat_truthy (vat self)).

(** [Customer.needs_vat] *)
Definition needs_vat (self : Customer) : bool :=
  bool_decide (vat_country_code self = Some "CZ") || is_eu_enduser self.

(** [Customer.vat_rate] *)
Definition vat_rate (self : Customer) : Z :=
  if needs_vat self then VAT_RATE else 0.

End CustomerModel.

(** ** Python float arithmetic *)

Module PyFloat64.

(** [float(z)] for a Python integer: the nearest binary64, ties to even.
    (Python raises OverflowError beyond the binary64 range, which no
    32-bit [IntegerField] reaches.) *)
Definition of_int (z : Z) : float :=
  SF2Prim (binary_normalize prec emax z 0 false).

(** Nearest integer to [num / den], ties to even; [0 <= num], [0 < den]. *)
Definition div_half_even (num den : Z) : Z :=
  let q := num / den in
  let r := num mod den in
  match 2 * r ?= den with
  | Lt => q
  | Gt => q + 1
  | Eq => if Z.even q then q else q + 1
  end.

(** Nearest integer to [m * 2^e * 10^2], ties to even. *)
Definition scale2 (m : positive) (e : Z) : Z :=
  if 0 <=? e then Z.pos m * 100 * 2 ^ e
  else div_half_even (Z.pos m * 100) (2 ^ (- e)).

(** [round(x, 2)] on a float: the exact value of [x] is rounded to two
    decimals (ties to even) and the decimal is converted back to the
    nearest binary64. Non-finite values and zeros are returned as is. *)
Definition round2 (x : float) : float :=
  match Prim2SF x with
  | S754_finite s m e =>
      match scale2 m e with
      | Z.pos n => SF2Prim (SFdiv prec emax (S754_finite s n 0) (S754_finite false 100 0))
      | _ => SF2Prim (S754_zero s)
      end
  | _ => x
  end.

End PyFloat64.

(** ** models.py: Payment *)

Inductive PaymentState : Type := NEW | PENDING | REJECTED | ACCEPTED | PROCESSED.

#[global] Instance PaymentState_eq_dec : EqDecision PaymentState.
Proof. solve_decision. Defined.

(** The integer stored in the [state] column. *)
Definition state_code (s : PaymentState) : Z :=
  match s with
  | NEW => 1
  | PENDING => 2
  | REJECTED => 3
  | ACCEPTED => 4
  | PROCESSED => 5
  end.

Record Payment : Type := mkPayment {
  uuid : string;
  amount : Z;
  description : string;
  recurring : string;
  created : Z;
  state : PaymentState;
  backend : string;
  details : gmap string jvalue;
  extra : gmap string jvalue;
  customer : Customer;
  repeat : option string;
  invoice : string;
  amount_fixed : bool
}.

Module PaymentModel.
Import CustomerModel.

(** [Payment.vat_amount] *)
Definition vat_amount (self : Payment) : pynum :=
  if needs_vat (customer self) && negb (amount_fixed self) then
    let rate := 100 + vat_rate (customer self) in
    PyFloat (PyFloat64.round2
               (1.0 * PyFloat64.of_int rate * PyFloat64.of_int (amount self)
                / PyFloat64.of_int 100)%float)
  else PyInt (amount self).

(** [Payment.amount_without_vat] *)
Definition amount_without_vat (self : Payment) : pynum :=
  if needs_vat (customer self) && amount_fixed self then
    PyFloat (100.0 * PyFloat64.of_int (amount self)
             / PyFloat64.of_int (100 + vat_rate (customer self)))%float
  else PyInt (amount self).

End PaymentModel.

(** ** The environment of the payment engine *)

(** An invoice held by the external invoice store. The strings handed to
    the store are kept as the values they are formatted from. *)
Record Invoice : Type := mkInvoice {
  invoiceid : string;
  inv_customer : Z;
  inv_rate : Z;
  inv_item : string;
  inv_vat : Z;
  inv_payment_method : option string;
  inv_paid : gmap string jvalue
}.

(** The two message templates of [backends.py] with their arguments. *)
Inductive EmailBody : Type :=
| ThanksBody (customer_origin : string)
| FailedBody (reject_reason : jvalue) (customer_origin : string).

Record EmailMessage : Type := mkEmail {
  subject : string;
  body : EmailBody;
  from_email : string;
  to : list string;
  attachment : option Invoice
}.

(** The outbound renewal trigger of [repeat_payment]. *)
Record HttpPost : Type := mkPost {
  post_template : string;
  post_language : string;
  post_uuid : string;
  post_method : string;
  post_secret : string
}.

(** Configuration and the external sources the code reads but never
    writes: Django settings, the active language, the clock, the
    identifiers handed out by [uuid.uuid4] and by the invoice store. *)
Record Env : Type := mkEnv {
  PAYMENT_DEBUG : bool;
  PAYMENT_FAKTURACE : option string;
  PAYMENT_SECRET : string;
  PAYMENT_REDIRECT_URL : string;
  SUPPORTED_LANGUAGES : list string;
  get_language : string;
  now : Z;
  uuid4 : nat -> string;
  invoice_numbering : nat -> string
}.

(** Everything the code writes to: the payments table, the invoice store,
    sent mail, issued HTTP requests, and how many identifiers [uuid.uuid4]
    has handed out. *)
Record World : Type := mkWorld {
  payments : list Payment;
  fakturace : list Invoice;
  outbox : list EmailMessage;
  posted : list HttpPost;
  drawn : nat
}.

Definition set_payments (f : list Payment -> list Payment) (w : World) : World :=
  mkWorld (f (payments w)) (fakturace w) (outbox w) (posted w) (drawn w).
Definition set_fakturace (f : list Invoice -> list Invoice) (w : World) : World :=
  mkWorld (payments w) (f (fakturace w)) (outbox w) (posted w) (drawn w).
Definition set_outbox (f : list EmailMessage -> list EmailMessage) (w : World) : World :=
  mkWorld (payments w) (fakturace w) (f (outbox w)) (posted w) (drawn w).
Definition set_posted (f : list HttpPost -> list HttpPost) (w : World) : World :=
  mkWorld (payments w) (fakturace w) (outbox w) (f (posted w)) (drawn w).
Definition set_drawn (f : nat -> nat) (w : World) : World :=
  mkWorld (payments w) (fakturace w) (outbox w) (posted w) (f (drawn w)).

(** Field assignments on a [Payment] object. *)
Definition set_state (v : PaymentState) (p : Payment) : Payment :=
  mkPayment (uuid p) (amount p) (description p) (recurring p) (created p) v
    (backend p) (details p) (extra p) (customer p) (repeat p) (invoice p) (amount_fixed p).
Definition set_recurring (v : string) (p : Payment) : Payment :=
  mkPayment (uuid p) (amount p) (description p) v (created p) (state p)
    (backend p) (details p) (extra p) (customer p) (repeat p) (invoice p) (amount_fixed p).
Definition set_details (v : gmap string jvalue) (p : Payment) : Payment :=
  mkPayment (uuid p) (amount p) (description p) (recurring p) (created p) (state p)
    (backend p) v (extra p) (customer p) (repeat p) (invoice p) (amount_fixed p).
Definition set_invoice (v : string) (p : Payment) : Payment :=
  mkPayment (uuid p) (amount p) (description p) (recurring p) (created p) (state p)
    (backend p) (details p) (extra p) (customer p) (repeat p) v (amount_fixed p).

(** ** The payments table *)

Module Table.

(** [Payment.objects.filter(pk=pk)] *)
Definition filter_pk (pk : string) (rows : list Payment) : list Payment :=
  filter (λ q, uuid q = pk) rows.

(** [Payment.objects.filter(repeat=parent)] *)
Definition filter_repeat (parent : Payment) (rows : list Payment) : list Payment :=
  filter (λ q, repeat q = Some (uuid parent)) rows.

(** [.filter(state=s)] *)
Definition filter_state (s : PaymentState) (rows : list Payment) : list Payment :=
  filter (λ q, state q = s) rows.

(** [.filter(created__gt=t)] *)
Definition filter_created_gt (t : Z) (rows : list Payment) : list Payment :=
  filter (λ q, t < created q) rows.

Fixpoint insert_desc (p : Payment) (rows : list Payment) : list Payment :=
  match rows with
  | [] => [p]
  | q :: rest =>
      if bool_decide (created q < created p) then p :: q :: rest
      else q :: insert_desc p rest
  end.

(** [.order_by('-created')] *)
Definition order_by_created_desc (rows : list Payment) : list Payment :=
  foldr insert_desc [] rows.

(** [payment.save()]: update the row with this primary key, insert it
    when there is none. *)
Definition save (p : Payment) (rows : list Payment) : list Payment :=
  if bool_decide (filter_pk (uuid p) rows = []) then p :: rows
  else (λ q, if bool_decide (uuid q = uuid p) then p else q) <$> rows.

End Table.

(** ** backends.py *)

(** What thepay's [ReturnPayment] reports for the callback parameters of a
    request under the configured credentials. *)
Record ReturnPayment : Type := mkReturnPayment {
  checkSignature : bool;
  getMerchantData : string;
  data : gmap string jvalue;
  getStatus : Z
}.

Record Request : Type := mkRequest {
  GET : ReturnPayment
}.

(** The parameters set on a thepay payment before the redirect. *)
Record ThePayPayment : Type := mkThePayPayment {
  Currency : string;
  Value : pynum;
  MethodId : Z;
  CustomerEmail : string;
  Description : string;
  ReturnUrl : string;
  MerchantData : string;
  IsRecurring : bool
}.

Inductive Response : Type :=
| redirect (url : string)
| redirect_gateway (p : ThePayPayment).

(** A [Backend] instance: [self.payment], [self.invoice] and the world the
    instance acts on. *)
Record Backend : Type := mkBackend {
  payment : Payment;
  invoice_doc : option Invoice;
  world : World
}.

Definition set_payment (f : Payment -> Payment) (self : Backend) : Backend :=
  mkBackend (f (payment self)) (invoice_doc self) (world self).
Definition set_invoice_doc (v : option Invoice) (self : Backend) : Backend :=
  mkBackend (payment self) v (world self).
Definition set_world (f : World -> World) (self : Backend) : Backend :=
  mkBackend (payment self) (invoice_doc self) (f (world self)).

(** A method of a [Backend] instance. *)
Definition method (A : Type) : Type := Backend -> Backend * outcome A.

Definition ret {A : Type} (a : A) : method A := fun self => (self, Return a).
Definition raise {A : Type} (e : exn) : method A := fun self => (self, Raise e).
Definition bind {A B : Type} (m : method A) (k : A -> method B) : method B :=
  fun self =>
    match m self with
    | (self', Return a) => k a self'
    | (self', Raise e) => (self', Raise e)
    end.
Definition get : method Backend := fun self => (self, Return self).
Definition update (f : Backend -> Backend) : method unit := fun self => (f self, Return tt).

Declare Scope method_scope.
Delimit Scope method_scope with method.
Notation "x <- m ;; k" := (bind m (fun x => k))
  (at level 100, m at next level, right associativity) : method_scope.
Notation "m ;; k" := (bind m (fun _ => k))
  (at level 100, right associativity) : method_scope.

(** The class attributes and the two method-specific operations of a
    payment method. *)
Record BackendClass : Type := mkBackendClass {
  cls_name : option string;
  cls_debug : bool;
  cls_verbose : option string;
  cls_recurring : bool;
  perform : Request -> string -> string -> method (option Response);
  collect : Request -> method bool
}.

(** ** backends.py: the Backend base class *)

Section BackendMethods.
Context (env : Env).
#[local] Open Scope method_scope.

(** [Backend.__init__]: the row with the payment's primary key. *)
Definition new_backend (p : Payment) (w : World) : outcome Backend :=
  match Table.filter_pk (uuid p) (payments w) with
  | row :: _ => Return (mkBackend row None w)
  | [] => Raise IndexError
  end.

(** [self.payment.save()] *)
Definition save : method unit :=
  self <- get ;;
  update (set_world (set_payments (Table.save (payment self)))).

(** [self.name] as stored in a JSON field. *)
Definition name_value (cls : BackendClass) : jvalue :=
  match cls_name cls with
  | Some n => JStr n
  | None => JNull
  end.

(** [Backend.initiate] *)
Definition initiate (cls : BackendClass) (request : Request)
    (back_url complete_url : string) : method (option Response) :=
  self <- get ;;
  (if negb (bool_decide (state (payment self) = NEW)) then raise InvalidState
   else if bool_decide (is_Some (repeat (payment self))) && negb (cls_recurring cls)
   then raise InvalidState
   else
     result <- perform cls request back_url complete_url ;;
     update (set_payment (set_state PENDING)) ;;
     update (set_payment
               (fun p => set_details (<["backend" := name_value cls]> (details p)) p)) ;;
     save ;;
     ret result).

(** [Backend.generate_invoice]: the contact, the invoice line, the PDF, the
    paid marker and the git commit of the invoice store are one record
    added to [fakturace]; the store numbers its invoices itself. *)
Definition generate_invoice (cls : BackendClass) : method unit :=
  match PAYMENT_FAKTURACE env with
  | None => ret tt
  | Some _ =>
      self <- get ;;
      let customer := customer (payment self) in
      let invoice :=
        mkInvoice (invoice_numbering env (length (fakturace (world self))))
          (customer_pk customer) (amount (payment self))
          (description (payment self)) (CustomerModel.vat_rate customer)
          (cls_verbose cls) (details (payment self)) in
      update (set_world (set_fakturace (cons invoice))) ;;
      update (set_payment (set_invoice (invoiceid invoice))) ;;
      update (set_invoice_doc (Some invoice))
  end.

(** [Backend.notify_user] *)
Definition notify_user : method unit :=
  self <- get ;;
  let email :=
    mkEmail "Your payment on weblate.org"
      (ThanksBody (origin (customer (payment self))))
      "billing@weblate.org"
      [email (customer (payment self))]
      (invoice_doc self) in
  update (set_world (set_outbox (cons email))).

(** [Backend.notify_failure] *)
Definition notify_failure : method unit :=
  self <- get ;;
  let email :=
    mkEmail "Your failed payment on weblate.org"
      (FailedBody (default (JStr "Uknown") (details (payment self) !! "reject_reason"))
         (origin (customer (payment self))))
      "billing@weblate.org"
      [email (customer (payment self))]
      (invoice_doc self) in
  update (set_world (set_outbox (cons email))).

(** [Backend.success] *)
Definition success (cls : BackendClass) : method unit :=
  update (set_payment (set_state ACCEPTED)) ;;
  (if negb (cls_recurring cls) then update (set_payment (set_recurring ""))
   else ret tt) ;;
  generate_invoice cls ;;
  save ;;
  notify_user.

(** [Backend.failure] *)
Definition failure : method unit :=
  update (set_payment (set_state REJECTED)) ;;
  save ;;
  notify_failure.

(** [Backend.complete] *)
Definition complete (cls : BackendClass) (request : Request) : method bool :=
  self <- get ;;
  (if negb (bool_decide (state (payment self) = PENDING)) then raise InvalidState
   else
     collected <- collect cls request ;;
     (if collected : bool then success cls ;; ret true
      else failure ;; ret false)).

End BackendMethods.

(** ** backends.py: the payment methods *)

(** [class Backend]: both operations are abstract. *)
Definition BackendBase : BackendClass :=
  mkBackendClass None false None false
    (fun _ _ _ => raise NotImplementedError)
    (fun _ => raise NotImplementedError).

Definition DebugPay : BackendClass :=
  mkBackendClass (Some "pay") true (Some "Pay") true
    (fun _ _ _ => ret None)
    (fun _ => ret true).

Definition DebugReject : BackendClass :=
  mkBackendClass (Some "reject") (cls_debug DebugPay) (Some "Reject") false
    (perform DebugPay)
    (fun _ =>
       bind (update (set_payment
               (fun p => set_details (<["reject_reason" := JStr "Debug reject"]> (details p)) p)))
            (fun _ => ret false)).

Definition DebugPending : BackendClass :=
  mkBackendClass (Some "pending") (cls_debug DebugPay) (Some "Pending") false
    (fun _ _ complete_url => ret (Some (redirect ("https://cihar.com/?url=" ++ complete_url))))
    (fun _ => ret true).

Module ThePay.

(** [ThePayCard.perform] *)
Definition perform (thepay_method : Z) (request : Request)
    (back_url complete_url : string) : method (option Response) :=
  bind get (fun self =>
    let p := payment self in
    ret (Some (redirect_gateway
           (mkThePayPayment "EUR" (PaymentModel.vat_amount p) thepay_method
              (email (customer p)) (description p) complete_url (uuid p)
              (str_truthy (recurring p)))))).

(** The reject reason for a gateway status other than 2. *)
Definition reason (status : Z) : string :=
  if bool_decide (status = 3) then "Payment cancelled"
  else if bool_decide (status = 4) then "Error during payment"
  else if bool_decide (status = 6) then "Underpaid"
  else if bool_decide (status = 7) then "Waiting for additional confirmation"
  else if bool_decide (status = 9) then "Deposit confirmed"
  else "Unknown: " ++ pretty status.

(** [ThePayCard.collect] *)
Definition collect (request : Request) : method bool :=
  let return_payment := GET request in
  bind get (fun self =>
    if negb (checkSignature return_payment) then ret false
    else if negb (bool_decide (getMerchantData return_payment = uuid (payment self)))
    then ret false
    else
      bind (update (set_payment (set_details (data return_payment)))) (fun _ =>
        let status := getStatus return_payment in
        if bool_decide (status = 2) then ret true
        else
          bind (update (set_payment
                  (fun p => set_details
                              (<["reject_reason" := JStr (reason status)]> (details p)) p)))
               (fun _ => ret false))).

End ThePay.

Definition ThePayCard : BackendClass :=
  mkBackendClass (Some "thepay-card") false (Some "Payment card") true
    (ThePay.perform 21) ThePay.collect.

Definition ThePayBitcoin : BackendClass :=
  mkBackendClass (Some "thepay-bitcoin") (cls_debug ThePayCard) (Some "Bitcoin") false
    (ThePay.perform 29) (collect ThePayCard).

(** [register_backend], acting on the registry. *)
Definition register_backend (b : BackendClass)
    (registry : gmap string BackendClass) : gmap string BackendClass :=
  match cls_name b with
  | Some n => <[n := b]> registry
  | None => registry
  end.

(** [BACKENDS] once the module is loaded. *)
Definition BACKENDS : gmap string BackendClass :=
  register_backend ThePayBitcoin
    (register_backend ThePayCard
       (register_backend DebugPending
          (register_backend DebugReject
             (register_backend DebugPay ∅)))).

(** [get_backend] *)
Definition get_backend (env : Env) (name : string) : outcome BackendClass :=
  match BACKENDS !! name with
  | None => Raise (KeyError name)
  | Some backend =>
      if cls_debug backend && negb (PAYMENT_DEBUG env) then Raise (KeyError "Invalid backend")
      else Return backend
  end.

(** ** models.py: the renewal scheduler *)

(** What a Python function without a declared result type hands back. *)
Inductive pyvalue : Type :=
| PyNone
| PyBool (b : bool).

(** Truth value of a returned object. *)
Definition truthy (v : pyvalue) : bool :=
  match v with
  | PyNone => false
  | PyBool b => b
  end.

(** [d.update(other)] *)
Definition dict_update (d other : gmap string jvalue) : gmap string jvalue :=
  other ∪ d.

Module Scheduler.

(** [Payment.objects.create(...)] as called by [repeat_payment]: the
    columns not passed take their defaults. *)
Definition objects_create (env : Env) (amount : Z) (description recurring : string)
    (customer : Customer) (amount_fixed : bool) (repeat : Payment)
    (extra : gmap string jvalue) (w : World) : Payment * World :=
  let row :=
    mkPayment (uuid4 env (drawn w)) amount description recurring (now env) NEW
      "" ∅ extra customer (Some (uuid repeat)) "" amount_fixed in
  (row, set_drawn S (set_payments (cons row) w)).

(** [Payment.get_payment_url], with the request it is posted in. *)
Definition trigger (env : Env) (self : Payment) : HttpPost :=
  let language :=
    if bool_decide (get_language env ∈ SUPPORTED_LANGUAGES env) then get_language env
    else "en" in
  mkPost (PAYMENT_REDIRECT_URL env) language (uuid self) (backend self)
    (PAYMENT_SECRET env).

(** The [failures] query set of [repeat_payment] for a non-empty chain. *)
Definition failures (previous : list Payment) : list Payment :=
  let failures := Table.filter_state REJECTED previous in
  match Table.order_by_created_desc (Table.filter_state PROCESSED previous) with
  | last_good :: _ => Table.filter_created_gt (created last_good) failures
  | [] => failures
  end.

(** [Payment.repeat_payment]. The call returns [False] or falls off the
    end of the function, which Python reports as [None]. The trigger sent
    by [requests.post] is recorded in [posted]; the code does not look at
    the response. *)
Definition repeat_payment (env : Env) (self : Payment) (kwargs : gmap string jvalue)
    (w : World) : World * outcome pyvalue :=
  match get_backend env (backend self) with
  | Raise (KeyError _) => (w, Return (PyBool false))
  | Raise e => (w, Raise e)
  | Return _ =>
      let previous := Table.filter_repeat self (payments w) in
      if negb (bool_decide (previous = []))
         && bool_decide (3 <= length (failures previous))%nat
      then (w, Return (PyBool false))
      else
        let extra := dict_update (dict_update ∅ (extra self)) kwargs in
        let '(payment, w) :=
          objects_create env (amount self) (description self) "" (customer self)
            (amount_fixed self) self extra w in
        (set_posted (cons (trigger env self)) w, Return PyNone)
  end.

End Scheduler.

(** ** views.py: the callers of the backends *)

(** A request of the web layer against a payment. *)
Inductive operation : Type :=
| Initiate (method : string) (request : Request) (back_url complete_url : string)
| Complete (method : string) (request : Request).

(** One operation as the views issue it: resolve the method in the
    registry, bind a [Backend] to the row of [p], call it. The world is
    returned as the call left it, also when the call raised. *)
Definition call (env : Env) (p : Payment) (op : operation) (w : World) : World :=
  match op with
  | Initiate method request back_url complete_url =>
      match get_backend env method, new_backend p w with
      | Return cls, Return self =>
          world (fst (initiate cls request back_url complete_url self))
      | _, _ => w
      end
  | Complete method request =>
      match get_backend env method, new_backend p w with
      | Return cls, Return self => world (fst (complete env cls request self))
      | _, _ => w
      end
  end.

(** A sequence of operations, each against its own payment. *)
Definition run (env : Env) (ops : list (Payment * operation)) (w : World) : World :=
  foldl (fun w po => call env (fst po) (snd po) w) w ops.

(** ** backends.py: listing the backends *)

(** [x.name], the key [list_backends] sorts by. *)
Definition name_key (cls : BackendClass) : string := default "" (cls_name cls).

Fixpoint insert_by_name (b : BackendClass) (sorted : list BackendClass)
    : list BackendClass :=
  match sorted with
  | [] => [b]
  | c :: rest =>
      if String.leb (name_key b) (name_key c) then b :: c :: rest
      else c :: insert_by_name b rest
  end.

(** [sorted(result, key=lambda x: x.name)]: a stable sort. *)
Definition sorted_by_name (result : list BackendClass) : list BackendClass :=
  foldr insert_by_name [] result.

(** [list_backends]. [BACKENDS.values()] is taken in the order of the
    map; the registered names are distinct, so the sort fixes the order
    of the result whatever the order of the values. *)
Definition list_backends (env : Env) : list BackendClass :=
  sorted_by_name
    (filter (fun b : BackendClass => negb (cls_debug b) || PAYMENT_DEBUG env)
       ((map_to_list BACKENDS).*2)).

(** ** models.py: recurrence periods *)

Definition RECURRENCE_CHOICES : list (string * string) :=
  [ ("y", "Annual"); ("b", "Biannual"); ("m", "Monthly"); ("", "Onetime") ].

(** The choices of the [recurring] column after migration 0013. *)
Definition RECURRENCE_CHOICES_0013 : list (string * string) :=
  [ ("y", "Annual"); ("b", "Biannual"); ("q", "Quarterly"); ("m", "Monthly");
    ("", "Onetime") ].

(** [dateutil.relativedelta(years=..., months=...)] *)
Record relativedelta : Type := mkRelativedelta {
  years : Z;
  months : Z
}.

(** [get_period_delta]; [None] stands for the ValueError it raises. *)
Definition get_period_delta (period : string) : option relativedelta :=
  if bool_decide (period = "y") then Some (mkRelativedelta 1 0)
  else if bool_decide (period = "b") then Some (mkRelativedelta 0 6)
  else if bool_decide (period = "m") then Some (mkRelativedelta 0 1)
  else None.

(** ** forms.py and views.py: the payment views *)

(** The URL configuration the views resolve names in. *)
Record UrlConf : Type := mkUrlConf {
  reverse : string -> string -> string;
  build_absolute_uri : string -> string
}.

(** How a view ends: a response, a rendered template, or an exception
    that leaves the view. *)
Inductive view_outcome : Type :=
| HttpResponse (r : Response)
| TemplateResponse (template : string)
| Http404
| ServerError (e : exn).

(** The request method, with the [method] field of a POST. *)
Inductive verb : Type :=
| http_get
| http_post (method : option string).

(** The choices [MethodForm.__init__] sets on the [method] field. *)
Definition MethodForm_choices (env : Env) : list (option string * option string) :=
  (fun b => (cls_name b, cls_verbose b)) <$> list_backends env.

(** [MethodForm.is_valid]: the required choice field holds one of the
    choices. *)
Definition MethodForm_is_valid (env : Env) (method : option string) : bool :=
  match method with
  | Some m => str_truthy m && bool_decide (Some m ∈ (MethodForm_choices env).*1)
  | None => false
  end.

(** [SingleObjectMixin.get_object] on the payments table; [None] stands
    for Http404. *)
Definition get_object (pk : string) (w : World) : option Payment :=
  head (Table.filter_pk pk (payments w)).

(** [with transaction.atomic(using='payments_db')]: an exception leaving
    the block rolls the payments table back. *)
Definition atomic (w : World) (r : World * view_outcome) : World * view_outcome :=
  match r with
  | (w', Http404) => (set_payments (fun _ => payments w) w', Http404)
  | (w', ServerError e) => (set_payments (fun _ => payments w) w', ServerError e)
  | _ => r
  end.

(** [PaymentView.redirect_origin] *)
Definition redirect_origin (object : Payment) : Response :=
  redirect (origin (customer object) ++ "?payment=" ++ uuid object).

(** [PaymentView.validate_customer] with [check_customer] set;
    [validate_vatin] tells whether the external VAT check passes. *)
Definition validate_customer (urls : UrlConf) (validate_vatin : vat_value -> bool)
    (object : Payment) (customer : Customer) : option Response :=
  if CustomerModel.is_empty customer
  then Some (redirect (reverse urls "payment-customer" (uuid object)))
  else if vat_truthy (vat customer) && negb (validate_vatin (vat customer))
  then Some (redirect (reverse urls "payment-customer" (uuid object)))
  else None.

(** [PaymentView.form_valid] *)
Definition PaymentView_form_valid (env : Env) (urls : UrlConf) (can_pay : bool)
    (method : string) (request : Request) (object : Payment) (w : World)
    : World * view_outcome :=
  if negb can_pay
  then (w, HttpResponse (redirect (reverse urls "payment" (uuid object))))
  else
    match get_backend env method with
    | Raise e => (w, ServerError e)
    | Return cls =>
        match new_backend object w with
        | Raise e => (w, ServerError e)
        | Return backend =>
            match initiate cls request
                    (build_absolute_uri urls (reverse urls "payment" (uuid object)))
                    (build_absolute_uri urls (reverse urls "payment-complete" (uuid object)))
                    backend with
            | (backend, Raise e) => (world backend, ServerError e)
            | (backend, Return (Some result)) => (world backend, HttpResponse result)
            | (backend, Return None) =>
                match complete env cls request backend with
                | (backend, Raise e) => (world backend, ServerError e)
                | (backend, Return _) =>
                    (world backend, HttpResponse (redirect_origin object))
                end
            end
        end
    end.

(** [PaymentView.dispatch], with the form handling of [FormView]: a GET
    renders the form, a POST validates it and calls [form_valid]. *)
Definition PaymentView_dispatch (env : Env) (urls : UrlConf)
    (validate_vatin : vat_value -> bool) (v : verb) (request : Request)
    (pk : string) (w : World) : World * view_outcome :=
  atomic w
    match get_object pk w with
    | None => (w, Http404)
    | Some object =>
        let customer := customer object in
        let can_pay := negb (CustomerModel.is_empty customer) in
        if negb (bool_decide (state object = NEW))
        then (w, HttpResponse (redirect_origin object))
        else
          match validate_customer urls validate_vatin object customer with
          | Some result => (w, HttpResponse result)
          | None =>
              match v with
              | http_get => (w, TemplateResponse "payment/payment.html")
              | http_post method =>
                  if MethodForm_is_valid env method
                  then PaymentView_form_valid env urls can_pay (default "" method)
                         request object w
                  else (w, TemplateResponse "payment/payment.html")
              end
          end
    end.

(** [CompleteView.dispatch] *)
Definition CompleteView_dispatch (env : Env) (urls : UrlConf) (request : Request)
    (pk : string) (w : World) : World * view_outcome :=
  atomic w
    match get_object pk w with
    | None => (w, Http404)
    | Some object =>
        if bool_decide (state object = NEW)
        then (w, HttpResponse (redirect (reverse urls "payment" (uuid object))))
        else if negb (bool_decide (state object = PENDING))
        then (w, HttpResponse (redirect_origin object))
        else
          match get_backend env (backend object) with
          | Raise e => (w, ServerError e)
          | Return cls =>
              match new_backend object w with
              | Raise e => (w, ServerError e)
              | Return backend =>
                  match complete env cls request backend with
                  | (backend, Raise e) => (world backend, ServerError e)
                  | (backend, Return _) =>
                      (world backend, HttpResponse (redirect_origin object))
                  end
              end
          end
    end.

(** * Specification-level definitions *)

(** ** Binary64 values and rounding *)

(** What a binary64 operation computes, read over the rationals. *)
Module Binary64.

(** The rational [m * 2^e]. *)
Definition mag (m : positive) (e : Z) : Q := (inject_Z (Z.pos m) * 2 ^ e)%Q.

(** The number a float stands for; infinities and NaN stand for none. *)
Definition SFvalue (x : spec_float) : option Q :=
  match x with
  | S754_zero _ => Some 0%Q
  | S754_finite s m e => Some (if s then - mag m e else mag m e)%Q
  | _ => None
  end.

Definition value (x : float) : option Q := SFvalue (Prim2SF x).

(** Half a unit in the last place of a 53-bit significand: [2^-53]. *)
Definition eps : Q := 1 # 9007199254740992.

(** [m * 2^e] is [v] rounded to 53 bits: within [eps] of it, and equal to
    it when [v] is a whole number of at most 53 bits. *)
Definition rounded (v : Q) (m : positive) (e : Z) : Prop :=
  ((1 - eps) * v <= mag m e /\ mag m e <= (1 + eps) * v)%Q
  /\ forall K : Z, 0 < K < 2 ^ 53 -> (v == inject_Z K)%Q -> (mag m e == v)%Q.

(** The shift register [mrs] holds the integer part of [A / B] together
    with the round and sticky bits of its fractional part. *)
Definition located (A B : Z) (mrs : shr_record) : Prop :=
  shr_m mrs = A / B
  /\ shr_r mrs = (B <=? 2 * (A mod B))
  /\ shr_s mrs = negb (A mod B =? 0) && negb (2 * (A mod B) =? B).

End Binary64.

(** ** The VAT round trip *)

Module RoundTrip.

(** The float that [vat_amount] computes for amount [a] when VAT applies. *)
Definition grossed (a : Z) : float :=
  PyFloat64.round2
    (1.0 * PyFloat64.of_int (100 + VAT_RATE) * PyFloat64.of_int a
     / PyFloat64.of_int 100)%float.

(** The float expression of [amount_without_vat] at a float amount. *)
Definition degrossed (x : float) : float :=
  (100.0 * x / PyFloat64.of_int (100 + VAT_RATE))%float.

(** The amount grossed by [rate] percent, and the gross amount with [rate]
    percent taken out again, in exact arithmetic. *)
Definition gross (rate amount : Z) : Q :=
  (inject_Z ((100 + rate) * amount) / 100)%Q.

Definition net (rate amount : Z) : Q :=
  (inject_Z (100 * amount) / inject_Z (100 + rate))%Q.

End RoundTrip.

(** The values an [IntegerField] column holds: a signed 32-bit integer. *)
Definition integer_field (z : Z) : Prop := -2147483648 <= z <= 2147483647.

(** ** What the backend methods leave behind *)

(** The instance after a successful [initiate], given the instance as
    [perform] left it. *)
Definition initiated (cls : BackendClass) (self1 : Backend) : Backend :=
  let p :=
    set_details (<["backend" := name_value cls]> (details (payment self1)))
      (set_state PENDING (payment self1)) in
  mkBackend p (invoice_doc self1) (set_payments (Table.save p) (world self1)).

(** The success mail for the instance. *)
Definition success_mail (self : Backend) : EmailMessage :=
  mkEmail "Your payment on weblate.org" (ThanksBody (origin (customer (payment self))))
    "billing@weblate.org" [email (customer (payment self))] (invoice_doc self).

(** The failure mail for the instance. *)
Definition failure_mail (self : Backend) : EmailMessage :=
  mkEmail "Your failed payment on weblate.org"
    (FailedBody (default (JStr "Uknown") (details (payment self) !! "reject_reason"))
       (origin (customer (payment self))))
    "billing@weblate.org" [email (customer (payment self))] (invoice_doc self).

(** ** The life cycle of a payment row *)

Module Lifecycle.

(** The transitions [initiate] and [complete] perform. *)
Inductive performed : PaymentState -> PaymentState -> Prop :=
| performed_initiate : performed NEW PENDING
| performed_accept : performed PENDING ACCEPTED
| performed_reject : performed PENDING REJECTED.

(** The state machine of the data model: the performed transitions and
    the external marking of an accepted payment as processed. *)
Inductive transition : PaymentState -> PaymentState -> Prop :=
| transition_performed s s' : performed s s' -> transition s s'
| transition_processed : transition ACCEPTED PROCESSED.

(** [forward s s']: [s'] is reached from [s] along the state machine. *)
Definition forward : PaymentState -> PaymentState -> Prop := rtc transition.

Definition rank (s : PaymentState) : nat :=
  match s with
  | NEW => 0
  | PENDING => 1
  | REJECTED => 2
  | ACCEPTED => 2
  | PROCESSED => 3
  end.

(** REJECTED, ACCEPTED and PROCESSED are left by no performed transition. *)
Definition settled (s : PaymentState) : Prop :=
  s = REJECTED \/ s = ACCEPTED \/ s = PROCESSED.

(** The state stored for primary key [pk], if there is a row. *)
Definition row_state (pk : string) (rows : list Payment) : option PaymentState :=
  state <$> head (Table.filter_pk pk rows).

(** How the stored state of one row may differ between two tables. *)
Definition row_moved (R : PaymentState -> PaymentState -> Prop)
    (before after : option PaymentState) : Prop :=
  match before, after with
  | Some s, Some s' => R s s'
  | None, None => True
  | _, _ => False
  end.

End Lifecycle.

(** A method keeps the row when it changes neither the primary key of
    [self.payment] nor the payments table. *)
Definition keeps_row {A : Type} (m : method A) : Prop :=
  forall self : Backend,
    uuid (payment (fst (m self))) = uuid (payment self)
    /\ payments (world (fst (m self))) = payments (world self).

(** A payment method whose [perform] and [collect] keep the row. *)
Definition well_behaved (cls : BackendClass) : Prop :=
  (forall request back_url complete_url,
      keeps_row (perform cls request back_url complete_url))
  /\ (forall request, keeps_row (collect cls request)).

(** One step of the stored state of a row: it stays, or it moves along a
    performed transition. *)
Definition stepped (before after : option PaymentState) : Prop :=
  after = before
  \/ exists s s', before = Some s /\ after = Some s' /\ Lifecycle.performed s s'.

(** ** The renewal policy *)

(** The policy in the words of the specification. *)
Module RenewalPolicy.

(** Creation time of the most recent PROCESSED payment of a chain. *)
Definition last_processed (chain : list Payment) : option Z :=
  foldr (fun q acc =>
           if decide (state q = PROCESSED)
           then Some (match acc with
                      | Some t => Z.max (created q) t
                      | None => created q
                      end)
           else acc)
        None chain.

(** The REJECTED payments of a chain created after the most recent
    PROCESSED one, or all REJECTED ones when none is PROCESSED. *)
Definition failure_streak (chain : list Payment) : nat :=
  match last_processed chain with
  | Some t => length (filter (fun q => t < created q /\ state q = REJECTED) chain)
  | None => length (filter (fun q => state q = REJECTED) chain)
  end.

End RenewalPolicy.

(** Creation time of the first row in descending order of creation. *)
Definition newest (rows : list Payment) : option Z :=
  created <$> head (Table.order_by_created_desc rows).

(** The row [repeat_payment] creates. *)
Definition renewal_row (env : Env) (self : Payment) (kwargs : gmap string jvalue)
    (w : World) : Payment :=
  mkPayment (uuid4 env (drawn w)) (amount self) (description self) "" (now env) NEW
    "" ∅ (dict_update (dict_update ∅ (extra self)) kwargs) (customer self)
    (Some (uuid self)) "" (amount_fixed self).

(** The world after [repeat_payment] created the row and posted the trigger. *)
Definition renewed (env : Env) (self : Payment) (kwargs : gmap string jvalue)
    (w : World) : World :=
  set_posted (cons (Scheduler.trigger env self))
    (set_drawn S (set_payments (cons (renewal_row env self kwargs w)) w)).

(** The refusal test of [repeat_payment]. *)
Definition refused (self : Payment) (w : World) : bool :=
  negb (bool_decide (Table.filter_repeat self (payments w) = []))
  && bool_decide (3 <= length (Scheduler.failures (Table.filter_repeat self (payments w))))%nat.

(** ** Columns the life cycle leaves alone *)

(** Two versions of a row agree on every column but [state], [details],
    [recurring] and [invoice]. *)
Definition immutable_columns (p q : Payment) : Prop :=
  uuid p = uuid q /\ amount p = amount q /\ description p = description q
  /\ created p = created q /\ backend p = backend q /\ extra p = extra q
  /\ customer p = customer q /\ repeat p = repeat q
  /\ amount_fixed p = amount_fixed q.

(** A method that changes at most the mutable columns of [self.payment]
    and does not touch the payments table. *)
Definition keeps_columns {A : Type} (m : method A) : Prop :=
  forall self : Backend,
    immutable_columns (payment self) (payment (fst (m self)))
    /\ payments (world (fst (m self))) = payments (world self).

(** * Test data *)

(** A customer in Germany without a VAT id. *)
Definition german_consumer : Customer :=
  mkCustomer 7 VatNone "" (Some "Erika Mustermann") (Some "Heidestrasse 17")
    (Some "51147 Koeln") (Some "DE") "erika@example.com" "https://weblate.org" 7.

(** The customer of the test suite: country CZ, VAT id CZ8003280318. *)
Definition czech_company : Customer :=
  mkCustomer 1 (VatObj "CZ" "8003280318") "" (Some "Michal Cihar")
    (Some "Zdimericka 1439") (Some "149 00 Praha 4") (Some "CZ")
    "weblate@example.com" "https://weblate.org" 1.

(** The same VAT id with the country changed to DE. *)
Definition mismatched_company : Customer :=
  mkCustomer 1 (VatObj "CZ" "8003280318") "" (Some "Michal Cihar")
    (Some "Zdimericka 1439") (Some "149 00 Praha 4") (Some "DE")
    "weblate@example.com" "https://weblate.org" 1.

(** A payment of the given amount by the Czech company of the test suite. *)
Definition donation (amount : Z) (amount_fixed : bool) : Payment :=
  mkPayment "6a1c2f0e-54d3-4b7c-9a55-0f1e2d3c4b5a" amount "Test payment" "y" 0 NEW
    "pay" ∅ ∅ czech_company None "" amount_fixed.

(** A test configuration: debug backends enabled, invoicing enabled. *)
Definition test_env : Env :=
  mkEnv true (Some "/srv/fakturace") "secret"
    "https://weblate.org/{language}/payment/{uuid}/" ["en"; "cs"; "de"] "cs"
    1567515360 (fun n => "uuid-" ++ pretty n) (fun n => "2019" ++ pretty n).

(** A callback whose signature check fails. *)
Definition forged_request : Request :=
  mkRequest (mkReturnPayment false "6a1c2f0e-54d3-4b7c-9a55-0f1e2d3c4b5a" ∅ 2).

(** A callback of the gateway for [donation] with the given status. *)
Definition gateway_request (status : Z) : Request :=
  mkRequest (mkReturnPayment true "6a1c2f0e-54d3-4b7c-9a55-0f1e2d3c4b5a"
               {[ "status" := JInt status ]} status).

(** A world holding just the given row. *)
Definition world_of (p : Payment) : World := mkWorld [p] [] [] [] 0.

(** A backend instance bound to the given row. *)
Definition instance_of (p : Payment) : Backend := mkBackend p None (world_of p).

(** A renewal of [donation]. *)
Definition renewal : Payment :=
  mkPayment "0b9d8c7e-1f2a-4e3d-8c4b-5a6f7e8d9c0b" 100 "Test payment" "" 10 NEW
    "" ∅ ∅ czech_company (Some "6a1c2f0e-54d3-4b7c-9a55-0f1e2d3c4b5a") "" false.

(** A payment as the donation form creates it: no [backend] is passed, so
    the column holds its default. *)
Definition form_donation : Payment :=
  mkPayment "6a1c2f0e-54d3-4b7c-9a55-0f1e2d3c4b5a" 100 "Weblate donation" "y" 0 NEW
    "" ∅ ∅ czech_company None "" true.

(** A pending card payment. *)
Definition pending_card_payment : Payment :=
  mkPayment "6a1c2f0e-54d3-4b7c-9a55-0f1e2d3c4b5a" 100 "Weblate donation" "y" 0 PENDING
    "" {[ "backend" := JStr "thepay-card" ]} ∅ czech_company None "" true.

(** A rejected payment. *)
Definition rejected_donation : Payment :=
  set_state REJECTED (donation 100 false).

(** A renewal of [donation] with the given key, creation time and state. *)
Definition renewal_at (pk : string) (t : Z) (s : PaymentState) : Payment :=
  mkPayment pk 100 "Test payment" "" t s "pay" ∅ ∅ czech_company
    (Some (uuid (donation 100 false))) "" false.

(** One rejected renewal, a processed one, then three rejected ones. *)
Definition abandoned_world : World :=
  mkWorld
    [ renewal_at "r5" 50 REJECTED; renewal_at "r4" 40 REJECTED;
      renewal_at "r3" 30 REJECTED; renewal_at "r2" 20 PROCESSED;
      renewal_at "r1" 10 REJECTED; set_state PROCESSED (donation 100 false) ]
    [] [] [] 5.

(** Two rejected renewals, then a processed one, then two rejected ones. *)
Definition recovering_world : World :=
  mkWorld
    [ renewal_at "r5" 50 REJECTED; renewal_at "r4" 40 REJECTED;
      renewal_at "r3" 30 PROCESSED; renewal_at "r2" 20 REJECTED;
      renewal_at "r1" 10 REJECTED; set_state PROCESSED (donation 100 false) ]
    [] [] [] 5.

(** A donation for a reward. *)
Definition reward_donation : Payment :=
  mkPayment "6a1c2f0e-54d3-4b7c-9a55-0f1e2d3c4b5a" 100 "Weblate donation: link" "y" 0
    PROCESSED "pay" ∅ {[ "reward" := JStr "3"; "note" := JStr "first" ]}
    czech_company None "" true.

(** The production configuration: debug backends off, no invoicing. *)
Definition production_env : Env :=
  mkEnv false None "secret" "https://weblate.org/{language}/payment/{uuid}/"
    ["en"; "cs"; "de"] "pt" 1567515360 (fun n => "uuid-" ++ pretty n)
    (fun n => "2019" ++ pretty n).

(** The URL configuration of the test server. *)
Definition test_urls : UrlConf :=
  mkUrlConf (fun view pk => "/" ++ view ++ "/" ++ pk ++ "/")
    (fun location => "http://testserver" ++ location).

(** A payment whose customer has given no billing data yet. *)
Definition anonymous_donation : Payment :=
  mkPayment "6a1c2f0e-54d3-4b7c-9a55-0f1e2d3c4b5a" 100 "Weblate donation" "y" 0 NEW
    "" ∅ ∅
    (mkCustomer 2 VatNone "" None None None None "weblate@example.com"
       "https://weblate.org" 2)
    None "" true.

(** A processed card payment. *)
Definition card_donation : Payment :=
  mkPayment "6a1c2f0e-54d3-4b7c-9a55-0f1e2d3c4b5a" 100 "Weblate donation" "y" 0
    PROCESSED "thepay-card" ∅ ∅ czech_company None "2019007" true.

(** Two rejected renewals and one that was accepted in between. *)
Definition two_failures_world : World :=
  mkWorld
    [ renewal_at "r3" 30 REJECTED; renewal_at "r2" 20 ACCEPTED;
      renewal_at "r1" 10 REJECTED; set_state PROCESSED (donation 100 false) ]
    [] [] [] 3.

(** * Properties *)

(** ** Customer: VAT liability and validation *)

Section CustomerFacts.
Import CustomerModel.

Lemma vat_rate_cases (c : Customer) :
  vat_rate c = if needs_vat c then 21 else 0.
Proof. reflexivity. Qed.

Lemma vat_country_code_unset (c : Customer) :
  vat_truthy (vat c) = false -> vat_country_code c = None.
Proof. intros H. unfold vat_country_code. now rewrite H. Qed.

Lemma is_eu_enduser_spec (c : Customer) :
  is_eu_enduser c = true <->
  (exists code rate, country_code c = Some code /\ EU_VAT_RATES !! code = Some rate)
  /\ vat_truthy (vat c) = false.
Proof.
  unfold is_eu_enduser, dict_contains.
  rewrite andb_true_iff, negb_true_iff.
  destruct (country_code c) as [code|].
  - rewrite bool_decide_eq_true. split.
    + intros [[rate Hr] Hv]. split; [exists code, rate; auto | exact Hv].
    + intros [(code' & rate & Hc & Hr) Hv]. injection Hc as <-. split; [eauto | exact Hv].
  - split; [intros [? _]; discriminate | intros [(? & ? & ? & _) _]; discriminate].
Qed.

End CustomerFacts.

(** C7: [needs_vat] holds exactly when the VAT country code is CZ or the
    customer is in a country of the EU table and has no VAT id; [vat_rate]
    is the flat 21 when [needs_vat] holds and 0 otherwise, and is not the
    rate the EU table lists for the customer's country (a German consumer
    is charged 21 where the table says 19). *)
Theorem needs_vat_flat_rate (c : Customer) :
  (CustomerModel.needs_vat c = true <->
     CustomerModel.vat_country_code c = Some "CZ"
     \/ ((exists code rate, CustomerModel.country_code c = Some code
                            /\ EU_VAT_RATES !! code = Some rate)
         /\ vat_truthy (vat c) = false))
  /\ CustomerModel.vat_rate c = (if CustomerModel.needs_vat c then 21 else 0)
  /\ (CustomerModel.needs_vat german_consumer = true
      /\ CustomerModel.vat_rate german_consumer = 21
      /\ EU_VAT_RATES !! "DE" = Some 19).
Proof.
  split; [| split; [apply vat_rate_cases | now vm_compute]].
  unfold CustomerModel.needs_vat.
  rewrite orb_true_iff, bool_decide_eq_true, is_eu_enduser_spec.
  reflexivity.
Qed.

(** C8: when [vat] is set and its country prefix differs from the
    customer's country, [clean] raises a validation error on the [country]
    field; it never changes the customer; when [vat] is empty (or the two
    codes agree) it raises nothing. *)
Theorem clean_reports_country_mismatch (c : Customer) :
  fst (CustomerModel.clean c) = c
  /\ (vat_truthy (vat c) = true ->
      CustomerModel.vat_country_code c <> CustomerModel.country_code c ->
      snd (CustomerModel.clean c)
      = Raise (ValidationError "country" "The country has to match your VAT code"))
  /\ (vat_truthy (vat c) = true ->
      CustomerModel.vat_country_code c = CustomerModel.country_code c ->
      snd (CustomerModel.clean c) = Return tt)
  /\ (vat_truthy (vat c) = false -> snd (CustomerModel.clean c) = Return tt).
Proof.
  unfold CustomerModel.clean.
  destruct (vat_truthy (vat c)) eqn:Hv.
  - case_bool_decide as Hcc; simpl; repeat split; try congruence.
  - simpl. repeat split; congruence.
Qed.

Lemma clean_reports_country_mismatch_witness :
  snd (CustomerModel.clean mismatched_company)
  = Raise (ValidationError "country" "The country has to match your VAT code")
  /\ snd (CustomerModel.clean czech_company) = Return tt
  /\ snd (CustomerModel.clean german_consumer) = Return tt.
Proof.
  split; [| split].
  - apply (proj1 (proj2 (clean_reports_country_mismatch mismatched_company)));
      [reflexivity | now vm_compute].
  - apply (proj1 (proj2 (proj2 (clean_reports_country_mismatch czech_company))));
      reflexivity.
  - apply (proj2 (proj2 (proj2 (clean_reports_country_mismatch german_consumer))));
      reflexivity.
Defined.

(** ** Payment: VAT arithmetic *)

Section VatFacts.
Import CustomerModel PaymentModel PyFloat64 Binary64.

(** *** Rounding to 53 bits *)

(** The number of binary digits of a positive number. *)
Lemma digits2_pos_bounds (p : positive) :
  2 ^ (Z.pos (digits2_pos p) - 1) <= Z.pos p < 2 ^ Z.pos (digits2_pos p).
Proof.
  induction p as [p IH | p IH |]; cbn [digits2_pos].
  - rewrite Pos2Z.inj_succ, (Pos2Z.inj_xI p).
    replace (Z.succ (Z.pos (digits2_pos p)) - 1) with (Z.succ (Z.pos (digits2_pos p) - 1)) by lia.
    rewrite !Z.pow_succ_r by lia.
    generalize dependent (2 ^ (Z.pos (digits2_pos p) - 1)).
    generalize dependent (2 ^ Z.pos (digits2_pos p)). intros; lia.
  - rewrite Pos2Z.inj_succ, (Pos2Z.inj_xO p).
    replace (Z.succ (Z.pos (digits2_pos p)) - 1) with (Z.succ (Z.pos (digits2_pos p) - 1)) by lia.
    rewrite !Z.pow_succ_r by lia.
    generalize dependent (2 ^ (Z.pos (digits2_pos p) - 1)).
    generalize dependent (2 ^ Z.pos (digits2_pos p)). intros; lia.
  - cbn. lia.
Qed.

Lemma digits2_pos_unique (p : positive) (d : Z) :
  2 ^ (d - 1) <= Z.pos p < 2 ^ d -> Z.pos (digits2_pos p) = d.
Proof.
  intros [Hlo Hhi]. pose proof (digits2_pos_bounds p) as [Hlo' Hhi'].
  assert (Hd : 0 < d).
  { destruct (Z_lt_le_dec 0 d) as [|Hle]; [assumption |].
    assert (2 ^ d <= 2 ^ 0) by (apply Z.pow_le_mono_r; lia). change (2 ^ 0) with 1 in *. lia. }
  assert (d - 1 < Z.pos (digits2_pos p)).
  { apply (Z.pow_lt_mono_r_iff 2); lia. }
  assert (Z.pos (digits2_pos p) - 1 < d).
  { apply (Z.pow_lt_mono_r_iff 2); lia. }
  lia.
Qed.

(** One step of the shift register halves the integer part and keeps
    the bit shifted out and whether anything was shifted out before. *)
Lemma shr_1_spec (m : Z) (r s : bool) :
  0 <= m ->
  shr_1 {| shr_m := m; shr_r := r; shr_s := s |}
  = {| shr_m := m / 2; shr_r := Z.odd m; shr_s := r || s |}.
Proof.
  intros Hm. destruct m as [| [p | p |] |]; try lia; cbn [shr_1]; try reflexivity.
  - f_equal. rewrite (Pos2Z.inj_xI p). Z.div_mod_to_equations. lia.
  - f_equal. rewrite (Pos2Z.inj_xO p). Z.div_mod_to_equations. lia.
Qed.

(** Shifting once turns the register of [A / B] into that of [A / 2B]. *)
Lemma shr_1_located (A B : Z) (mrs : shr_record) :
  0 <= A -> 0 < B -> located A B mrs -> located A (2 * B) (shr_1 mrs).
Proof.
  intros HA HB. destruct mrs as [m r s]. intros (Hm & Hr & Hs). cbn in Hm, Hr, Hs.
  assert (Hm0 : 0 <= m) by (subst m; apply Z.div_pos; lia).
  rewrite shr_1_spec by assumption. unfold located. cbn [shr_m shr_r shr_s].
  pose proof (Z.mod_pos_bound A B HB) as Hrho.
  assert (Hdiv : A / (2 * B) = m / 2).
  { subst m. rewrite (Z.mul_comm 2 B). now rewrite Z.div_div by lia. }
  assert (Hmod : A mod (2 * B) = A mod B + B * (m mod 2)).
  { subst m. rewrite (Z.mul_comm 2 B). apply Z.rem_mul_r; lia. }
  rewrite Hdiv, Hmod, Hr, Hs. rewrite (Zmod_odd m).
  split; [reflexivity |].
  destruct (Z.odd m).
  - split.
    + symmetry. apply Z.leb_le. lia.
    + destruct (Z.leb_spec B (2 * (A mod B))), (Z.eqb_spec (A mod B) 0),
        (Z.eqb_spec (2 * (A mod B)) B), (Z.eqb_spec (A mod B + B * 1) 0),
        (Z.eqb_spec (2 * (A mod B + B * 1)) (2 * B)); cbn; try reflexivity; lia.
  - split.
    + symmetry. apply Z.leb_gt. lia.
    + destruct (Z.leb_spec B (2 * (A mod B))), (Z.eqb_spec (A mod B) 0),
        (Z.eqb_spec (2 * (A mod B)) B), (Z.eqb_spec (A mod B + B * 0) 0),
        (Z.eqb_spec (2 * (A mod B + B * 0)) (2 * B)); cbn; try reflexivity; lia.
Qed.

Lemma iter_pos_located (p : positive) :
  forall (A B : Z) (mrs : shr_record),
    0 <= A -> 0 < B -> located A B mrs ->
    located A (2 ^ Z.pos p * B) (SpecFloat.iter_pos shr_1 p mrs).
Proof.
  induction p as [p IH | p IH |]; intros A B mrs HA HB H; cbn [SpecFloat.iter_pos].
  - replace (2 ^ Z.pos p~1 * B) with (2 ^ Z.pos p * (2 ^ Z.pos p * (2 * B))).
    + apply IH; [lia | |]. { pose proof (Z.pow_pos_nonneg 2 (Z.pos p)). lia. }
      apply IH; [lia | lia |]. now apply shr_1_located.
    + rewrite (Pos2Z.inj_xI p), Z.pow_add_r, Z.pow_mul_r by lia.
      change (2 ^ 2) with 4. change (2 ^ 1) with 2.
      replace (4 ^ Z.pos p) with (2 ^ Z.pos p * 2 ^ Z.pos p); [ring |].
      rewrite <- Z.pow_mul_l. reflexivity.
  - replace (2 ^ Z.pos p~0 * B) with (2 ^ Z.pos p * (2 ^ Z.pos p * B)).
    + apply IH; [lia | |]. { pose proof (Z.pow_pos_nonneg 2 (Z.pos p)). lia. }
      now apply IH.
    + rewrite (Pos2Z.inj_xO p), Z.pow_mul_r by lia.
      change (2 ^ 2) with 4.
      replace (4 ^ Z.pos p) with (2 ^ Z.pos p * 2 ^ Z.pos p); [ring |].
      rewrite <- Z.pow_mul_l. reflexivity.
  - change (2 ^ 1) with 2. now apply shr_1_located.
Qed.

Lemma shr_located (A B : Z) (mrs : shr_record) (e n : Z) :
  0 <= A -> 0 < B -> 0 <= n -> located A B mrs ->
  exists mrs', shr mrs e n = (mrs', e + n) /\ located A (2 ^ n * B) mrs'.
Proof.
  intros HA HB Hn H. destruct n as [| p | p]; try lia.
  - exists mrs. cbn [shr]. rewrite Z.add_0_r. split; [reflexivity |].
    change (2 ^ 0) with 1. now rewrite Z.mul_1_l.
  - exists (SpecFloat.iter_pos shr_1 p mrs). split; [reflexivity |]. now apply iter_pos_located.
Qed.

(** [div_half_even A B] is an integer nearest to [A / B]. *)
Lemma div_half_even_near (A B : Z) :
  0 <= A -> 0 < B ->
  (div_half_even A B = A / B \/ div_half_even A B = A / B + 1)
  /\ 2 * Z.abs (div_half_even A B * B - A) <= B.
Proof.
  intros HA HB. unfold div_half_even; cbv zeta.
  pose proof (Z.mod_pos_bound A B HB). pose proof (Z.div_mod A B ltac:(lia)).
  destruct (Z.compare_spec (2 * (A mod B)) B); [destruct (Z.even (A / B)) | |].
  all: split; [auto | nia].
Qed.

Lemma div_half_even_exact (A B : Z) :
  0 < B -> A mod B = 0 -> div_half_even A B = A / B.
Proof.
  intros HB H. unfold div_half_even; cbv zeta. rewrite H.
  destruct (Z.compare_spec (2 * 0) B); lia.
Qed.

Lemma div_half_even_unique (A B n : Z) :
  0 < B -> 2 * Z.abs (A - n * B) < B -> div_half_even A B = n.
Proof.
  intros HB H. unfold div_half_even; cbv zeta.
  pose proof (Z.mod_pos_bound A B HB). pose proof (Z.div_mod A B ltac:(lia)).
  destruct (Z.compare_spec (2 * (A mod B)) B); [destruct (Z.even (A / B)) | |]; nia.
Qed.

(** Rounding a register to nearest even gives [div_half_even]. *)
Lemma round_located (A B : Z) (mrs : shr_record) :
  0 <= A -> 0 < B -> located A B mrs ->
  round_nearest_even (shr_m mrs) (loc_of_shr_record mrs) = div_half_even A B.
Proof.
  intros HA HB. destruct mrs as [m r s]. intros (Hm & Hr & Hs). cbn in Hm, Hr, Hs.
  pose proof (Z.mod_pos_bound A B HB).
  unfold div_half_even; cbv zeta. rewrite <- Hm. cbn [shr_m loc_of_shr_record].
  destruct (Z.leb_spec B (2 * (A mod B))), (Z.eqb_spec (A mod B) 0),
    (Z.eqb_spec (2 * (A mod B)) B); subst r s; cbn [negb andb round_nearest_even];
    destruct (Z.compare_spec (2 * (A mod B)) B); try lia; reflexivity.
Qed.

Lemma pow2_pos (n : Z) : 0 <= n -> 0 < 2 ^ n.
Proof. intros. apply Z.pow_pos_nonneg; lia. Qed.

Lemma shifted_digits (mx n : Z) :
  0 < mx -> n = Zdigits2 mx - 53 -> 0 <= n ->
  2 ^ 52 <= mx / 2 ^ n < 2 ^ 53.
Proof.
  intros Hmx Hn Hn0. destruct mx as [| p |]; try lia. cbn [Zdigits2] in Hn.
  pose proof (digits2_pos_bounds p) as [Hlo Hhi].
  pose proof (pow2_pos n Hn0).
  replace (Z.pos (digits2_pos p) - 1) with (n + 52) in Hlo by lia.
  replace (Z.pos (digits2_pos p)) with (n + 53) in Hhi by lia.
  rewrite Z.pow_add_r in Hlo, Hhi by lia.
  split.
  - apply Z.div_le_lower_bound; lia.
  - apply Z.div_lt_upper_bound; lia.
Qed.

(** The rounding step shared by all binary64 operations, away from
    overflow and underflow: it returns a 53-bit significand [m] and an
    exponent such that [m * 2^k] is [A / (2^n B)] rounded to the nearest
    integer, where [n] is the number of surplus digits and [k] is 1 when
    rounding carried into a 54th digit. *)
Lemma binary_round_aux_spec (sx : bool) (mx ex : Z) (lx : location) (A B : Z) :
  0 <= A -> 0 < B -> 0 < mx ->
  located A B (shr_record_of_loc mx lx) ->
  53 <= Zdigits2 mx -> -1074 <= Zdigits2 mx + ex - 53 -> Zdigits2 mx + ex <= 1023 ->
  exists (m : positive) (e k : Z),
    binary_round_aux prec emax sx mx ex lx = S754_finite sx m e
    /\ 2 ^ 52 <= Z.pos m < 2 ^ 53
    /\ 0 <= k <= 1 /\ e = ex + (Zdigits2 mx - 53) + k
    /\ Z.pos m * 2 ^ k = div_half_even A (2 ^ (Zdigits2 mx - 53) * B)
    /\ 2 ^ 52 <= A / (2 ^ (Zdigits2 mx - 53) * B) < 2 ^ 53.
Proof.
  intros HA HB Hmx Hloc Hd Hlo Hhi.
  set (n := Zdigits2 mx - 53) in *.
  assert (Hn : 0 <= n) by lia.
  pose proof (pow2_pos n Hn) as Hpn.
  assert (Hm : mx = A / B).
  { destruct Hloc as (Hm & _). now destruct lx as [| []]. }
  assert (Hq : 2 ^ 52 <= A / (2 ^ n * B) < 2 ^ 53).
  { rewrite (Z.mul_comm (2 ^ n) B), <- Z.div_div, <- Hm by lia.
    now apply shifted_digits. }
  unfold binary_round_aux, shr_fexp.
  replace (fexp prec emax (Zdigits2 mx + ex) - ex) with n
    by (unfold fexp, SpecFloat.emin, prec, emax; lia).
  destruct (shr_located A B (shr_record_of_loc mx lx) ex n HA HB Hn Hloc)
    as (mrs' & -> & Hloc').
  rewrite (round_located A (2 ^ n * B) mrs') by (assumption || lia).
  destruct (div_half_even_near A (2 ^ n * B)) as [HM _]; [lia | lia |].
  set (M := div_half_even A (2 ^ n * B)) in *.
  change (2 ^ 52) with 4503599627370496 in *.
  change (2 ^ 53) with 9007199254740992 in *.
  destruct (Z.eq_dec M 9007199254740992) as [E | NE].
  - exists 4503599627370496%positive, (ex + n + 1), 1.
    rewrite E. change (Zdigits2 9007199254740992) with 54.
    replace (fexp prec emax (54 + (ex + n)) - (ex + n)) with 1
      by (unfold fexp, SpecFloat.emin, prec, emax; lia).
    cbn [shr SpecFloat.iter_pos shr_record_of_loc shr_1 shr_m].
    replace (ex + n + 1 <=? emax - prec) with true
      by (symmetry; apply Z.leb_le; unfold prec, emax; lia).
    repeat split; try lia; try reflexivity.
  - assert (HMlt : 4503599627370496 <= M < 9007199254740992) by lia.
    destruct M as [| pm |] eqn:EM; try lia.
    exists pm, (ex + n), 0.
    cbn [Zdigits2].
    rewrite (digits2_pos_unique pm 53)
      by (change (2 ^ (53 - 1)) with 4503599627370496;
          change (2 ^ 53) with 9007199254740992; lia).
    replace (fexp prec emax (53 + (ex + n)) - (ex + n)) with 0
      by (unfold fexp, SpecFloat.emin, prec, emax; lia).
    cbn [shr shr_record_of_loc shr_m].
    replace (ex + n <=? emax - prec) with true
      by (symmetry; apply Z.leb_le; unfold prec, emax; lia).
    repeat split; try lia; try reflexivity.
Qed.

Lemma Qpow2_nonzero : ~ (2 == 0)%Q.
Proof. intros H. discriminate H. Qed.

Lemma Qpow2_pos (e : Z) : (0 < 2 ^ e)%Q.
Proof. apply Qpower_0_lt. reflexivity. Qed.

Lemma Qpow2_inject (n : Z) : 0 <= n -> (2 ^ n == inject_Z (2 ^ n))%Q.
Proof. intros H. now rewrite (Zpower_Qpower 2 n H). Qed.

Lemma Qpow2_ge_1 (n : Z) : 0 <= n -> (1 <= 2 ^ n)%Q.
Proof.
  intros H. rewrite (Qpow2_inject n H).
  change 1%Q with (inject_Z 1). rewrite <- Zle_Qle. pose proof (pow2_pos n H). lia.
Qed.

Lemma mag_pos (m : positive) (e : Z) : (0 < mag m e)%Q.
Proof.
  unfold mag. apply Qmult_lt_0_compat; [| apply Qpow2_pos].
  change 0%Q with (inject_Z 0). rewrite <- Zlt_Qlt. lia.
Qed.

(** The same over the rationals: the result is within [eps] of the
    exact value [A / B * 2^ex], and equal to it when that value is a whole
    number of at most 53 bits. *)
Lemma rounded_value (m : positive) (e k n ex A B : Z) :
  0 <= A -> 0 < B -> 0 <= n -> 0 <= k <= 1 -> e = ex + n + k ->
  Z.pos m * 2 ^ k = div_half_even A (2 ^ n * B) ->
  2 ^ 52 <= A / (2 ^ n * B) ->
  ((1 - eps) * (inject_Z A / inject_Z B * 2 ^ ex) <= mag m e
   /\ mag m e <= (1 + eps) * (inject_Z A / inject_Z B * 2 ^ ex))%Q
  /\ forall K : Z, 0 < K < 2 ^ 53 ->
       (inject_Z A / inject_Z B * 2 ^ ex == inject_Z K)%Q ->
       (mag m e == inject_Z A / inject_Z B * 2 ^ ex)%Q.
Proof.
  intros HA HB Hn Hk He HM Hq.
  pose proof (pow2_pos n Hn) as Hpn.
  set (B' := 2 ^ n * B) in *.
  assert (HB' : 0 < B') by (unfold B'; nia).
  destruct (div_half_even_near A B' HA HB') as [_ Hnear].
  set (M := div_half_even A B') in *.
  assert (Hfloor : 2 ^ 52 * B' <= A).
  { pose proof (Z.mul_div_le A B' HB'). nia. }
  change (2 ^ 52) with 4503599627370496 in *.
  change (2 ^ 53) with 9007199254740992 in *.
  assert (Hmag : (mag m e == inject_Z M * inject_Z (2 ^ n) * 2 ^ ex)%Q).
  { unfold mag. subst e. rewrite !Qpower_plus by apply Qpow2_nonzero.
    rewrite (Qpow2_inject n Hn), (Qpow2_inject k) by lia.
    rewrite <- HM, inject_Z_mult. ring. }
  assert (Hb : (0 < inject_Z B)%Q) by (change 0%Q with (inject_Z 0); now rewrite <- Zlt_Qlt).
  assert (Hb0 : ~ (inject_Z B == 0)%Q) by (intros E; rewrite E in Hb; discriminate Hb).
  pose proof (Qpow2_pos ex) as HW.
  set (W := (2 ^ ex)%Q) in *.
  set (a := inject_Z A) in *. set (b := inject_Z B) in *.
  set (x := (inject_Z M * inject_Z (2 ^ n))%Q) in *.
  assert (Hxb : (x * b == inject_Z (M * B'))%Q).
  { unfold x, b, B'. rewrite !inject_Z_mult. ring. }
  assert (Hyb : (a / b * b == a)%Q) by (field; assumption).
  split; [split |].
  - rewrite Hmag. rewrite Qmult_assoc. apply Qmult_le_compat_r; [| now apply Qlt_le_weak].
    apply (Qmult_le_r _ _ b Hb).
    assert (H1 : (inject_Z (9007199254740991 * A) <= inject_Z (9007199254740992 * (M * B')))%Q)
      by (rewrite <- Zle_Qle; lia).
    rewrite !inject_Z_mult in H1. fold a in H1. rewrite <- inject_Z_mult in H1.
    rewrite <- Hxb in H1.
    setoid_replace ((1 - eps) * (a / b) * b)%Q with ((1 - eps) * (a / b * b))%Q using relation Qeq by ring.
    rewrite Hyb. unfold eps. unfold inject_Z in H1. lra.
  - rewrite Hmag. rewrite Qmult_assoc. apply Qmult_le_compat_r; [| now apply Qlt_le_weak].
    apply (Qmult_le_r _ _ b Hb).
    assert (H1 : (inject_Z (9007199254740992 * (M * B')) <= inject_Z (9007199254740993 * A))%Q)
      by (rewrite <- Zle_Qle; lia).
    rewrite !inject_Z_mult in H1. fold a in H1. rewrite <- inject_Z_mult in H1.
    rewrite <- Hxb in H1.
    setoid_replace ((1 + eps) * (a / b) * b)%Q with ((1 + eps) * (a / b * b))%Q using relation Qeq by ring.
    rewrite Hyb. unfold eps. unfold inject_Z in H1. lra.
  - intros K HK Hv.
    (* the unit in the last place is at most 1 *)
    destruct (Z_lt_le_dec 0 (ex + n)) as [Hpos | Hneg].
    + exfalso.
      assert (HW2 : (2 * inject_Z (2 ^ n) <= W * (inject_Z (2 ^ n) * inject_Z (2 ^ n)))%Q).
      { unfold W. replace ex with (1 + (ex + n - 1) + - n) by lia.
        rewrite !Qpower_plus, Qpower_opp by apply Qpow2_nonzero.
        rewrite (Qpow2_inject n Hn).
        pose proof (Qpow2_ge_1 (ex + n - 1) ltac:(lia)) as H1.
        assert (Hpn' : (0 < inject_Z (2 ^ n))%Q)
          by (change 0%Q with (inject_Z 0); now rewrite <- Zlt_Qlt).
        set (p := inject_Z (2 ^ n)) in *. set (z := (2 ^ (ex + n - 1))%Q) in *.
        setoid_replace (2 ^ 1 * z * / p * (p * p))%Q with (2 * z * p)%Q using relation Qeq
          by (change (2 ^ 1)%Q with 2%Q; field; intros E; rewrite E in Hpn'; discriminate Hpn').
        nra. }
      assert (H2 : (inject_Z (4503599627370496 * B') <= a)%Q) by (unfold a; rewrite <- Zle_Qle; lia).
      unfold B' in H2. rewrite !inject_Z_mult in H2. fold b in H2.
      assert (H3 : (inject_Z K < inject_Z 9007199254740992)%Q) by (rewrite <- Zlt_Qlt; lia).
      rewrite <- Hv in H3.
      assert (Hpn' : (0 < inject_Z (2 ^ n))%Q)
        by (change 0%Q with (inject_Z 0); now rewrite <- Zlt_Qlt).
      set (p := inject_Z (2 ^ n)) in *.
      assert (H4 : (a / b * W * (b * p) < inject_Z 9007199254740992 * (b * p))%Q).
      { apply Qmult_lt_compat_r; [| assumption]. now apply Qmult_lt_0_compat. }
      setoid_replace (a / b * W * (b * p))%Q with (a * (W * p))%Q using relation Qeq in H4 by (field; assumption).
      change (inject_Z 9007199254740992) with (9007199254740992%Q) in H4.
      change (inject_Z 4503599627370496) with (4503599627370496%Q) in H2.
      assert (H5 : (2 <= W * p)%Q).
      { apply (Qmult_le_r _ _ p Hpn'). setoid_replace (W * p * p)%Q with (W * (p * p))%Q using relation Qeq by ring.
        exact HW2. }
      assert (H6 : (4503599627370496 * (p * b) * 2 <= a * (W * p))%Q).
      { apply Qle_trans with (a * 2)%Q.
        - apply Qmult_le_compat_r; [exact H2 | discriminate].
        - rewrite !(Qmult_comm a). apply Qmult_le_compat_r; [exact H5 |].
          unfold a. change 0%Q with (inject_Z 0). rewrite <- Zle_Qle. lia. }
      lra.
    + set (P := 2 ^ (- (ex + n))).
      assert (HP : 0 < P) by (apply pow2_pos; lia).
      assert (HWP : (W * inject_Z P * inject_Z (2 ^ n) == 1)%Q).
      { unfold W, P. rewrite <- (Qpow2_inject (- (ex + n))), <- (Qpow2_inject n) by lia.
        rewrite <- !Qpower_plus by apply Qpow2_nonzero.
        replace (ex + - (ex + n) + n) with 0 by lia. reflexivity. }
      assert (Hpn' : (0 < inject_Z (2 ^ n))%Q)
        by (change 0%Q with (inject_Z 0); now rewrite <- Zlt_Qlt).
      assert (HP' : (0 < inject_Z P)%Q)
        by (change 0%Q with (inject_Z 0); now rewrite <- Zlt_Qlt).
      assert (HA' : A = K * P * B').
      { apply inject_Z_injective. unfold B'. rewrite !inject_Z_mult. fold a b.
        rewrite <- Hv. set (p := inject_Z (2 ^ n)) in *. set (pp := inject_Z P) in *.
        setoid_replace (a / b * W * pp * (p * b))%Q with (a * (W * pp * p))%Q using relation Qeq by (field; assumption).
        rewrite HWP. ring. }
      assert (HMe : M = K * P).
      { unfold M. rewrite div_half_even_exact; [| assumption |].
        - rewrite HA'. apply Z.div_mul. lia.
        - rewrite HA'. apply Z.mod_mul. lia. }
      rewrite Hmag. unfold x. rewrite HMe.
      assert (Ha : (a == inject_Z K * inject_Z P * inject_Z (2 ^ n) * b)%Q).
      { unfold a. rewrite HA'. unfold B', b. rewrite !inject_Z_mult. ring. }
      rewrite Ha, inject_Z_mult. field. assumption.
Qed.

Lemma rounded_ext (v v' : Q) (m : positive) (e : Z) :
  (v == v')%Q -> rounded v m e -> rounded v' m e.
Proof.
  intros E [[H1 H2] H3]. unfold rounded. rewrite <- E.
  split; [now split |]. intros K HK HvK. rewrite <- E in HvK. rewrite <- E. now apply (H3 K).
Qed.

Lemma digits2_pos_range (p : positive) (a b : Z) :
  0 <= a -> 0 <= b -> 2 ^ a <= Z.pos p < 2 ^ b -> a < Z.pos (digits2_pos p) <= b.
Proof.
  intros Ha Hb [Hlo Hhi]. pose proof (digits2_pos_bounds p) as [Hlo' Hhi'].
  split.
  - apply (Z.pow_lt_mono_r_iff 2); lia.
  - assert (Z.pos (digits2_pos p) - 1 < b); [| lia].
    apply (Z.pow_lt_mono_r_iff 2); lia.
Qed.

Lemma normal_valid (s : bool) (m : positive) (e : Z) :
  2 ^ 52 <= Z.pos m < 2 ^ 53 -> -1074 <= e <= 971 ->
  valid_binary (S754_finite s m e) = true.
Proof.
  intros Hm He. cbn [SpecFloat.valid_binary]. unfold bounded, canonical_mantissa.
  rewrite (digits2_pos_unique m 53) by exact Hm.
  apply andb_true_intro. split.
  - apply Z.eqb_eq. unfold fexp, SpecFloat.emin, prec, emax. lia.
  - apply Z.leb_le. unfold prec, emax. lia.
Qed.

Lemma exact_located (A : Z) : located A 1 (shr_record_of_loc A loc_Exact).
Proof.
  unfold located. cbn [shr_record_of_loc shr_m shr_r shr_s].
  rewrite Z.div_1_r, Z.mod_1_r. repeat split.
Qed.

Lemma new_location_located (A B : Z) :
  0 <= A -> 0 < B ->
  located A B (shr_record_of_loc (A / B) (new_location B (A mod B))).
Proof.
  intros HA HB. pose proof (Z.mod_pos_bound A B HB) as Hr.
  unfold located, new_location, new_location_even, new_location_odd.
  set (r := A mod B) in *.
  destruct (Z.even B) eqn:Ev.
  - destruct (Z.eqb_spec r 0) as [E | NE].
    + cbn [shr_record_of_loc shr_m shr_r shr_s]. rewrite E.
      repeat split. symmetry. apply Z.leb_gt. lia.
    + destruct (Z.compare_spec (2 * r) B); cbn [shr_record_of_loc shr_m shr_r shr_s];
        repeat split;
        destruct (Z.leb_spec B (2 * r)), (Z.eqb_spec (2 * r) B); cbn; try reflexivity; lia.
  - assert (Hodd : 2 * r <> B).
    { intros E. rewrite <- E, Z.even_mul in Ev. discriminate Ev. }
    destruct (Z.eqb_spec r 0) as [E | NE].
    + cbn [shr_record_of_loc shr_m shr_r shr_s]. rewrite E.
      repeat split. symmetry. apply Z.leb_gt. lia.
    + destruct (Z.compare_spec (2 * r + 1) B); cbn [shr_record_of_loc shr_m shr_r shr_s];
        repeat split;
        destruct (Z.leb_spec B (2 * r)), (Z.eqb_spec (2 * r) B); cbn; try reflexivity; lia.
Qed.

(** Multiplication and division return the exact product and quotient
    rounded once. *)
Lemma SFmul_value (s1 s2 : bool) (m1 m2 : positive) (e1 e2 : Z) :
  2 ^ 52 <= Z.pos m1 < 2 ^ 53 -> 2 ^ 52 <= Z.pos m2 < 2 ^ 53 ->
  -400 <= e1 <= 400 -> -400 <= e2 <= 400 ->
  exists (m : positive) (e : Z),
    SFmul prec emax (S754_finite s1 m1 e1) (S754_finite s2 m2 e2)
    = S754_finite (xorb s1 s2) m e
    /\ 2 ^ 52 <= Z.pos m < 2 ^ 53
    /\ e1 + e2 + 52 <= e <= e1 + e2 + 54
    /\ rounded (mag m1 e1 * mag m2 e2) m e.
Proof.
  intros Hm1 Hm2 He1 He2. cbn [SFmul].
  assert (Hd : 104 < Zdigits2 (Z.pos (m1 * m2)) <= 106).
  { cbn [Zdigits2]. apply digits2_pos_range; [lia | lia |].
    rewrite Pos2Z.inj_mul.
    change (2 ^ 104) with (2 ^ 52 * 2 ^ 52). change (2 ^ 106) with (2 ^ 53 * 2 ^ 53).
    change (2 ^ 52) with 4503599627370496 in *.
    change (2 ^ 53) with 9007199254740992 in *. nia. }
  destruct (binary_round_aux_spec (xorb s1 s2) (Z.pos (m1 * m2)) (e1 + e2) loc_Exact
              (Z.pos (m1 * m2)) 1 ltac:(lia) ltac:(lia) ltac:(lia) (exact_located _)
              ltac:(lia) ltac:(lia) ltac:(lia))
    as (m & e & k & Hr & Hm & Hk & He & HM & Hq).
  exists m, e. split; [exact Hr |]. split; [exact Hm |]. split; [lia |].
  apply (rounded_ext (inject_Z (Z.pos (m1 * m2)) / inject_Z 1 * 2 ^ (e1 + e2))).
  - unfold mag. rewrite Pos2Z.inj_mul, inject_Z_mult, Qpower_plus by apply Qpow2_nonzero.
    change (inject_Z 1) with 1%Q. field.
  - apply (rounded_value m e k (Zdigits2 (Z.pos (m1 * m2)) - 53) (e1 + e2)); try lia; assumption.
Qed.

Lemma SFdiv_value (s1 s2 : bool) (m1 m2 : positive) (e1 e2 : Z) :
  Z.pos (digits2_pos m1) <= Z.pos (digits2_pos m2) + 53 ->
  Z.pos (digits2_pos m1) <= 64 -> Z.pos (digits2_pos m2) <= 64 ->
  -400 <= e1 <= 400 -> -400 <= e2 <= 400 ->
  exists (m : positive) (e : Z),
    SFdiv prec emax (S754_finite s1 m1 e1) (S754_finite s2 m2 e2)
    = S754_finite (xorb s1 s2) m e
    /\ 2 ^ 52 <= Z.pos m < 2 ^ 53
    /\ 0 <= e - (Z.pos (digits2_pos m1) + e1 - Z.pos (digits2_pos m2) - e2 - 53) <= 2
    /\ rounded (mag m1 e1 / mag m2 e2) m e.
Proof.
  intros Hd Hd1 Hd2 He1 He2. cbn [SFdiv]. unfold SFdiv_core_binary. cbn [Zdigits2].
  set (d1 := Z.pos (digits2_pos m1)) in *. set (d2 := Z.pos (digits2_pos m2)) in *.
  set (E := d1 + e1 - d2 - e2 - 53).
  replace (Z.min (fexp prec emax (d1 + e1 - (d2 + e2))) (e1 - e2)) with E
    by (unfold fexp, SpecFloat.emin, prec, emax; lia).
  set (s := e1 - e2 - E).
  assert (Hs : s = 53 + d2 - d1) by (unfold s, E; lia).
  assert (Hs0 : 0 <= s) by lia.
  set (m' := match s with Z.pos _ => Z.shiftl (Z.pos m1) s | 0 => Z.pos m1 | Z.neg _ => 0 end).
  assert (Hm' : m' = Z.pos m1 * 2 ^ s).
  { unfold m'. destruct s as [| p | p]; [cbn; lia | | lia].
    now rewrite Z.shiftl_mul_pow2 by lia. }
  pose proof (digits2_pos_bounds m1) as [Hlo1 Hhi1]. fold d1 in Hlo1, Hhi1.
  pose proof (digits2_pos_bounds m2) as [Hlo2 Hhi2]. fold d2 in Hlo2, Hhi2.
  pose proof (pow2_pos s Hs0) as Hps.
  assert (Hd1p : 0 < d1) by (unfold d1; lia). assert (Hd2p : 0 < d2) by (unfold d2; lia).
  assert (Hlo : 2 ^ (d2 + 52) <= m').
  { rewrite Hm'. replace (d2 + 52) with (d1 - 1 + s) by lia. rewrite Z.pow_add_r by lia. nia. }
  assert (Hhi : m' < 2 ^ (d2 + 53)).
  { rewrite Hm'. replace (d2 + 53) with (d1 + s) by lia. rewrite Z.pow_add_r by lia. nia. }
  assert (Hq : 2 ^ 52 <= m' / Z.pos m2 < 2 ^ 54).
  { rewrite Z.pow_add_r in Hlo, Hhi by lia.
    replace d2 with (d2 - 1 + 1) in Hhi at 1 by lia. rewrite Z.pow_add_r in Hhi by lia.
    change (2 ^ 1) with 2 in Hhi.
    change (2 ^ 54) with 18014398509481984.
    change (2 ^ 52) with 4503599627370496 in *.
    change (2 ^ 53) with 9007199254740992 in *.
    generalize dependent (2 ^ d2). generalize dependent (2 ^ (d2 - 1)). intros.
    split.
    - apply Z.div_le_lower_bound; nia.
    - apply Z.div_lt_upper_bound; nia. }
  assert (Hdiv : Z.div_eucl m' (Z.pos m2) = (m' / Z.pos m2, m' mod Z.pos m2)).
  { unfold Z.div, Z.modulo. now destruct (Z.div_eucl m' (Z.pos m2)). }
  rewrite Hdiv.
  assert (Hqpos : 0 < m' / Z.pos m2) by (pose proof (pow2_pos 52); lia).
  assert (Hdq : 52 < Zdigits2 (m' / Z.pos m2) <= 54).
  { destruct (m' / Z.pos m2) as [| q |] eqn:Eq; try lia. cbn [Zdigits2].
    apply digits2_pos_range; lia. }
  assert (Hm0 : 0 <= m') by (rewrite Hm'; nia).
  destruct (binary_round_aux_spec (xorb s1 s2) (m' / Z.pos m2) E
              (new_location (Z.pos m2) (m' mod Z.pos m2)) m' (Z.pos m2)
              Hm0 ltac:(lia) Hqpos (new_location_located m' (Z.pos m2) Hm0 ltac:(lia))
              ltac:(lia) ltac:(unfold E; lia) ltac:(unfold E; lia))
    as (m & e & k & Hr & Hm & Hk & He & HM & Hq').
  exists m, e. split; [exact Hr |]. split; [exact Hm |]. split; [fold E; lia |].
  apply (rounded_ext (inject_Z m' / inject_Z (Z.pos m2) * 2 ^ E)).
  - assert (Hp : (2 ^ e1 == inject_Z (2 ^ s) * 2 ^ E * 2 ^ e2)%Q).
    { rewrite <- (Qpow2_inject s Hs0), <- !Qpower_plus by apply Qpow2_nonzero.
      replace (s + E + e2) with e1 by (unfold s; lia). reflexivity. }
    unfold mag. rewrite Hp, Hm', inject_Z_mult.
    field. split.
    + pose proof (Qpow2_pos e2) as H. intros E0. rewrite E0 in H. discriminate H.
    + intros E0. discriminate E0.
  - apply (rounded_value m e k (Zdigits2 (m' / Z.pos m2) - 53) E); try lia; assumption.
Qed.

Lemma iter_xO_value (p k : positive) : Z.pos (Pos.iter xO p k) = Z.pos p * 2 ^ Z.pos k.
Proof.
  induction k as [| k IH] using Pos.peano_ind.
  - cbn [Pos.iter]. rewrite (Pos2Z.inj_xO p). change (2 ^ 1) with 2. ring.
  - rewrite Pos.iter_succ, Pos2Z.inj_succ, Z.pow_succ_r by lia.
    rewrite (Pos2Z.inj_xO (Pos.iter xO p k)), IH. ring.
Qed.

(** [float(z)] is exact for integers of at most 53 bits. *)
Lemma binary_round_value (s : bool) (p : positive) :
  Z.pos p < 2 ^ 53 ->
  exists (m : positive) (e : Z),
    binary_round prec emax s p 0 = S754_finite s m e
    /\ 2 ^ 52 <= Z.pos m < 2 ^ 53 /\ -52 <= e <= 1
    /\ (mag m e == inject_Z (Z.pos p))%Q.
Proof.
  intros Hp. unfold binary_round, shl_align.
  pose proof (digits2_pos_bounds p) as [Hlo Hhi].
  assert (Hd : 0 < Z.pos (digits2_pos p) <= 53).
  { apply digits2_pos_range; [lia | lia |]. change (2 ^ 0) with 1. lia. }
  set (d := Z.pos (digits2_pos p)) in *.
  replace (fexp prec emax (d + 0)) with (d - 53)
    by (unfold fexp, SpecFloat.emin, prec, emax; lia).
  assert (Hmz : exists mz : positive,
             (match d - 53 - 0 with
              | Z.neg k => (Pos.iter xO p k, d - 53)
              | _ => (p, 0)
              end) = (mz, d - 53)
             /\ Z.pos mz = Z.pos p * 2 ^ (53 - d)).
  { destruct (d - 53 - 0) as [| k | k] eqn:Ek; try lia.
    - exists p. replace (d - 53) with 0 by lia. replace (53 - d) with 0 by lia.
      split; [reflexivity |]. change (2 ^ 0) with 1. lia.
    - exists (Pos.iter xO p k). split; [reflexivity |].
      rewrite iter_xO_value. f_equal. f_equal. lia. }
  destruct Hmz as (mz & -> & Hmz).
  assert (Hnorm : 2 ^ 52 <= Z.pos mz < 2 ^ 53).
  { assert (E52 : 2 ^ 52 = 2 ^ (d - 1) * 2 ^ (53 - d))
      by (rewrite <- Z.pow_add_r by lia; f_equal; lia).
    assert (E53 : 2 ^ 53 = 2 ^ d * 2 ^ (53 - d))
      by (rewrite <- Z.pow_add_r by lia; f_equal; lia).
    rewrite Hmz, E52, E53. pose proof (pow2_pos (53 - d) ltac:(lia)).
    split; [apply Z.mul_le_mono_nonneg_r; lia | apply Z.mul_lt_mono_pos_r; lia]. }
  assert (Hdz : Zdigits2 (Z.pos mz) = 53) by (cbn [Zdigits2]; now apply digits2_pos_unique).
  destruct (binary_round_aux_spec s (Z.pos mz) (d - 53) loc_Exact (Z.pos mz) 1
              ltac:(lia) ltac:(lia) ltac:(lia) (exact_located _)
              ltac:(lia) ltac:(lia) ltac:(lia))
    as (m & e & k & Hr & Hm & Hk & He & HM & Hq).
  exists m, e. split; [exact Hr |]. split; [exact Hm |].
  assert (Hv : (inject_Z (Z.pos mz) / inject_Z 1 * 2 ^ (d - 53) == inject_Z (Z.pos p))%Q).
  { rewrite Hmz, inject_Z_mult, <- (Qpow2_inject (53 - d)) by lia.
    change (inject_Z 1) with 1%Q.
    assert (E : (2 ^ (53 - d) * 2 ^ (d - 53) == 1)%Q).
    { rewrite <- Qpower_plus by apply Qpow2_nonzero. replace (53 - d + (d - 53)) with 0 by lia.
      reflexivity. }
    transitivity (inject_Z (Z.pos p) * (2 ^ (53 - d) * 2 ^ (d - 53)))%Q; [field |].
    rewrite E. ring. }
  destruct (rounded_value m e k (Zdigits2 (Z.pos mz) - 53) (d - 53) (Z.pos mz) 1)
    as [_ Hex]; try lia; try assumption.
  assert (Hmag : (mag m e == inject_Z (Z.pos p))%Q).
  { rewrite <- Hv. apply (Hex (Z.pos p)); [lia | exact Hv]. }
  split; [| exact Hmag].
  rewrite Hdz in He. lia.
Qed.

Lemma of_int_value (z : Z) :
  z <> 0 -> Z.abs z < 2 ^ 53 ->
  exists (m : positive) (e : Z),
    Prim2SF (PyFloat64.of_int z) = S754_finite (z <? 0) m e
    /\ 2 ^ 52 <= Z.pos m < 2 ^ 53 /\ -52 <= e <= 1
    /\ (mag m e == inject_Z (Z.abs z))%Q.
Proof.
  intros Hz Hb. unfold PyFloat64.of_int.
  destruct z as [| p | p]; [contradiction | |]; cbn [binary_normalize Z.abs Z.ltb Z.compare].
  - destruct (binary_round_value false p Hb) as (m & e & -> & Hm & He & Hv).
    exists m, e. rewrite Prim2SF_SF2Prim by (apply normal_valid; [assumption | lia]).
    split; [reflexivity |]. split; [exact Hm |]. split; [lia | exact Hv].
  - destruct (binary_round_value true p Hb) as (m & e & -> & Hm & He & Hv).
    exists m, e. rewrite Prim2SF_SF2Prim by (apply normal_valid; [assumption | lia]).
    split; [reflexivity |]. split; [exact Hm |]. split; [lia | exact Hv].
Qed.

Lemma mul_value (x y : float) (s1 s2 : bool) (m1 m2 : positive) (e1 e2 : Z) :
  Prim2SF x = S754_finite s1 m1 e1 -> Prim2SF y = S754_finite s2 m2 e2 ->
  2 ^ 52 <= Z.pos m1 < 2 ^ 53 -> 2 ^ 52 <= Z.pos m2 < 2 ^ 53 ->
  -400 <= e1 <= 400 -> -400 <= e2 <= 400 ->
  exists (m : positive) (e : Z),
    Prim2SF (x * y) = S754_finite (xorb s1 s2) m e
    /\ 2 ^ 52 <= Z.pos m < 2 ^ 53
    /\ e1 + e2 + 52 <= e <= e1 + e2 + 54
    /\ rounded (mag m1 e1 * mag m2 e2) m e.
Proof.
  intros Hx Hy Hm1 Hm2 He1 He2. rewrite mul_spec, Hx, Hy. now apply SFmul_value.
Qed.

Lemma div_value (x y : float) (s1 s2 : bool) (m1 m2 : positive) (e1 e2 : Z) :
  Prim2SF x = S754_finite s1 m1 e1 -> Prim2SF y = S754_finite s2 m2 e2 ->
  2 ^ 52 <= Z.pos m1 < 2 ^ 53 -> 2 ^ 52 <= Z.pos m2 < 2 ^ 53 ->
  -400 <= e1 <= 400 -> -400 <= e2 <= 400 ->
  exists (m : positive) (e : Z),
    Prim2SF (x / y) = S754_finite (xorb s1 s2) m e
    /\ 2 ^ 52 <= Z.pos m < 2 ^ 53
    /\ e1 - e2 - 53 <= e <= e1 - e2 - 51
    /\ rounded (mag m1 e1 / mag m2 e2) m e.
Proof.
  intros Hx Hy Hm1 Hm2 He1 He2. rewrite div_spec, Hx, Hy.
  pose proof (digits2_pos_unique m1 53 Hm1) as Hd1.
  pose proof (digits2_pos_unique m2 53 Hm2) as Hd2.
  destruct (SFdiv_value s1 s2 m1 m2 e1 e2) as (m & e & Hr & Hm & He & Hv); try lia.
  exists m, e. split; [exact Hr |]. split; [exact Hm |]. split; [lia | exact Hv].
Qed.

Lemma inject_Z_pos (z : Z) : 0 < z -> (0 < inject_Z z)%Q.
Proof. intros H. change 0%Q with (inject_Z 0). now rewrite <- Zlt_Qlt. Qed.

Lemma mag_scaled (m : positive) (e : Z) :
  e <= 0 -> (mag m e * inject_Z (2 ^ (- e)) == inject_Z (Z.pos m))%Q.
Proof.
  intros He. unfold mag. rewrite <- (Qpow2_inject (- e)) by lia.
  rewrite <- Qmult_assoc, <- Qpower_plus by apply Qpow2_nonzero.
  replace (e + - e) with 0 by lia. change (2 ^ 0)%Q with 1%Q. ring.
Qed.

Lemma mag_large (m : positive) (e : Z) :
  2 ^ 52 <= Z.pos m -> 0 <= e -> (4503599627370496 <= mag m e)%Q.
Proof.
  intros Hm He. unfold mag.
  apply Qle_trans with (inject_Z (Z.pos m) * 1)%Q.
  - rewrite Qmult_1_r. change 4503599627370496%Q with (inject_Z (2 ^ 52)).
    now rewrite <- Zle_Qle.
  - apply Qmult_le_l; [apply inject_Z_pos; lia | now apply Qpow2_ge_1].
Qed.

(** A float within [eps] of [c / 100] is [c] hundredths when scaled, so
    [round(x, 2)] returns [c / 100] rounded once. *)
Lemma scale2_value (m : positive) (e c : Z) :
  2 ^ 52 <= Z.pos m -> 0 < c < 2 ^ 45 -> rounded (inject_Z c / 100) m e ->
  PyFloat64.scale2 m e = c.
Proof.
  intros Hm Hc [[Hlo Hhi] _].
  change (2 ^ 45) with 35184372088832 in Hc.
  assert (Hc1 : (0 < inject_Z c)%Q) by (apply inject_Z_pos; lia).
  assert (Hc2 : (inject_Z c < 35184372088832)%Q)
    by (change 35184372088832%Q with (inject_Z 35184372088832); rewrite <- Zlt_Qlt; lia).
  set (ic := inject_Z c) in *. set (mu := mag m e) in *.
  assert (Hdiv : (ic / 100 * 100 == ic)%Q) by (field; discriminate).
  set (v := (ic / 100)%Q) in *. unfold eps in Hlo, Hhi.
  assert (He : e < 0).
  { destruct (Z_lt_le_dec e 0) as [| Hge]; [assumption | exfalso].
    pose proof (mag_large m e Hm Hge) as Hbig. fold mu in Hbig. lra. }
  unfold PyFloat64.scale2. rewrite (proj2 (Z.leb_gt 0 e)) by lia.
  set (D := 2 ^ (- e)).
  assert (HD : 0 < D) by (apply pow2_pos; lia).
  pose proof (mag_scaled m e ltac:(lia)) as Hs. fold D mu in Hs.
  pose proof (inject_Z_pos D HD) as HD'.
  set (dl := inject_Z D) in *. set (im := inject_Z (Z.pos m)) in *.
  assert (H1 : ((100 * mu - ic) * dl < (1 # 256) * dl)%Q)
    by (apply Qmult_lt_compat_r; [assumption | lra]).
  assert (H2 : ((ic - 100 * mu) * dl < (1 # 256) * dl)%Q)
    by (apply Qmult_lt_compat_r; [assumption | lra]).
  assert (H3 : 256 * (100 * Z.pos m + - (c * D)) < D).
  { rewrite Zlt_Qlt, !inject_Z_mult, inject_Z_plus, inject_Z_opp, !inject_Z_mult.
    fold im ic dl. change (inject_Z 256) with 256%Q. change (inject_Z 100) with 100%Q.
    rewrite <- Hs. lra. }
  assert (H4 : 256 * (c * D + - (100 * Z.pos m)) < D).
  { rewrite Zlt_Qlt, !inject_Z_mult, inject_Z_plus, inject_Z_opp, !inject_Z_mult.
    fold im ic dl. change (inject_Z 256) with 256%Q. change (inject_Z 100) with 100%Q.
    rewrite <- Hs. lra. }
  apply div_half_even_unique; lia.
Qed.

Lemma round2_value (x : float) (s : bool) (m : positive) (e c : Z) :
  Prim2SF x = S754_finite s m e -> 2 ^ 52 <= Z.pos m ->
  0 < c < 2 ^ 45 -> rounded (inject_Z c / 100) m e ->
  exists (m' : positive) (e' : Z),
    Prim2SF (PyFloat64.round2 x) = S754_finite s m' e'
    /\ 2 ^ 52 <= Z.pos m' < 2 ^ 53 /\ -60 <= e' <= 0
    /\ rounded (inject_Z c / 100) m' e'.
Proof.
  intros Hx Hm Hc Hv. unfold PyFloat64.round2. rewrite Hx, (scale2_value m e c Hm Hc Hv).
  destruct c as [| n |]; try lia.
  assert (Hd : 0 < Z.pos (digits2_pos n) <= 45).
  { apply digits2_pos_range; [lia | lia |]. change (2 ^ 0) with 1. lia. }
  destruct (SFdiv_value s false n 100 0 0) as (m' & e' & Hr & Hm' & He' & Hv');
    try (change (Z.pos (digits2_pos 100)) with 7); try lia.
  change (Z.pos (digits2_pos 100)) with 7 in He'.
  rewrite xorb_false_r in Hr. rewrite Hr.
  exists m', e'.
  rewrite Prim2SF_SF2Prim by (apply normal_valid; [assumption | lia]).
  split; [reflexivity |]. split; [exact Hm' |]. split; [lia |].
  apply (rounded_ext (mag n 0 / mag 100 0)); [| exact Hv'].
  unfold mag. change (2 ^ 0)%Q with 1%Q. change (inject_Z 100) with 100%Q. field.
Qed.

(** The float [vat_amount] computes is [121 a / 100] rounded once. *)
Lemma grossed_value (a : Z) :
  a <> 0 -> Z.abs a < 2 ^ 32 ->
  exists (m : positive) (e : Z),
    Prim2SF (RoundTrip.grossed a) = S754_finite (a <? 0) m e
    /\ 2 ^ 52 <= Z.pos m < 2 ^ 53 /\ -60 <= e <= 0
    /\ rounded (inject_Z (121 * Z.abs a) / 100) m e.
Proof.
  intros Ha Hb. unfold RoundTrip.grossed.
  change (2 ^ 32) with 4294967296 in Hb.
  destruct (of_int_value a Ha) as (ma & ea & Hpa & Hma & Hea & Hva);
    [change (2 ^ 53) with 9007199254740992; lia |].
  assert (H121 : Prim2SF (1.0 * PyFloat64.of_int (100 + VAT_RATE))
                 = S754_finite false 8514618045497344 (-46)) by (vm_compute; reflexivity).
  assert (H100 : Prim2SF (PyFloat64.of_int 100)
                 = S754_finite false 7036874417766400 (-46)) by (vm_compute; reflexivity).
  destruct (mul_value _ _ _ _ _ _ _ _ H121 Hpa) as (mp & ep & Hpp & Hmp & Hep & Hvp);
    try assumption; try (change (2 ^ 52) with 4503599627370496;
                         change (2 ^ 53) with 9007199254740992; lia).
  cbn [xorb] in Hpp.
  assert (Hprod : (mag 8514618045497344 (-46) * mag ma ea == inject_Z (121 * Z.abs a))%Q).
  { rewrite Hva, inject_Z_mult. apply Qmult_comp; [| reflexivity]. vm_compute. reflexivity. }
  apply (rounded_ext _ _ _ _ Hprod) in Hvp.
  assert (Hvp' : (mag mp ep == inject_Z (121 * Z.abs a))%Q).
  { destruct Hvp as [_ Hex]. apply (Hex (121 * Z.abs a)); [| reflexivity].
    change (2 ^ 53) with 9007199254740992; lia. }
  destruct (div_value _ _ _ _ _ _ _ _ Hpp H100) as (mx & ex & Hpx & Hmx & Hex & Hvx);
    try assumption; try (change (2 ^ 52) with 4503599627370496;
                         change (2 ^ 53) with 9007199254740992; lia).
  rewrite xorb_false_r in Hpx.
  assert (Hquot : (mag mp ep / mag 7036874417766400 (-46) == inject_Z (121 * Z.abs a) / 100)%Q).
  { rewrite Hvp'. apply Qmult_comp; [reflexivity |]. vm_compute. reflexivity. }
  apply (rounded_ext _ _ _ _ Hquot) in Hvx.
  apply (round2_value _ _ mx ex (121 * Z.abs a) Hpx); [lia | | exact Hvx].
  change (2 ^ 45) with 35184372088832. lia.
Qed.

(** The expression of [amount_without_vat] rounds twice: the product by
    100 and the quotient by 121. *)
Lemma degrossed_value (g : float) (s : bool) (m : positive) (e : Z) :
  Prim2SF g = S754_finite s m e -> 2 ^ 52 <= Z.pos m < 2 ^ 53 -> -100 <= e <= 100 ->
  exists (mh : positive) (eh : Z) (m' : positive) (e' : Z),
    Prim2SF (RoundTrip.degrossed g) = S754_finite s m' e'
    /\ rounded (100 * mag m e) mh eh
    /\ rounded (mag mh eh / 121) m' e'.
Proof.
  intros Hg Hm He. unfold RoundTrip.degrossed.
  assert (H100 : Prim2SF 100 = S754_finite false 7036874417766400 (-46))
    by (vm_compute; reflexivity).
  assert (H121 : Prim2SF (PyFloat64.of_int (100 + VAT_RATE))
                 = S754_finite false 8514618045497344 (-46)) by (vm_compute; reflexivity).
  destruct (mul_value _ _ _ _ _ _ _ _ H100 Hg) as (mh & eh & Hph & Hmh & Heh & Hvh);
    try assumption; try (change (2 ^ 52) with 4503599627370496;
                         change (2 ^ 53) with 9007199254740992; lia).
  cbn [xorb] in Hph.
  destruct (div_value _ _ _ _ _ _ _ _ Hph H121) as (m' & e' & Hp' & Hm' & He' & Hv');
    try assumption; try (change (2 ^ 52) with 4503599627370496;
                         change (2 ^ 53) with 9007199254740992; lia).
  rewrite xorb_false_r in Hp'.
  exists mh, eh, m', e'. split; [exact Hp' |]. split.
  - apply (rounded_ext (mag 7036874417766400 (-46) * mag m e)); [| exact Hvh].
    apply Qmult_comp; [| reflexivity]. vm_compute. reflexivity.
  - apply (rounded_ext (mag mh eh / mag 8514618045497344 (-46))); [| exact Hv'].
    apply Qmult_comp; [reflexivity |]. vm_compute. reflexivity.
Qed.

Lemma value_finite (x : float) (s : bool) (m : positive) (e : Z) :
  Prim2SF x = S754_finite s m e ->
  value x = Some (if s then - mag m e else mag m e)%Q.
Proof. intros H. unfold value. now rewrite H. Qed.

Lemma signed_abs (z : Z) :
  (inject_Z z == if z <? 0 then - inject_Z (Z.abs z) else inject_Z (Z.abs z))%Q.
Proof.
  destruct (Z.ltb_spec z 0).
  - rewrite <- inject_Z_opp. apply inject_Z_injective. lia.
  - apply inject_Z_injective. lia.
Qed.

Lemma Qabs_inject_Z (z : Z) : Qabs (inject_Z z) = inject_Z (Z.abs z).
Proof. reflexivity. Qed.

(** Bounds on a magnitude carry over to the signed values. *)
Lemma signed_close (s : bool) (x v t : Q) :
  (0 <= t)%Q -> (v - t <= x)%Q -> (x <= v + t)%Q ->
  (Qabs ((if s then - x else x) - (if s then - v else v)) <= t)%Q.
Proof.
  intros Ht H1 H2. apply Qabs_Qle_condition. destruct s; split; lra.
Qed.

(** The three results with their signs. *)
Lemma grossed_close (a : Z) :
  Z.abs a < 2 ^ 32 ->
  exists G : Q,
    value (RoundTrip.grossed a) = Some G
    /\ (Qabs (G - (121 # 100) * inject_Z a) <= eps * ((121 # 100) * Qabs (inject_Z a)))%Q.
Proof.
  intros Hb. destruct (Z.eq_dec a 0) as [-> | Ha].
  - exists 0%Q. split; [vm_compute; reflexivity |]. vm_compute. discriminate.
  - destruct (grossed_value a Ha Hb) as (m & e & Hp & Hm & He & [[Hlo Hhi] _]).
    exists (if a <? 0 then - mag m e else mag m e)%Q.
    split; [now apply value_finite |].
    rewrite Qabs_inject_Z, (signed_abs a).
    rewrite inject_Z_mult in Hlo, Hhi. change (inject_Z 121) with 121%Q in *.
    assert (H0 : (0 <= inject_Z (Z.abs a))%Q)
      by (change 0%Q with (inject_Z 0); rewrite <- Zle_Qle; lia).
    set (al := inject_Z (Z.abs a)) in *. unfold eps in *.
    assert (E : ((121 # 100) * (if a <? 0 then - al else al)
                 == if a <? 0 then - ((121 # 100) * al) else (121 # 100) * al)%Q)
      by (destruct (a <? 0); ring).
    rewrite E. unfold Qdiv in Hlo, Hhi. change (/ 100)%Q with (1 # 100)%Q in Hlo, Hhi.
    apply signed_close; lra.
Qed.

Lemma degrossed_close (b : Z) :
  Z.abs b < 2 ^ 32 ->
  exists N : Q,
    value (RoundTrip.degrossed (PyFloat64.of_int b)) = Some N
    /\ (Qabs (N - (100 # 121) * inject_Z b) <= eps * ((100 # 121) * Qabs (inject_Z b)))%Q
    /\ forall K : Z, 100 * b = 121 * K -> (N == inject_Z K)%Q.
Proof.
  intros Hb. change (2 ^ 32) with 4294967296 in Hb.
  destruct (Z.eq_dec b 0) as [-> | Hb0].
  - exists 0%Q. split; [vm_compute; reflexivity |]. split; [vm_compute; discriminate |].
    intros K HK. assert (K = 0) as -> by lia. reflexivity.
  - destruct (of_int_value b Hb0) as (mb & eb & Hpb & Hmb & Heb & Hvb);
      [change (2 ^ 53) with 9007199254740992; lia |].
    destruct (degrossed_value _ _ _ _ Hpb Hmb ltac:(lia))
      as (mh & eh & m & e & Hp & Hvh & Hv).
    assert (Hh : (mag mh eh == inject_Z (100 * Z.abs b))%Q).
    { assert (E : (100 * mag mb eb == inject_Z (100 * Z.abs b))%Q)
        by (rewrite Hvb, inject_Z_mult; reflexivity).
      apply (rounded_ext _ _ _ _ E) in Hvh. destruct Hvh as [_ Hex].
      apply (Hex (100 * Z.abs b)); [| reflexivity].
      change (2 ^ 53) with 9007199254740992. lia. }
    assert (E : (mag mh eh / 121 == inject_Z (100 * Z.abs b) / 121)%Q) by now rewrite Hh.
    apply (rounded_ext _ _ _ _ E) in Hv. destruct Hv as [[Hlo Hhi] Hex].
    exists (if b <? 0 then - mag m e else mag m e)%Q.
    split; [now apply value_finite |]. split.
    + rewrite Qabs_inject_Z, (signed_abs b).
      rewrite inject_Z_mult in Hlo, Hhi. change (inject_Z 100) with 100%Q in *.
      assert (H0 : (0 <= inject_Z (Z.abs b))%Q)
        by (change 0%Q with (inject_Z 0); rewrite <- Zle_Qle; lia).
      set (bl := inject_Z (Z.abs b)) in *. unfold eps in *.
      assert (E' : ((100 # 121) * (if b <? 0 then - bl else bl)
                    == if b <? 0 then - ((100 # 121) * bl) else (100 # 121) * bl)%Q)
        by (destruct (b <? 0); ring).
      rewrite E'. unfold Qdiv in Hlo, Hhi. change (/ 121)%Q with (1 # 121)%Q in Hlo, Hhi.
      apply signed_close; lra.
    + intros K HK.
      assert (HK' : 100 * Z.abs b = 121 * Z.abs K) by lia.
      assert (Hm : (mag m e == inject_Z (Z.abs K))%Q).
      { assert (Ev : (inject_Z (100 * Z.abs b) / 121 == inject_Z (Z.abs K))%Q).
        { rewrite HK', inject_Z_mult. change (inject_Z 121) with 121%Q. field. }
        rewrite <- Ev. apply (Hex (Z.abs K)); [| exact Ev].
        change (2 ^ 53) with 9007199254740992. lia. }
      rewrite (signed_abs K). replace (K <? 0) with (b <? 0).
      * destruct (b <? 0); now rewrite Hm.
      * destruct (Z.ltb_spec b 0), (Z.ltb_spec K 0); try reflexivity; lia.
Qed.

Lemma round_trip_close (a : Z) :
  Z.abs a < 2 ^ 32 ->
  exists R : Q,
    value (RoundTrip.degrossed (RoundTrip.grossed a)) = Some R
    /\ (Qabs (R - inject_Z a) <= (1 # 2251799813685248) * Qabs (inject_Z a))%Q.
Proof.
  intros Hb. destruct (Z.eq_dec a 0) as [-> | Ha].
  - exists 0%Q. split; [vm_compute; reflexivity |]. vm_compute. discriminate.
  - destruct (grossed_value a Ha Hb) as (mg & eg & Hpg & Hmg & Heg & [[Hlo1 Hhi1] _]).
    destruct (degrossed_value _ _ _ _ Hpg Hmg ltac:(lia))
      as (mh & eh & m & e & Hp & [[Hlo2 Hhi2] _] & [[Hlo3 Hhi3] _]).
    exists (if a <? 0 then - mag m e else mag m e)%Q.
    split; [now apply value_finite |].
    rewrite Qabs_inject_Z, (signed_abs a).
    rewrite inject_Z_mult in Hlo1, Hhi1. change (inject_Z 121) with 121%Q in *.
    assert (H0 : (0 <= inject_Z (Z.abs a))%Q)
      by (change 0%Q with (inject_Z 0); rewrite <- Zle_Qle; lia).
    set (al := inject_Z (Z.abs a)) in *. unfold eps in *.
    unfold Qdiv in *. change (/ 100)%Q with (1 # 100)%Q in *.
    change (/ 121)%Q with (1 # 121)%Q in *.
    set (x1 := mag mg eg) in *. set (x2 := mag mh eh) in *. set (x3 := mag m e) in *.
    apply signed_close; lra.
Qed.

(** *** The two expressions of [Payment] *)

Lemma vat_rate_needed (c : Customer) : needs_vat c = true -> vat_rate c = VAT_RATE.
Proof. intros H. unfold vat_rate. now rewrite H. Qed.

Lemma vat_amount_grossed (p : Payment) :
  needs_vat (customer p) = true -> amount_fixed p = false ->
  vat_amount p = PyFloat (RoundTrip.grossed (amount p)).
Proof.
  intros Hn Hf. unfold vat_amount, RoundTrip.grossed.
  now rewrite Hn, Hf, (vat_rate_needed _ Hn).
Qed.

Lemma amount_without_vat_degrossed (p : Payment) :
  needs_vat (customer p) = true -> amount_fixed p = true ->
  amount_without_vat p = PyFloat (RoundTrip.degrossed (PyFloat64.of_int (amount p))).
Proof.
  intros Hn Hf. unfold amount_without_vat, RoundTrip.degrossed.
  now rewrite Hn, Hf, (vat_rate_needed _ Hn).
Qed.

Lemma gross_flat_rate (a : Z) :
  (RoundTrip.gross VAT_RATE a == (121 # 100) * inject_Z a)%Q.
Proof.
  unfold RoundTrip.gross, VAT_RATE. change (100 + 21) with 121.
  rewrite inject_Z_mult. change (inject_Z 121) with 121%Q. field.
Qed.

Lemma net_flat_rate (b : Z) :
  (RoundTrip.net VAT_RATE b == (100 # 121) * inject_Z b)%Q.
Proof.
  unfold RoundTrip.net, VAT_RATE. change (100 + 21) with 121.
  rewrite inject_Z_mult. change (inject_Z 121) with 121%Q. change (inject_Z 100) with 100%Q.
  field.
Qed.

Lemma integer_field_abs (z : Z) : integer_field z -> Z.abs z < 2 ^ 32.
Proof. unfold integer_field. change (2 ^ 32) with 4294967296. lia. Qed.

Lemma integer_field_Qabs (z : Z) :
  integer_field z -> (0 <= Qabs (inject_Z z) <= 2147483648)%Q.
Proof.
  unfold integer_field. intros H. rewrite Qabs_inject_Z.
  change 0%Q with (inject_Z 0). change 2147483648%Q with (inject_Z 2147483648).
  rewrite <- !Zle_Qle. lia.
Qed.

(** A gross amount entered to the nearest whole unit gives back the
    original amount to less than half a unit. *)
Lemma nearest_unit_recovers (a b : Z) (G N : Q) :
  integer_field a -> integer_field b ->
  (Qabs (G - (121 # 100) * inject_Z a) <= eps * ((121 # 100) * Qabs (inject_Z a)))%Q ->
  (Qabs (N - (100 # 121) * inject_Z b) <= eps * ((100 # 121) * Qabs (inject_Z b)))%Q ->
  (Qabs (inject_Z b - G) <= 1 # 2)%Q ->
  (Qabs (N - inject_Z a) < 1 # 2)%Q.
Proof.
  intros Ha Hb HG HN Hbg.
  pose proof (integer_field_Qabs a Ha) as [Ha0 Ha1].
  pose proof (integer_field_Qabs b Hb) as [Hb0 Hb1].
  apply Qabs_Qle_condition in HG, HN, Hbg. apply Qabs_Qlt_condition.
  unfold eps in *. set (x := Qabs (inject_Z a)) in *. set (y := Qabs (inject_Z b)) in *.
  split; lra.
Qed.

(** A whole gross amount is [121 a / 100] itself. *)
Lemma whole_gross (a b : Z) (G : Q) :
  integer_field a ->
  (Qabs (G - (121 # 100) * inject_Z a) <= eps * ((121 # 100) * Qabs (inject_Z a)))%Q ->
  (inject_Z b == G)%Q ->
  100 * b = 121 * a.
Proof.
  intros Ha HG Hb. rewrite <- Hb in HG.
  pose proof (integer_field_Qabs a Ha) as [Ha0 Ha1].
  apply Qabs_Qle_condition in HG. unfold eps in HG.
  set (x := Qabs (inject_Z a)) in *.
  assert (H1 : 100 * b + - (121 * a) < 1).
  { rewrite Zlt_Qlt, inject_Z_plus, inject_Z_opp, !inject_Z_mult.
    change (inject_Z 100) with 100%Q. change (inject_Z 121) with 121%Q.
    change (inject_Z 1) with 1%Q. lra. }
  assert (H2 : 121 * a + - (100 * b) < 1).
  { rewrite Zlt_Qlt, inject_Z_plus, inject_Z_opp, !inject_Z_mult.
    change (inject_Z 100) with 100%Q. change (inject_Z 121) with 121%Q.
    change (inject_Z 1) with 1%Q. lra. }
  lia.
Qed.

End VatFacts.

(** C6: with VAT at 21, [vat_amount] of 100 is 121.0 and
    [amount_without_vat] of a fixed 121 is 100.0. More generally, for
    every amount an [IntegerField] holds and every customer who needs VAT:
    [vat_amount] is the grossed amount and [amount_without_vat] the
    degrossed amount, each rounded once to binary64; degrossing the float
    that [vat_amount] returns recovers the amount to a relative error of
    [2^-51]; degrossing the gross amount entered to the nearest whole unit
    recovers the amount to less than half a unit; and degrossing a gross
    amount that is whole recovers the amount exactly. *)
Theorem vat_round_trip :
  PaymentModel.vat_amount (donation 100 false) = PyFloat 121%float
  /\ PaymentModel.amount_without_vat (donation 121 true) = PyFloat 100%float
  /\ (forall p q : Payment,
        customer q = customer p ->
        CustomerModel.needs_vat (customer p) = true ->
        amount_fixed p = false -> amount_fixed q = true ->
        integer_field (amount p) -> integer_field (amount q) ->
        exists (g n : float) (G N R : Q),
          PaymentModel.vat_amount p = PyFloat g
          /\ PaymentModel.amount_without_vat q = PyFloat n
          /\ n = RoundTrip.degrossed (PyFloat64.of_int (amount q))
          /\ Binary64.value g = Some G
          /\ Binary64.value n = Some N
          /\ Binary64.value (RoundTrip.degrossed g) = Some R
          /\ (Qabs (G - RoundTrip.gross (CustomerModel.vat_rate (customer p)) (amount p))
              <= Binary64.eps
                 * Qabs (RoundTrip.gross (CustomerModel.vat_rate (customer p)) (amount p)))%Q
          /\ (Qabs (N - RoundTrip.net (CustomerModel.vat_rate (customer q)) (amount q))
              <= Binary64.eps
                 * Qabs (RoundTrip.net (CustomerModel.vat_rate (customer q)) (amount q)))%Q
          /\ (Qabs (R - inject_Z (amount p))
              <= 4 * Binary64.eps * Qabs (inject_Z (amount p)))%Q
          /\ ((Qabs (inject_Z (amount q) - G) <= 1 # 2)%Q ->
              (Qabs (N - inject_Z (amount p)) < 1 # 2)%Q)
          /\ ((inject_Z (amount q) == G)%Q -> (N == inject_Z (amount p))%Q)).
Proof.
  split; [reflexivity |]. split; [reflexivity |].
  intros p q Hc Hn Hp Hq Ha Hb.
  assert (Hnq : CustomerModel.needs_vat (customer q) = true) by now rewrite Hc.
  destruct (grossed_close (amount p) (integer_field_abs _ Ha)) as (G & HG & HGc).
  destruct (degrossed_close (amount q) (integer_field_abs _ Hb)) as (N & HN & HNc & HNe).
  destruct (round_trip_close (amount p) (integer_field_abs _ Ha)) as (R & HR & HRc).
  exists (RoundTrip.grossed (amount p)), (RoundTrip.degrossed (PyFloat64.of_int (amount q))),
    G, N, R.
  split; [now apply vat_amount_grossed |].
  split; [now apply amount_without_vat_degrossed |].
  split; [reflexivity |]. split; [exact HG |]. split; [exact HN |]. split; [exact HR |].
  rewrite (vat_rate_needed _ Hn), (vat_rate_needed _ Hnq).
  split.
  { rewrite gross_flat_rate, Qabs_Qmult. exact HGc. }
  split.
  { rewrite net_flat_rate, Qabs_Qmult. exact HNc. }
  split.
  { eapply Qle_trans; [exact HRc |]. apply Qmult_le_compat_r; [| apply Qabs_nonneg].
    unfold Binary64.eps. discriminate. }
  split.
  - now apply (nearest_unit_recovers (amount p) (amount q) G N).
  - intros Hw. apply HNe. now apply (whole_gross (amount p) (amount q) G).
Qed.

Lemma vat_round_trip_witness :
  exists (g n : float) (G N R : Q),
    PaymentModel.vat_amount (donation 6666 false) = PyFloat g
    /\ PaymentModel.amount_without_vat (donation 8066 true) = PyFloat n
    /\ n = RoundTrip.degrossed (PyFloat64.of_int 8066)
    /\ Binary64.value g = Some G
    /\ Binary64.value n = Some N
    /\ Binary64.value (RoundTrip.degrossed g) = Some R
    /\ (Qabs (G - RoundTrip.gross 21 6666) <= Binary64.eps * Qabs (RoundTrip.gross 21 6666))%Q
    /\ (Qabs (N - RoundTrip.net 21 8066) <= Binary64.eps * Qabs (RoundTrip.net 21 8066))%Q
    /\ (Qabs (R - 6666) <= 4 * Binary64.eps * Qabs 6666)%Q
    /\ ((Qabs (8066 - G) <= 1 # 2)%Q -> (Qabs (N - 6666) < 1 # 2)%Q)
    /\ ((8066 == G)%Q -> (N == 6666)%Q).
Proof.
  apply (proj2 (proj2 vat_round_trip) (donation 6666 false) (donation 8066 true));
    try reflexivity; unfold integer_field; simpl; lia.
Defined.

(** ** Backend: initiate *)

Section InitiateFacts.
Variables (cls : BackendClass) (request : Request) (back_url complete_url : string).

Lemma initiate_not_new (self : Backend) :
  state (payment self) <> NEW ->
  initiate cls request back_url complete_url self = (self, Raise InvalidState).
Proof.
  intros H. unfold initiate, bind, get, raise.
  now rewrite bool_decide_false.
Qed.

Lemma initiate_not_recurring (self : Backend) :
  is_Some (repeat (payment self)) -> cls_recurring cls = false ->
  initiate cls request back_url complete_url self = (self, Raise InvalidState).
Proof.
  intros H Hr. unfold initiate, bind, get, raise.
  destruct (negb (bool_decide (state (payment self) = NEW))); [reflexivity |].
  now rewrite bool_decide_true, Hr.
Qed.

Lemma initiate_performed (self self1 : Backend) (result : option Response) :
  state (payment self) = NEW ->
  repeat (payment self) = None \/ cls_recurring cls = true ->
  perform cls request back_url complete_url self = (self1, Return result) ->
  initiate cls request back_url complete_url self = (initiated cls self1, Return result).
Proof.
  intros Hs Hr Hp. unfold initiate, bind, get.
  rewrite bool_decide_true by assumption. cbn [negb].
  replace (bool_decide (is_Some (repeat (payment self))) && negb (cls_recurring cls))
    with false.
  - now rewrite Hp.
  - destruct Hr as [Hr | Hr]; rewrite Hr; [| now rewrite andb_false_r].
    rewrite bool_decide_false; [reflexivity | now apply is_Some_None].
Qed.

Lemma initiate_perform_raises (self self1 : Backend) (e : exn) :
  state (payment self) = NEW ->
  repeat (payment self) = None \/ cls_recurring cls = true ->
  perform cls request back_url complete_url self = (self1, Raise e) ->
  initiate cls request back_url complete_url self = (self1, Raise e).
Proof.
  intros Hs Hr Hp. unfold initiate, bind, get.
  rewrite bool_decide_true by assumption. cbn [negb].
  replace (bool_decide (is_Some (repeat (payment self))) && negb (cls_recurring cls))
    with false.
  - now rewrite Hp.
  - destruct Hr as [Hr | Hr]; rewrite Hr; [| now rewrite andb_false_r].
    rewrite bool_decide_false; [reflexivity | now apply is_Some_None].
Qed.

End InitiateFacts.

(** C2: [initiate] raises InvalidState, leaving the instance (payment and
    world) as it was, when the state is not NEW and when [repeat] is set
    on a backend that is not recurring; when the preconditions hold and
    [perform] returns, the call returns what [perform] returned and the
    state is PENDING, whatever [perform] did, and the row is saved. *)
Theorem initiate_guards (cls : BackendClass) (request : Request)
    (back_url complete_url : string) (self : Backend) :
  (state (payment self) <> NEW ->
     initiate cls request back_url complete_url self = (self, Raise InvalidState))
  /\ (is_Some (repeat (payment self)) -> cls_recurring cls = false ->
      initiate cls request back_url complete_url self = (self, Raise InvalidState))
  /\ (forall (self1 : Backend) (result : option Response),
        state (payment self) = NEW ->
        repeat (payment self) = None \/ cls_recurring cls = true ->
        perform cls request back_url complete_url self = (self1, Return result) ->
        exists self',
          initiate cls request back_url complete_url self = (self', Return result)
          /\ state (payment self') = PENDING
          /\ payments (world self')
             = Table.save (payment self') (payments (world self1))).
Proof.
  split; [apply initiate_not_new |]. split; [apply initiate_not_recurring |].
  intros self1 result Hs Hr Hp. exists (initiated cls self1).
  split; [now apply initiate_performed |]. split; reflexivity.
Qed.

Lemma initiate_guards_witness :
  initiate DebugPay forged_request "back" "complete"
    (instance_of (set_state PENDING (donation 100 false)))
  = (instance_of (set_state PENDING (donation 100 false)), Raise InvalidState)
  /\ initiate DebugPending forged_request "back" "complete" (instance_of renewal)
     = (instance_of renewal, Raise InvalidState)
  /\ exists self',
       initiate DebugPending forged_request "back" "complete"
         (instance_of (donation 100 false))
       = (self', Return (Some (redirect "https://cihar.com/?url=complete")))
       /\ state (payment self') = PENDING
       /\ payments (world self')
          = Table.save (payment self') (payments (world (instance_of (donation 100 false)))).
Proof.
  split; [| split].
  - apply (proj1 (initiate_guards DebugPay forged_request "back" "complete"
                    (instance_of (set_state PENDING (donation 100 false))))).
    simpl. discriminate.
  - apply (proj1 (proj2 (initiate_guards DebugPending forged_request "back" "complete"
                           (instance_of renewal)))).
    + simpl. eauto.
    + reflexivity.
  - apply (proj2 (proj2 (initiate_guards DebugPending forged_request "back" "complete"
                           (instance_of (donation 100 false))))).
    + reflexivity.
    + left. reflexivity.
    + reflexivity.
Defined.

(** What a successful [initiate] writes: the method name goes under the
    key [backend] of [details]; the [backend] column keeps its value. *)
Lemma initiated_backend_column (cls : BackendClass) (self1 : Backend) :
  backend (payment (initiated cls self1)) = backend (payment self1)
  /\ details (payment (initiated cls self1)) !! "backend" = Some (name_value cls).
Proof. split; [reflexivity | apply lookup_insert_eq]. Qed.

(** C9: evaluated on a payment created by the donation form and paid with
    the method [pending]: [initiate] succeeds and the state is PENDING, but
    the [backend] column is still empty; the name is found under
    [details] only, and [get_backend] on the column raises KeyError. *)
Theorem initiate_leaves_backend_column :
  exists self',
    initiate DebugPending forged_request "back" "complete" (instance_of form_donation)
    = (self', Return (Some (redirect "https://cihar.com/?url=complete")))
    /\ state (payment self') = PENDING
    /\ backend (payment self') = ""
    /\ details (payment self') !! "backend" = Some (JStr "pending")
    /\ payments (world self') = [payment self']
    /\ get_backend test_env (backend (payment self')) = Raise (KeyError "").
Proof.
  eexists. split; [reflexivity |]. repeat split.
Qed.

(** ** Backend: complete *)

Section CompleteFacts.
Variables (env : Env) (cls : BackendClass) (request : Request).

Lemma complete_not_pending (self : Backend) :
  state (payment self) <> PENDING ->
  complete env cls request self = (self, Raise InvalidState).
Proof.
  intros H. unfold complete, bind, get, raise.
  now rewrite bool_decide_false.
Qed.

Lemma complete_collected (self self1 : Backend) (collected : bool) :
  state (payment self) = PENDING ->
  collect cls request self = (self1, Return collected) ->
  complete env cls request self
  = if collected then (fst (success env cls self1), Return true)
    else (fst (failure self1), Return false).
Proof.
  intros Hs Hc. unfold complete, bind, get.
  rewrite bool_decide_true by assumption. cbn [negb]. rewrite Hc.
  destruct collected.
  - unfold success, generate_invoice, save, notify_user, bind, get, update, ret.
    destruct (negb (cls_recurring cls)), (PAYMENT_FAKTURACE env); reflexivity.
  - reflexivity.
Qed.

Lemma complete_collect_raises (self self1 : Backend) (e : exn) :
  state (payment self) = PENDING ->
  collect cls request self = (self1, Raise e) ->
  complete env cls request self = (self1, Raise e).
Proof.
  intros Hs Hc. unfold complete, bind, get.
  rewrite bool_decide_true by assumption. cbn [negb]. now rewrite Hc.
Qed.

End CompleteFacts.

(** C1, as the code has it: [complete] raises InvalidState and changes
    nothing unless the state is PENDING. Otherwise it calls [collect]. On
    true the state becomes ACCEPTED, [recurring] is cleared unless the
    backend is recurring, the invoice is generated (when invoicing is
    configured), the row is saved, the success mail is sent and the result
    is true. On false the state becomes REJECTED, the row is saved, the
    failure mail is sent and the result is false; [details] stays as
    [collect] left it, and the mail carries its [reject_reason] or, when
    there is none, the text Uknown. *)
Theorem complete_outcomes (env : Env) (cls : BackendClass) (request : Request)
    (self : Backend) :
  (state (payment self) <> PENDING ->
     complete env cls request self = (self, Raise InvalidState))
  /\ (forall self1 : Backend,
        state (payment self) = PENDING ->
        collect cls request self = (self1, Return true) ->
        exists self',
          complete env cls request self = (self', Return true)
          /\ state (payment self') = ACCEPTED
          /\ recurring (payment self')
             = (if cls_recurring cls then recurring (payment self1) else "")
          /\ match PAYMENT_FAKTURACE env with
             | None =>
                 invoice_doc self' = invoice_doc self1
                 /\ fakturace (world self') = fakturace (world self1)
                 /\ invoice (payment self') = invoice (payment self1)
             | Some _ =>
                 exists inv,
                   invoice_doc self' = Some inv
                   /\ fakturace (world self') = inv :: fakturace (world self1)
                   /\ invoice (payment self') = invoiceid inv
                   /\ inv_rate inv = amount (payment self1)
                   /\ inv_vat inv = CustomerModel.vat_rate (customer (payment self1))
                   /\ inv_paid inv = details (payment self1)
             end
          /\ payments (world self')
             = Table.save (payment self') (payments (world self1))
          /\ outbox (world self') = success_mail self' :: outbox (world self1))
  /\ (forall self1 : Backend,
        state (payment self) = PENDING ->
        collect cls request self = (self1, Return false) ->
        exists self',
          complete env cls request self = (self', Return false)
          /\ state (payment self') = REJECTED
          /\ details (payment self') = details (payment self1)
          /\ recurring (payment self') = recurring (payment self1)
          /\ fakturace (world self') = fakturace (world self1)
          /\ payments (world self')
             = Table.save (payment self') (payments (world self1))
          /\ outbox (world self') = failure_mail self1 :: outbox (world self1)).
Proof.
  split; [apply complete_not_pending |]. split.
  - intros self1 Hs Hc. eexists.
    split; [exact (complete_collected env cls request self self1 true Hs Hc) |].
    unfold success, generate_invoice, save, notify_user, bind, get, update, ret.
    destruct (cls_recurring cls), (PAYMENT_FAKTURACE env); cbn;
      repeat split; eexists; repeat split.
  - intros self1 Hs Hc. eexists.
    split; [exact (complete_collected env cls request self self1 false Hs Hc) |].
    repeat split.
Qed.

Lemma complete_outcomes_witness :
  complete test_env ThePayCard (gateway_request 2) (instance_of form_donation)
  = (instance_of form_donation, Raise InvalidState)
  /\ (exists self',
        complete test_env ThePayBitcoin (gateway_request 2) (instance_of pending_card_payment)
        = (self', Return true)
        /\ state (payment self') = ACCEPTED
        /\ recurring (payment self') = "")
  /\ (exists self',
        complete test_env ThePayCard forged_request (instance_of pending_card_payment)
        = (self', Return false)
        /\ state (payment self') = REJECTED
        /\ outbox (world self') = [failure_mail (instance_of pending_card_payment)]).
Proof.
  split; [| split].
  - apply (proj1 (complete_outcomes test_env ThePayCard (gateway_request 2)
                    (instance_of form_donation))).
    simpl. discriminate.
  - destruct (proj1 (proj2 (complete_outcomes test_env ThePayBitcoin (gateway_request 2)
                              (instance_of pending_card_payment)))
                (fst (collect ThePayBitcoin (gateway_request 2)
                        (instance_of pending_card_payment)))
                eq_refl eq_refl)
      as (self' & Hc & Hs & Hr & _).
    exists self'. repeat split; assumption.
  - destruct (proj2 (proj2 (complete_outcomes test_env ThePayCard forged_request
                              (instance_of pending_card_payment)))
                (fst (collect ThePayCard forged_request (instance_of pending_card_payment)))
                eq_refl eq_refl)
      as (self' & Hc & Hs & _ & _ & _ & _ & Ho).
    exists self'. repeat split; assumption.
Defined.

(** C1 as stated fails: a card callback with a forged signature is
    rejected, and no reject reason is recorded on the payment. *)
Lemma complete_rejects_without_reason :
  state (payment (instance_of pending_card_payment)) = PENDING
  /\ snd (complete test_env ThePayCard forged_request (instance_of pending_card_payment))
     = Return false
  /\ state (payment (fst (complete test_env ThePayCard forged_request
                            (instance_of pending_card_payment)))) = REJECTED
  /\ details (payment (fst (complete test_env ThePayCard forged_request
                              (instance_of pending_card_payment)))) !! "reject_reason"
     = None.
Proof. repeat split. Qed.

(** ** The life cycle of a payment row *)

Section LifecycleOrder.
Import Lifecycle.

Lemma transition_rank s s' : transition s s' -> (rank s < rank s')%nat.
Proof. intros [? ? []|]; simpl; lia. Qed.

Lemma forward_rank s s' : forward s s' -> (rank s <= rank s')%nat.
Proof.
  induction 1 as [|s1 s2 s3 H _ IH]; [lia |].
  apply transition_rank in H. lia.
Qed.

(** Nothing that was left is reached again. *)
Lemma forward_no_return s s' : forward s s' -> forward s' s -> s = s'.
Proof.
  intros H H'. destruct H as [|s1 s2 s3 H1 H2]; [reflexivity |].
  apply transition_rank in H1. apply forward_rank in H2, H'. lia.
Qed.

Lemma performed_forward s s' : rtc performed s s' -> forward s s'.
Proof. apply rtc_subrel. intros ? ?. apply transition_performed. Qed.

Lemma settled_stays s s' : settled s -> rtc performed s s' -> s' = s.
Proof.
  intros Hs H. destruct H as [|s1 s2 s3 H1 _]; [reflexivity |].
  destruct H1, Hs as [Hs | [Hs | Hs]]; discriminate.
Qed.

Lemma row_moved_refl (R : PaymentState -> PaymentState -> Prop) o :
  (forall s, R s s) -> row_moved R o o.
Proof. intros H. destruct o; simpl; auto. Qed.

Lemma row_moved_trans (R : PaymentState -> PaymentState -> Prop) o1 o2 o3 :
  (forall s1 s2 s3, R s1 s2 -> R s2 s3 -> R s1 s3) ->
  row_moved R o1 o2 -> row_moved R o2 o3 -> row_moved R o1 o3.
Proof. intros H. destruct o1, o2, o3; simpl; eauto; tauto. Qed.

End LifecycleOrder.

Section LifecycleFacts.
Import Lifecycle.

Lemma filter_pk_cons (pk : string) (q : Payment) (rows : list Payment) :
  Table.filter_pk pk (q :: rows)
  = if decide (uuid q = pk) then q :: Table.filter_pk pk rows
    else Table.filter_pk pk rows.
Proof. unfold Table.filter_pk. rewrite filter_cons. reflexivity. Qed.

Lemma filter_pk_replace_other (p : Payment) (pk : string) (rows : list Payment) :
  uuid p <> pk ->
  Table.filter_pk pk ((fun q => if bool_decide (uuid q = uuid p) then p else q) <$> rows)
  = Table.filter_pk pk rows.
Proof.
  intros Hne. induction rows as [|q rows IH]; [reflexivity |].
  rewrite fmap_cons, !filter_pk_cons, IH.
  case_bool_decide as Hq.
  - rewrite decide_False by assumption. rewrite decide_False by congruence. reflexivity.
  - reflexivity.
Qed.

Lemma filter_pk_replace_same (p : Payment) (rows : list Payment) :
  Table.filter_pk (uuid p) rows <> [] ->
  head (Table.filter_pk (uuid p)
          ((fun q => if bool_decide (uuid q = uuid p) then p else q) <$> rows))
  = Some p.
Proof.
  induction rows as [|q rows IH]; intros H; [now contradict H |].
  rewrite fmap_cons. rewrite filter_pk_cons in H. rewrite filter_pk_cons.
  case_bool_decide as Hq.
  - rewrite decide_True by reflexivity. reflexivity.
  - rewrite decide_False in H |- * by assumption. now apply IH.
Qed.

Lemma row_state_save (p : Payment) (pk : string) (rows : list Payment) :
  row_state pk (Table.save p rows)
  = if decide (uuid p = pk) then Some (state p) else row_state pk rows.
Proof.
  unfold row_state, Table.save. case_bool_decide as He.
  - rewrite filter_pk_cons. destruct (decide (uuid p = pk)); reflexivity.
  - destruct (decide (uuid p = pk)) as [<- | Hne].
    + now rewrite filter_pk_replace_same.
    + now rewrite filter_pk_replace_other.
Qed.

Lemma new_backend_row (p : Payment) (w : World) (self : Backend) :
  new_backend p w = Return self ->
  world self = w /\ uuid (payment self) = uuid p
  /\ row_state (uuid p) (payments w) = Some (state (payment self)).
Proof.
  unfold new_backend, row_state.
  destruct (Table.filter_pk (uuid p) (payments w)) as [|row rest] eqn:E; [discriminate |].
  intros [= <-]. cbn. repeat split.
  assert (Hin : row ∈ Table.filter_pk (uuid p) (payments w)) by (rewrite E; left).
  unfold Table.filter_pk in Hin. apply list_elem_of_filter in Hin. tauto.
Qed.

Lemma success_row (env : Env) (cls : BackendClass) (self1 : Backend) :
  uuid (payment (fst (success env cls self1))) = uuid (payment self1)
  /\ state (payment (fst (success env cls self1))) = ACCEPTED
  /\ payments (world (fst (success env cls self1)))
     = Table.save (payment (fst (success env cls self1))) (payments (world self1)).
Proof.
  unfold success, generate_invoice, save, notify_user, bind, get, update, ret.
  destruct (negb (cls_recurring cls)), (PAYMENT_FAKTURACE env); repeat split.
Qed.

Lemma failure_row (self1 : Backend) :
  uuid (payment (fst (failure self1))) = uuid (payment self1)
  /\ state (payment (fst (failure self1))) = REJECTED
  /\ payments (world (fst (failure self1)))
     = Table.save (payment (fst (failure self1))) (payments (world self1)).
Proof. repeat split. Qed.

Lemma initiate_stepped (cls : BackendClass) request back_url complete_url
    (self : Backend) (pk : string) :
  well_behaved cls ->
  row_state (uuid (payment self)) (payments (world self)) = Some (state (payment self)) ->
  stepped (row_state pk (payments (world self)))
    (row_state pk
       (payments (world (fst (initiate cls request back_url complete_url self))))).
Proof.
  intros [Hwb _] Hrow.
  destruct (decide (state (payment self) = NEW)) as [Hs | Hs];
    [| rewrite initiate_not_new by assumption; now left].
  destruct (repeat (payment self)) as [parent|] eqn:Hr.
  - destruct (cls_recurring cls) eqn:Hrec;
      [| rewrite initiate_not_recurring by (rewrite ?Hr; eauto); now left].
    destruct (perform cls request back_url complete_url self) as [self1 [result|e]] eqn:Hp.
    + rewrite (initiate_performed _ _ _ _ _ self1 result) by auto.
      destruct (Hwb request back_url complete_url self) as [Hu Ht]. rewrite Hp in Hu, Ht.
      cbn in *. rewrite row_state_save, Ht. cbn. rewrite Hu.
      destruct (decide (uuid (payment self) = pk)) as [<- | Hne]; [| now left].
      right. exists NEW, PENDING. rewrite Hrow, Hs. repeat split. constructor.
    + rewrite (initiate_perform_raises _ _ _ _ _ self1 e) by auto.
      destruct (Hwb request back_url complete_url self) as [_ Ht]. rewrite Hp in Ht.
      cbn in *. rewrite Ht. now left.
  - destruct (perform cls request back_url complete_url self) as [self1 [result|e]] eqn:Hp.
    + rewrite (initiate_performed _ _ _ _ _ self1 result) by auto.
      destruct (Hwb request back_url complete_url self) as [Hu Ht]. rewrite Hp in Hu, Ht.
      cbn in *. rewrite row_state_save, Ht. cbn. rewrite Hu.
      destruct (decide (uuid (payment self) = pk)) as [<- | Hne]; [| now left].
      right. exists NEW, PENDING. rewrite Hrow, Hs. repeat split. constructor.
    + rewrite (initiate_perform_raises _ _ _ _ _ self1 e) by auto.
      destruct (Hwb request back_url complete_url self) as [_ Ht]. rewrite Hp in Ht.
      cbn in *. rewrite Ht. now left.
Qed.

Lemma complete_stepped (env : Env) (cls : BackendClass) request
    (self : Backend) (pk : string) :
  well_behaved cls ->
  row_state (uuid (payment self)) (payments (world self)) = Some (state (payment self)) ->
  stepped (row_state pk (payments (world self)))
    (row_state pk (payments (world (fst (complete env cls request self))))).
Proof.
  intros [_ Hwb] Hrow.
  destruct (decide (state (payment self) = PENDING)) as [Hs | Hs];
    [| rewrite complete_not_pending by assumption; now left].
  destruct (Hwb request self) as [Hu Ht].
  destruct (collect cls request self) as [self1 [collected|e]] eqn:Hc; cbn in Hu, Ht.
  - rewrite (complete_collected env cls request self self1 collected Hs Hc).
    destruct collected; cbn [fst].
    + destruct (success_row env cls self1) as (Hu' & Hs' & Ht').
      rewrite Ht', row_state_save, Hu', Hs', Hu, Ht.
      destruct (decide (uuid (payment self) = pk)) as [<- | Hne]; [| now left].
      right. exists PENDING, ACCEPTED. rewrite Hrow, Hs. repeat split. constructor.
    + destruct (failure_row self1) as (Hu' & Hs' & Ht').
      rewrite Ht', row_state_save, Hu', Hs', Hu, Ht.
      destruct (decide (uuid (payment self) = pk)) as [<- | Hne]; [| now left].
      right. exists PENDING, REJECTED. rewrite Hrow, Hs. repeat split. constructor.
  - rewrite (complete_collect_raises env cls request self self1 e Hs Hc).
    cbn. rewrite Ht. now left.
Qed.

End LifecycleFacts.

Section RegistryFacts.
Import Lifecycle.

(** The registry holds the five payment methods and nothing else. *)
Lemma BACKENDS_lookup (method : string) (cls : BackendClass) :
  BACKENDS !! method = Some cls ->
  cls = DebugPay \/ cls = DebugReject \/ cls = DebugPending
  \/ cls = ThePayCard \/ cls = ThePayBitcoin.
Proof.
  unfold BACKENDS, register_backend. cbn [cls_name ThePayBitcoin ThePayCard DebugPending
    DebugReject DebugPay]. intros H.
  repeat (apply lookup_insert_Some in H as [[_ <-] | [_ H]]; [tauto |]).
  rewrite lookup_empty in H. discriminate.
Qed.

Lemma get_backend_registered (env : Env) (method : string) (cls : BackendClass) :
  get_backend env method = Return cls -> BACKENDS !! method = Some cls.
Proof.
  unfold get_backend. destruct (BACKENDS !! method) as [b|]; [| discriminate].
  destruct (cls_debug b && negb (PAYMENT_DEBUG env)); [discriminate |]. congruence.
Qed.

Lemma thepay_collect_keeps_row (request : Request) : keeps_row (ThePay.collect request).
Proof.
  intros self. unfold ThePay.collect, bind, get, update, ret.
  destruct (negb (checkSignature (GET request))); [split; reflexivity |].
  destruct (negb (bool_decide (getMerchantData (GET request) = uuid (payment self))));
    [split; reflexivity |].
  destruct (bool_decide (getStatus (GET request) = 2)); split; reflexivity.
Qed.

Lemma registered_well_behaved (method : string) (cls : BackendClass) :
  BACKENDS !! method = Some cls -> well_behaved cls.
Proof.
  intros H. apply BACKENDS_lookup in H.
  destruct H as [-> | [-> | [-> | [-> | ->]]]]; split;
    first [ intros request; apply thepay_collect_keeps_row
          | intros ? ? ? self; split; reflexivity
          | intros ? self; split; reflexivity ].
Qed.

Lemma call_stepped (env : Env) (p : Payment) (op : operation) (w : World) (pk : string) :
  stepped (row_state pk (payments w)) (row_state pk (payments (call env p op w))).
Proof.
  destruct op as [method request back_url complete_url | method request]; cbn [call];
    (destruct (get_backend env method) as [cls|] eqn:Hg; [| now left]);
    (destruct (new_backend p w) as [self|] eqn:Hn; [| now left]);
    apply get_backend_registered, registered_well_behaved in Hg;
    apply new_backend_row in Hn as (<- & Hu & Hrow); rewrite <- Hu in Hrow.
  - now apply initiate_stepped.
  - now apply complete_stepped.
Qed.

Lemma run_performed (env : Env) (ops : list (Payment * operation)) (w : World)
    (pk : string) :
  row_moved (rtc performed) (row_state pk (payments w))
    (row_state pk (payments (run env ops w))).
Proof.
  revert w. induction ops as [|[p op] ops IH]; intros w; cbn.
  - apply row_moved_refl. intros s. apply rtc_refl.
  - eapply row_moved_trans; [intros s1 s2 s3; apply rtc_trans | | apply IH].
    destruct (call_stepped env p op w pk) as [-> | (s & s' & -> & -> & Hs)].
    + apply row_moved_refl. intros s. apply rtc_refl.
    + cbn. now apply rtc_once.
Qed.

End RegistryFacts.

(** C3: along any sequence of [initiate] and [complete] operations, each
    against any payment and with any registered method, the stored state
    of every row only moves forward along NEW, PENDING, then ACCEPTED or
    REJECTED (ACCEPTED possibly PROCESSED later); no row appears or
    disappears; and a row that is REJECTED, ACCEPTED or PROCESSED keeps
    its state. *)
Theorem state_only_moves_forward (env : Env) (ops : list (Payment * operation))
    (w : World) (pk : string) :
  Lifecycle.row_moved Lifecycle.forward
    (Lifecycle.row_state pk (payments w))
    (Lifecycle.row_state pk (payments (run env ops w)))
  /\ (forall s : PaymentState,
        Lifecycle.row_state pk (payments w) = Some s ->
        Lifecycle.settled s ->
        Lifecycle.row_state pk (payments (run env ops w)) = Some s).
Proof.
  pose proof (run_performed env ops w pk) as H. split.
  - destruct (Lifecycle.row_state pk (payments w)),
      (Lifecycle.row_state pk (payments (run env ops w))); cbn in *; try tauto.
    now apply performed_forward.
  - intros s Hs Hset. rewrite Hs in H.
    destruct (Lifecycle.row_state pk (payments (run env ops w))) as [s'|]; cbn in H;
      [| contradiction].
    f_equal. now apply settled_stays.
Qed.

Lemma state_only_moves_forward_witness :
  Lifecycle.row_state (uuid rejected_donation)
    (payments (run test_env
                 [ (rejected_donation, Initiate "pay" forged_request "back" "complete");
                   (rejected_donation, Complete "pay" forged_request) ]
                 (world_of rejected_donation)))
  = Some REJECTED.
Proof.
  apply (proj2 (state_only_moves_forward test_env
                  [ (rejected_donation, Initiate "pay" forged_request "back" "complete");
                    (rejected_donation, Complete "pay" forged_request) ]
                  (world_of rejected_donation) (uuid rejected_donation))).
  - reflexivity.
  - left. reflexivity.
Defined.

(** The debug methods drive a payment NEW, PENDING, ACCEPTED. *)
Example pending_then_accepted :
  Lifecycle.row_state (uuid (donation 100 false))
    (payments (run test_env
                 [ (donation 100 false, Initiate "pending" forged_request "back" "complete") ]
                 (world_of (donation 100 false))))
  = Some PENDING
  /\ Lifecycle.row_state (uuid (donation 100 false))
       (payments (run test_env
                    [ (donation 100 false, Initiate "pending" forged_request "back" "complete");
                      (donation 100 false, Complete "pay" forged_request);
                      (donation 100 false, Initiate "pay" forged_request "back" "complete") ]
                    (world_of (donation 100 false))))
     = Some ACCEPTED.
Proof. split; vm_compute; reflexivity. Qed.

(** ** The renewal scheduler *)

Section SchedulerFacts.

Lemma head_insert_desc (p : Payment) (rows : list Payment) :
  created <$> head (Table.insert_desc p rows)
  = Some (match created <$> head rows with
          | Some t => Z.max (created p) t
          | None => created p
          end).
Proof.
  destruct rows as [|q rest]; [reflexivity |]. cbn.
  case_bool_decide; cbn; f_equal; lia.
Qed.

Lemma newest_cons (p : Payment) (rows : list Payment) :
  newest (p :: rows)
  = Some (match newest rows with
          | Some t => Z.max (created p) t
          | None => created p
          end).
Proof. unfold newest. cbn. apply head_insert_desc. Qed.

Lemma last_processed_newest (chain : list Payment) :
  RenewalPolicy.last_processed chain = newest (Table.filter_state PROCESSED chain).
Proof.
  unfold RenewalPolicy.last_processed, Table.filter_state.
  induction chain as [|q chain IH]; [reflexivity |].
  rewrite filter_cons. cbn [foldr].
  destruct (decide (state q = PROCESSED)); [| exact IH].
  now rewrite newest_cons, IH.
Qed.

(** The [failures] query of the code counts the failure streak. *)
Lemma failures_streak (chain : list Payment) :
  length (Scheduler.failures chain) = RenewalPolicy.failure_streak chain.
Proof.
  unfold Scheduler.failures, RenewalPolicy.failure_streak.
  rewrite last_processed_newest. unfold newest.
  destruct (Table.order_by_created_desc (Table.filter_state PROCESSED chain))
    as [|last_good rest]; [reflexivity |].
  cbn. unfold Table.filter_created_gt, Table.filter_state.
  now rewrite list_filter_filter.
Qed.

Lemma get_backend_raises (env : Env) (name : string) (e : exn) :
  get_backend env name = Raise e -> exists what, e = KeyError what.
Proof.
  unfold get_backend. destruct (BACKENDS !! name) as [b|].
  - destruct (cls_debug b && negb (PAYMENT_DEBUG env)); [| discriminate].
    intros [= <-]. eauto.
  - intros [= <-]. eauto.
Qed.

Lemma repeat_payment_cases (env : Env) (self : Payment) (kwargs : gmap string jvalue)
    (w : World) :
  Scheduler.repeat_payment env self kwargs w
  = match get_backend env (backend self) with
    | Raise _ => (w, Return (PyBool false))
    | Return _ =>
        if refused self w then (w, Return (PyBool false))
        else (renewed env self kwargs w, Return PyNone)
    end.
Proof.
  unfold Scheduler.repeat_payment, refused.
  destruct (get_backend env (backend self)) as [cls|e] eqn:Hg.
  - destruct (_ && _); reflexivity.
  - apply get_backend_raises in Hg as [what ->]. reflexivity.
Qed.

Lemma refused_streak (self : Payment) (w : World) :
  refused self w = true
  <-> (3 <= RenewalPolicy.failure_streak (Table.filter_repeat self (payments w)))%nat.
Proof.
  unfold refused. rewrite andb_true_iff, negb_true_iff, bool_decide_eq_false,
    bool_decide_eq_true, failures_streak.
  split; [tauto |]. intros H. split; [| exact H].
  intros E. rewrite E in H. cbn in H. lia.
Qed.

Lemma dict_update_lookup (d other : gmap string jvalue) (k : string) :
  dict_update d other !! k
  = match other !! k with
    | Some v => Some v
    | None => d !! k
    end.
Proof.
  unfold dict_update. rewrite lookup_union.
  destruct (other !! k), (d !! k); reflexivity.
Qed.

End SchedulerFacts.

(** C4: when the backend of the payment resolves, [repeat_payment] counts
    the REJECTED payments of the renewal chain (the rows whose [repeat]
    is this payment) created after the most recent PROCESSED one, or all
    REJECTED ones when none is PROCESSED; when that count is at least 3 it
    returns False and leaves the world, hence the payments table, as it
    was. *)
Theorem repeat_payment_refuses_after_three (env : Env) (self : Payment)
    (kwargs : gmap string jvalue) (w : World) (cls : BackendClass) :
  get_backend env (backend self) = Return cls ->
  (forall q : Payment,
      q ∈ Table.filter_repeat self (payments w)
      <-> q ∈ payments w /\ repeat q = Some (uuid self))
  /\ length (Scheduler.failures (Table.filter_repeat self (payments w)))
     = RenewalPolicy.failure_streak (Table.filter_repeat self (payments w))
  /\ ((3 <= RenewalPolicy.failure_streak (Table.filter_repeat self (payments w)))%nat ->
      Scheduler.repeat_payment env self kwargs w = (w, Return (PyBool false))).
Proof.
  intros Hg. split.
  { intros q. unfold Table.filter_repeat. rewrite list_elem_of_filter. tauto. }
  split; [apply failures_streak |].
  intros H. rewrite repeat_payment_cases, Hg.
  apply refused_streak in H. now rewrite H.
Qed.

Lemma repeat_payment_refuses_after_three_witness :
  Scheduler.repeat_payment test_env (donation 100 false) ∅ abandoned_world
  = (abandoned_world, Return (PyBool false)).
Proof.
  apply (proj2 (proj2 (repeat_payment_refuses_after_three test_env (donation 100 false) ∅
                         abandoned_world DebugPay eq_refl))).
  vm_compute. lia.
Defined.

(** C5: when [repeat_payment] does not refuse, it puts one new row into
    the payments table: amount, description, [amount_fixed] and customer
    are those of the original, [recurring] is the one-time value,
    [repeat] is the original, and [extra] is the original's [extra]
    overridden by the keyword arguments. *)
Theorem repeat_payment_creates_renewal (env : Env) (self : Payment)
    (kwargs : gmap string jvalue) (w : World) :
  snd (Scheduler.repeat_payment env self kwargs w) <> Return (PyBool false) ->
  exists row : Payment,
    payments (fst (Scheduler.repeat_payment env self kwargs w)) = row :: payments w
    /\ amount row = amount self
    /\ description row = description self
    /\ amount_fixed row = amount_fixed self
    /\ customer row = customer self
    /\ recurring row = ""
    /\ repeat row = Some (uuid self)
    /\ (forall k : string,
          extra row !! k = match kwargs !! k with
                           | Some v => Some v
                           | None => extra self !! k
                           end).
Proof.
  rewrite repeat_payment_cases.
  destruct (get_backend env (backend self)); [| intros H; now contradict H].
  destruct (refused self w); [intros H; now contradict H |]. intros _.
  exists (renewal_row env self kwargs w). repeat split.
  intros k. cbn [renewal_row extra]. rewrite !dict_update_lookup, lookup_empty.
  destruct (kwargs !! k), (extra self !! k); reflexivity.
Qed.

Lemma repeat_payment_creates_renewal_witness :
  exists row : Payment,
    payments (fst (Scheduler.repeat_payment test_env reward_donation
                     {[ "note" := JStr "renewal" ]} (world_of reward_donation)))
    = row :: payments (world_of reward_donation)
    /\ amount row = amount reward_donation
    /\ description row = description reward_donation
    /\ amount_fixed row = amount_fixed reward_donation
    /\ customer row = customer reward_donation
    /\ recurring row = ""
    /\ repeat row = Some (uuid reward_donation)
    /\ (forall k : string,
          extra row !! k
          = match ({[ "note" := JStr "renewal" ]} : gmap string jvalue) !! k with
            | Some v => Some v
            | None => extra reward_donation !! k
            end).
Proof.
  apply (repeat_payment_creates_renewal test_env reward_donation
           {[ "note" := JStr "renewal" ]} (world_of reward_donation)).
  vm_compute. discriminate.
Defined.

(** C10: [repeat_payment] always returns, and what it returns is never
    true: on the path where the backend resolves and fewer than three
    failures are counted it creates the row, posts the trigger and returns
    None; it returns False exactly when the backend does not resolve or
    the chain is not empty and at least three failures are counted. *)
Theorem repeat_payment_result_is_falsy (env : Env) (self : Payment)
    (kwargs : gmap string jvalue) (w : World) :
  (exists v : pyvalue,
      snd (Scheduler.repeat_payment env self kwargs w) = Return v
      /\ truthy v = false /\ v <> PyBool true)
  /\ (forall cls : BackendClass,
        get_backend env (backend self) = Return cls ->
        (length (Scheduler.failures (Table.filter_repeat self (payments w))) < 3)%nat ->
        snd (Scheduler.repeat_payment env self kwargs w) = Return PyNone
        /\ exists row : Payment,
             payments (fst (Scheduler.repeat_payment env self kwargs w))
             = row :: payments w
             /\ posted (fst (Scheduler.repeat_payment env self kwargs w))
                = Scheduler.trigger env self :: posted w)
  /\ (snd (Scheduler.repeat_payment env self kwargs w) = Return (PyBool false)
      <-> (exists e, get_backend env (backend self) = Raise e)
          \/ (Table.filter_repeat self (payments w) <> []
              /\ (3 <= length (Scheduler.failures
                                (Table.filter_repeat self (payments w))))%nat)).
Proof.
  rewrite repeat_payment_cases.
  assert (Hr : refused self w = true
               <-> Table.filter_repeat self (payments w) <> []
                   /\ (3 <= length (Scheduler.failures
                                      (Table.filter_repeat self (payments w))))%nat).
  { unfold refused. now rewrite andb_true_iff, negb_true_iff, bool_decide_eq_false,
      bool_decide_eq_true. }
  destruct (get_backend env (backend self)) as [cls|e] eqn:Hg.
  - destruct (refused self w); cbn [snd fst].
    + split; [exists (PyBool false); repeat split; discriminate |]. split.
      * intros _ _ Hlt. apply proj1 in Hr. specialize (Hr eq_refl). lia.
      * split; [intros _; right; now apply Hr | reflexivity].
    + split; [exists PyNone; repeat split; discriminate |]. split.
      * intros _ _ _. split; [reflexivity |].
        exists (renewal_row env self kwargs w). split; reflexivity.
      * split; [discriminate |]. intros [[e He] | H]; [discriminate |].
        apply Hr in H. discriminate.
  - cbn [snd fst]. split; [exists (PyBool false); repeat split; discriminate |]. split.
    + intros cls' H. discriminate.
    + split; [intros _; left; eauto | reflexivity].
Qed.

Lemma repeat_payment_result_is_falsy_witness :
  snd (Scheduler.repeat_payment test_env (donation 100 false) ∅ recovering_world)
  = Return PyNone
  /\ exists row : Payment,
       payments (fst (Scheduler.repeat_payment test_env (donation 100 false) ∅
                        recovering_world))
       = row :: payments recovering_world
       /\ posted (fst (Scheduler.repeat_payment test_env (donation 100 false) ∅
                         recovering_world))
          = Scheduler.trigger test_env (donation 100 false) :: posted recovering_world.
Proof.
  apply (proj1 (proj2 (repeat_payment_result_is_falsy test_env (donation 100 false) ∅
                         recovering_world)) DebugPay eq_refl).
  vm_compute. lia.
Defined.

(** After [initiate] left the [backend] column empty, the payment cannot
    be renewed: the scheduler finds no backend and refuses. *)
Example unrecorded_backend_blocks_renewal :
  Scheduler.repeat_payment test_env
    (payment (fst (initiate ThePayCard (gateway_request 2) "back" "complete"
                     (instance_of form_donation)))) ∅ (world_of form_donation)
  = (world_of form_donation, Return (PyBool false)).
Proof. vm_compute. reflexivity. Qed.


(** * Further properties of the code *)

(** ** The registry of backends *)

Section RegistryLookup.

Lemma BACKENDS_named (name : string) (cls : BackendClass) :
  BACKENDS !! name = Some cls -> cls_name cls = Some name.
Proof.
  unfold BACKENDS, register_backend. cbn [cls_name ThePayBitcoin ThePayCard DebugPending
    DebugReject DebugPay]. intros H.
  repeat (apply lookup_insert_Some in H as [[<- <-] | [_ H]]; [reflexivity |]).
  rewrite lookup_empty in H. discriminate.
Qed.

(** The values of a map with the five registered names, in the order the
    map yields them. *)
Lemma registry_values (a b c d e : BackendClass) :
  (map_to_list (<["thepay-bitcoin" := e]> (<["thepay-card" := d]> (<["pending" := c]>
     (<["reject" := b]> (<["pay" := a]> (∅ : gmap string BackendClass))))))).*2
  = [b; d; e; c; a].
Proof. vm_compute. reflexivity. Qed.

Lemma list_backends_cases (env : Env) :
  list_backends env
  = if PAYMENT_DEBUG env
    then [DebugPay; DebugPending; DebugReject; ThePayBitcoin; ThePayCard]
    else [ThePayBitcoin; ThePayCard].
Proof.
  unfold list_backends, BACKENDS, register_backend.
  cbn [cls_name ThePayBitcoin ThePayCard DebugPending DebugReject DebugPay].
  rewrite registry_values.
  destruct (PAYMENT_DEBUG env); cbv - [ThePay.perform ThePay.collect]; reflexivity.
Qed.

Lemma get_backend_iff (env : Env) (name : string) (cls : BackendClass) :
  get_backend env name = Return cls
  <-> BACKENDS !! name = Some cls
      /\ (cls_debug cls = false \/ PAYMENT_DEBUG env = true).
Proof.
  unfold get_backend. destruct (BACKENDS !! name) as [b|].
  - destruct (cls_debug b) eqn:Hd, (PAYMENT_DEBUG env) eqn:Hp; cbn; split.
    all: try (intros [= <-]; split; [reflexivity | rewrite ?Hd; tauto]).
    all: try (intros [[= <-] _]; reflexivity).
    + discriminate.
    + intros [[= <-] [H | H]]; congruence.
  - split; [discriminate | intros [H _]; discriminate].
Qed.

End RegistryLookup.

(** [get_backend] returns a class exactly when the name is registered and
    the class is not a debug class or debug mode is on; the class it
    returns carries the name it was asked for. Every other call raises
    KeyError. *)
Theorem get_backend_resolves (env : Env) (name : string) (cls : BackendClass) :
  (get_backend env name = Return cls
   <-> BACKENDS !! name = Some cls
       /\ (cls_debug cls = false \/ PAYMENT_DEBUG env = true))
  /\ (get_backend env name = Return cls -> cls_name cls = Some name)
  /\ (forall e, get_backend env name = Raise e -> exists what, e = KeyError what).
Proof.
  split; [| split].
  - apply get_backend_iff.
  - intros H. apply get_backend_registered in H. now apply BACKENDS_named.
  - intros e. apply get_backend_raises.
Qed.

Lemma get_backend_resolves_witness :
  cls_name ThePayCard = Some "thepay-card"
  /\ exists what, KeyError "Invalid backend" = KeyError what.
Proof.
  split.
  - apply (proj1 (proj2 (get_backend_resolves test_env "thepay-card" ThePayCard))).
    reflexivity.
  - apply (proj2 (proj2 (get_backend_resolves
                           (mkEnv false None "" "" [] "" 0 (fun _ => "") (fun _ => ""))
                           "pay" DebugPay)) (KeyError "Invalid backend")).
    reflexivity.
Defined.

Lemma list_backends_elem (env : Env) (cls : BackendClass) :
  cls ∈ list_backends env <-> exists name, get_backend env name = Return cls.
Proof.
  rewrite list_backends_cases. split.
  - intros H. destruct (PAYMENT_DEBUG env) eqn:Hp.
    + repeat (apply elem_of_cons in H as [-> | H]);
        [exists "pay" | exists "pending" | exists "reject"
         | exists "thepay-bitcoin" | exists "thepay-card" | ];
        try (unfold get_backend; cbn; rewrite ?Hp; reflexivity).
      now apply elem_of_nil in H.
    + repeat (apply elem_of_cons in H as [-> | H]);
        [exists "thepay-bitcoin" | exists "thepay-card" | ];
        try (unfold get_backend; cbn; rewrite ?Hp; reflexivity).
      now apply elem_of_nil in H.
  - intros [name H].
    apply get_backend_iff in H as [H Hd].
    apply BACKENDS_lookup in H.
    destruct (PAYMENT_DEBUG env) eqn:Hp.
    + apply list_elem_of_In. cbn.
      destruct H as [H | [H | [H | [H | H]]]]; subst cls; tauto.
    + apply list_elem_of_In. cbn.
      destruct H as [H | [H | [H | [H | H]]]]; subst cls;
        try (destruct Hd as [Hd | Hd]; discriminate Hd); tauto.
Qed.

(** [list_backends] lists exactly the classes [get_backend] resolves. *)
Theorem list_backends_resolvable (env : Env) (cls : BackendClass) :
  cls ∈ list_backends env <-> exists name, get_backend env name = Return cls.
Proof. apply list_backends_elem. Qed.

(** [list_backends] is in ascending order of the names: with debug mode on
    pay, pending, reject, thepay-bitcoin, thepay-card; with debug mode off
    the debug methods are left out and thepay-bitcoin comes before
    thepay-card. *)
Theorem list_backends_sorted (env : Env) :
  cls_name <$> list_backends env
  = (if PAYMENT_DEBUG env
     then [Some "pay"; Some "pending"; Some "reject";
           Some "thepay-bitcoin"; Some "thepay-card"]
     else [Some "thepay-bitcoin"; Some "thepay-card"])
  /\ StronglySorted (fun a b => String.ltb (name_key a) (name_key b) = true)
       (list_backends env).
Proof.
  rewrite list_backends_cases. split; [now destruct (PAYMENT_DEBUG env) |].
  destruct (PAYMENT_DEBUG env); repeat constructor.
Qed.

(** ** The card gateway *)

Section GatewayFacts.

Lemma thepay_collect_result (request : Request) (self : Backend) :
  snd (ThePay.collect request self)
  = Return (checkSignature (GET request)
            && bool_decide (getMerchantData (GET request) = uuid (payment self))
            && bool_decide (getStatus (GET request) = 2)).
Proof.
  unfold ThePay.collect, bind, get, update, ret.
  destruct (checkSignature (GET request)); [| reflexivity].
  destruct (bool_decide (getMerchantData (GET request) = uuid (payment self)));
    [| reflexivity].
  destruct (bool_decide (getStatus (GET request) = 2)); reflexivity.
Qed.

Lemma thepay_collect_unchecked (request : Request) (self : Backend) :
  checkSignature (GET request)
  && bool_decide (getMerchantData (GET request) = uuid (payment self)) = false ->
  fst (ThePay.collect request self) = self.
Proof.
  unfold ThePay.collect, bind, get, update, ret.
  destruct (checkSignature (GET request)); cbn [andb negb]; [| reflexivity].
  destruct (bool_decide (getMerchantData (GET request) = uuid (payment self)));
    [discriminate | reflexivity].
Qed.

Lemma thepay_collect_checked (request : Request) (self : Backend) :
  checkSignature (GET request)
  && bool_decide (getMerchantData (GET request) = uuid (payment self)) = true ->
  fst (ThePay.collect request self)
  = set_payment
      (set_details
         (if bool_decide (getStatus (GET request) = 2) then data (GET request)
          else <["reject_reason" := JStr (ThePay.reason (getStatus (GET request)))]>
                 (data (GET request))))
      self.
Proof.
  unfold ThePay.collect, bind, get, update, ret.
  destruct (checkSignature (GET request)); cbn [andb negb]; [| discriminate].
  destruct (bool_decide (getMerchantData (GET request) = uuid (payment self)));
    [| discriminate].
  intros _. cbn [negb]. destruct (bool_decide (getStatus (GET request) = 2)); reflexivity.
Qed.

End GatewayFacts.

(** What [ThePayCard.collect] stores: when the signature or the merchant
    data does not check, the instance is left as it was (the callback data
    is not stored and no reject reason is recorded); otherwise [details]
    is replaced by the callback data, with the reject reason added unless
    the status is 2, and nothing else changes. *)
Theorem thepay_collect_details (request : Request) (self : Backend) :
  (checkSignature (GET request)
   && bool_decide (getMerchantData (GET request) = uuid (payment self)) = false ->
   fst (collect ThePayCard request self) = self)
  /\ (checkSignature (GET request)
      && bool_decide (getMerchantData (GET request) = uuid (payment self)) = true ->
      fst (collect ThePayCard request self)
      = set_payment
          (set_details
             (if bool_decide (getStatus (GET request) = 2) then data (GET request)
              else <["reject_reason" := JStr (ThePay.reason (getStatus (GET request)))]>
                     (data (GET request))))
          self).
Proof.
  split; [apply thepay_collect_unchecked | apply thepay_collect_checked].
Qed.

Lemma thepay_collect_details_witness :
  fst (collect ThePayCard forged_request (instance_of pending_card_payment))
  = instance_of pending_card_payment
  /\ fst (collect ThePayCard (gateway_request 3) (instance_of pending_card_payment))
     = set_payment
         (set_details
            (if bool_decide (getStatus (GET (gateway_request 3)) = 2)
             then data (GET (gateway_request 3))
             else <["reject_reason" :=
                      JStr (ThePay.reason (getStatus (GET (gateway_request 3))))]>
                    (data (GET (gateway_request 3)))))
         (instance_of pending_card_payment).
Proof.
  split.
  - apply (proj1 (thepay_collect_details forged_request (instance_of pending_card_payment))).
    reflexivity.
  - apply (proj2 (thepay_collect_details (gateway_request 3)
                    (instance_of pending_card_payment))).
    reflexivity.
Defined.

(** A pending card payment is accepted only by a callback that carries a
    valid signature, the key of this payment and status 2; every other
    callback rejects it. The failure mail then gives the reason of the
    status when the callback was checked, and otherwise what [details]
    already held, or the fallback text. *)
Theorem thepay_complete_decides (env : Env) (request : Request) (self : Backend) :
  state (payment self) = PENDING ->
  let checked :=
    checkSignature (GET request)
    && bool_decide (getMerchantData (GET request) = uuid (payment self)) in
  let accepted := checked && bool_decide (getStatus (GET request) = 2) in
  snd (complete env ThePayCard request self) = Return accepted
  /\ state (payment (fst (complete env ThePayCard request self)))
     = (if accepted then ACCEPTED else REJECTED)
  /\ (accepted = false ->
      body <$> head (outbox (world (fst (complete env ThePayCard request self))))
      = Some (FailedBody
                (if checked then JStr (ThePay.reason (getStatus (GET request)))
                 else default (JStr "Uknown") (details (payment self) !! "reject_reason"))
                (origin (customer (payment self))))).
Proof.
  intros Hs checked accepted.
  destruct (collect ThePayCard request self) as [self1 r] eqn:Hc.
  pose proof (thepay_collect_result request self) as Hr.
  change (ThePay.collect request self) with (collect ThePayCard request self) in Hr.
  rewrite Hc in Hr. cbn [snd] in Hr. subst r. fold checked in Hc. fold accepted in Hc.
  rewrite (complete_collected env ThePayCard request self self1 accepted Hs Hc).
  pose proof (thepay_collect_unchecked request self) as Hf.
  pose proof (thepay_collect_checked request self) as Ht.
  change (ThePay.collect request self) with (collect ThePayCard request self) in Hf, Ht.
  rewrite Hc in Hf, Ht. cbn [fst] in Hf, Ht. fold checked in Hf, Ht.
  destruct accepted eqn:Ha; cbn [snd fst].
  - split; [reflexivity |]. split; [| discriminate].
    now destruct (success_row env ThePayCard self1) as (_ & -> & _).
  - split; [reflexivity |]. split; [reflexivity |]. intros _.
    destruct checked eqn:Hck.
    + rewrite (Ht eq_refl). unfold accepted in Ha. cbn [andb] in Ha. rewrite Ha.
      cbn. now rewrite lookup_insert_eq.
    + rewrite (Hf eq_refl). reflexivity.
Qed.

Lemma thepay_complete_decides_witness :
  snd (complete test_env ThePayCard (gateway_request 4) (instance_of pending_card_payment))
  = Return false
  /\ state (payment (fst (complete test_env ThePayCard (gateway_request 4)
                           (instance_of pending_card_payment)))) = REJECTED.
Proof.
  destruct (thepay_complete_decides test_env (gateway_request 4)
              (instance_of pending_card_payment) eq_refl) as (H1 & H2 & _).
  split; [exact H1 | exact H2].
Defined.

(** [ThePayCard.perform] leaves the instance as it was and hands the
    gateway the VAT-inclusive amount in EUR, the completion URL and the
    primary key as merchant data; a correctly signed callback that echoes
    this merchant data passes the reference check of [collect], which then
    decides on the status alone. *)
Theorem thepay_perform_reference (thepay_method : Z) (request : Request)
    (back_url complete_url : string) (self : Backend) :
  exists p : ThePayPayment,
    ThePay.perform thepay_method request back_url complete_url self
    = (self, Return (Some (redirect_gateway p)))
    /\ Currency p = "EUR"
    /\ Value p = PaymentModel.vat_amount (payment self)
    /\ MethodId p = thepay_method
    /\ ReturnUrl p = complete_url
    /\ MerchantData p = uuid (payment self)
    /\ IsRecurring p = str_truthy (recurring (payment self))
    /\ (forall callback : Request,
          checkSignature (GET callback) = true ->
          getMerchantData (GET callback) = MerchantData p ->
          snd (ThePay.collect callback self)
          = Return (bool_decide (getStatus (GET callback) = 2))).
Proof.
  exists (mkThePayPayment "EUR" (PaymentModel.vat_amount (payment self)) thepay_method
            (email (customer (payment self))) (description (payment self)) complete_url
            (uuid (payment self)) (str_truthy (recurring (payment self)))).
  split; [reflexivity |]. repeat split.
  intros callback Hsig Href. cbn [MerchantData] in Href.
  rewrite thepay_collect_result, Hsig, Href.
  now rewrite bool_decide_true.
Qed.

Lemma thepay_perform_reference_witness :
  snd (ThePay.collect (gateway_request 2) (instance_of form_donation))
  = Return (bool_decide (getStatus (GET (gateway_request 2)) = 2)).
Proof.
  destruct (thepay_perform_reference 21 forged_request "back" "complete"
              (instance_of form_donation)) as (p & Hp & _ & _ & _ & _ & Hm & _ & Hc).
  apply Hc; [reflexivity |]. rewrite Hm. reflexivity.
Defined.

(** ** Calling the life cycle methods again *)

Section CalledAgain.

Lemma initiate_returned_pending (cls : BackendClass) (request : Request)
    (back_url complete_url : string) (self self1 : Backend) (result : option Response) :
  initiate cls request back_url complete_url self = (self1, Return result) ->
  state (payment self) = NEW /\ state (payment self1) = PENDING.
Proof.
  intros H.
  destruct (decide (state (payment self) = NEW)) as [Hs | Hs];
    [| rewrite initiate_not_new in H by assumption; discriminate].
  assert (Hg : repeat (payment self) = None \/ cls_recurring cls = true).
  { destruct (repeat (payment self)) eqn:Hr; [| now left].
    destruct (cls_recurring cls) eqn:Hrec; [now right |].
    rewrite initiate_not_recurring in H by (rewrite ?Hr; eauto). discriminate. }
  destruct (perform cls request back_url complete_url self) as [self0 [r|e]] eqn:Hp.
  - rewrite (initiate_performed _ _ _ _ _ self0 r Hs Hg Hp) in H.
    injection H as <- _. split; [assumption | reflexivity].
  - rewrite (initiate_perform_raises _ _ _ _ _ self0 e Hs Hg Hp) in H. discriminate.
Qed.

Lemma complete_returned_settled (env : Env) (cls : BackendClass) (request : Request)
    (self self1 : Backend) (collected : bool) :
  complete env cls request self = (self1, Return collected) ->
  state (payment self) = PENDING
  /\ state (payment self1) = (if collected then ACCEPTED else REJECTED).
Proof.
  intros H.
  destruct (decide (state (payment self) = PENDING)) as [Hs | Hs];
    [| rewrite complete_not_pending in H by assumption; discriminate].
  destruct (collect cls request self) as [self0 [b|e]] eqn:Hc.
  - rewrite (complete_collected env cls request self self0 b Hs Hc) in H.
    destruct b; injection H as <- <-; split; try assumption.
    + now destruct (success_row env cls self0) as (_ & -> & _).
    + reflexivity.
  - rewrite (complete_collect_raises env cls request self self0 e Hs Hc) in H.
    discriminate.
Qed.

End CalledAgain.

(** Once [initiate] has returned, a second [initiate] on the instance, by
    whatever backend and with whatever arguments, raises InvalidState and
    changes nothing, while [complete] is admitted: it returns what
    [collect] returns. *)
Theorem initiate_only_once (cls : BackendClass) (request : Request)
    (back_url complete_url : string) (self self1 : Backend) (result : option Response) :
  initiate cls request back_url complete_url self = (self1, Return result) ->
  (forall (cls' : BackendClass) (request' : Request) (back_url' complete_url' : string),
      initiate cls' request' back_url' complete_url' self1 = (self1, Raise InvalidState))
  /\ (forall (env : Env) (cls' : BackendClass) (request' : Request) (self2 : Backend)
             (collected : bool),
         collect cls' request' self1 = (self2, Return collected) ->
         snd (complete env cls' request' self1) = Return collected).
Proof.
  intros H. apply initiate_returned_pending in H as [_ Hs]. split.
  - intros. apply initiate_not_new. rewrite Hs. discriminate.
  - intros env cls' request' self2 collected Hc.
    rewrite (complete_collected env cls' request' self1 self2 collected Hs Hc).
    now destruct collected.
Qed.

Lemma initiate_only_once_witness :
  initiate ThePayCard (gateway_request 2) "back" "complete"
    (fst (initiate DebugPending forged_request "back" "complete" (instance_of form_donation)))
  = (fst (initiate DebugPending forged_request "back" "complete" (instance_of form_donation)),
     Raise InvalidState).
Proof.
  apply (proj1 (initiate_only_once DebugPending forged_request "back" "complete"
                  (instance_of form_donation) _ _ eq_refl)).
Defined.

(** Once [complete] has returned, be it true or false, every further
    [complete] and every further [initiate] on the instance raises
    InvalidState and changes nothing: a payment is collected at most
    once. *)
Theorem complete_only_once (env : Env) (cls : BackendClass) (request : Request)
    (self self1 : Backend) (collected : bool) :
  complete env cls request self = (self1, Return collected) ->
  (forall (env' : Env) (cls' : BackendClass) (request' : Request),
      complete env' cls' request' self1 = (self1, Raise InvalidState))
  /\ (forall (cls' : BackendClass) (request' : Request) (back_url complete_url : string),
         initiate cls' request' back_url complete_url self1 = (self1, Raise InvalidState)).
Proof.
  intros H. apply complete_returned_settled in H as [_ Hs]. split; intros.
  - apply complete_not_pending. rewrite Hs. destruct collected; discriminate.
  - apply initiate_not_new. rewrite Hs. destruct collected; discriminate.
Qed.

Lemma complete_only_once_witness :
  complete test_env ThePayCard (gateway_request 2)
    (fst (complete test_env DebugReject forged_request (instance_of pending_card_payment)))
  = (fst (complete test_env DebugReject forged_request (instance_of pending_card_payment)),
     Raise InvalidState).
Proof.
  apply (proj1 (complete_only_once test_env DebugReject forged_request
                  (instance_of pending_card_payment) _ _ eq_refl)).
Defined.

(** The debug methods decide without looking at the request: [pay] and
    [pending] accept every pending payment, [reject] rejects every one,
    records the reason Debug reject and mails it. *)
Theorem debug_methods_decide (env : Env) (request : Request) (self : Backend) :
  state (payment self) = PENDING ->
  snd (complete env DebugPay request self) = Return true
  /\ state (payment (fst (complete env DebugPay request self))) = ACCEPTED
  /\ snd (complete env DebugPending request self) = Return true
  /\ state (payment (fst (complete env DebugPending request self))) = ACCEPTED
  /\ snd (complete env DebugReject request self) = Return false
  /\ state (payment (fst (complete env DebugReject request self))) = REJECTED
  /\ details (payment (fst (complete env DebugReject request self))) !! "reject_reason"
     = Some (JStr "Debug reject")
  /\ body <$> head (outbox (world (fst (complete env DebugReject request self))))
     = Some (FailedBody (JStr "Debug reject") (origin (customer (payment self)))).
Proof.
  intros Hs.
  rewrite (complete_collected env DebugPay request self self true Hs eq_refl).
  rewrite (complete_collected env DebugPending request self self true Hs eq_refl).
  rewrite (complete_collected env DebugReject request self _ false Hs eq_refl).
  cbn [fst snd].
  destruct (success_row env DebugPay self) as (_ & -> & _).
  destruct (success_row env DebugPending self) as (_ & -> & _).
  repeat split; cbn; now rewrite lookup_insert_eq.
Qed.

Lemma debug_methods_decide_witness :
  snd (complete test_env DebugReject forged_request (instance_of pending_card_payment))
  = Return false.
Proof.
  destruct (debug_methods_decide test_env forged_request
              (instance_of pending_card_payment) eq_refl) as (_ & _ & _ & _ & H & _).
  exact H.
Defined.

(** ** Saving rows *)

Section SaveFacts.

Lemma filter_pk_nil_iff (pk : string) (rows : list Payment) :
  Table.filter_pk pk rows = [] <-> pk ∉ uuid <$> rows.
Proof.
  induction rows as [|q rows IH]; [split; [intros _; apply not_elem_of_nil | reflexivity] |].
  rewrite filter_pk_cons, fmap_cons, not_elem_of_cons.
  destruct (decide (uuid q = pk)) as [E | E].
  - split; [discriminate | intros [H _]; congruence].
  - rewrite IH. split; [intros H; split; [congruence | exact H] | tauto].
Qed.

Lemma replace_absent (p : Payment) (rows : list Payment) :
  Table.filter_pk (uuid p) rows = [] ->
  (fun q => if bool_decide (uuid q = uuid p) then p else q) <$> rows = rows.
Proof.
  induction rows as [|q rows IH]; [reflexivity |].
  rewrite filter_pk_cons. destruct (decide (uuid q = uuid p)); [discriminate |].
  intros H. rewrite fmap_cons, (IH H), bool_decide_false by assumption. reflexivity.
Qed.

Lemma replace_keeps_keys (p : Payment) (rows : list Payment) :
  uuid <$> ((fun q => if bool_decide (uuid q = uuid p) then p else q) <$> rows)
  = uuid <$> rows.
Proof.
  induction rows as [|q rows IH]; [reflexivity |].
  rewrite !fmap_cons, IH. case_bool_decide; congruence.
Qed.

Lemma replace_twice (p : Payment) (rows : list Payment) :
  (fun q => if bool_decide (uuid q = uuid p) then p else q)
    <$> ((fun q => if bool_decide (uuid q = uuid p) then p else q) <$> rows)
  = (fun q => if bool_decide (uuid q = uuid p) then p else q) <$> rows.
Proof.
  induction rows as [|q rows IH]; [reflexivity |].
  rewrite !fmap_cons, IH. f_equal.
  destruct (decide (uuid q = uuid p)) as [E | E].
  - rewrite (bool_decide_true (uuid q = uuid p)) by assumption.
    now rewrite bool_decide_true.
  - rewrite (bool_decide_false (uuid q = uuid p)) by assumption.
    now rewrite bool_decide_false.
Qed.

Lemma save_present (p : Payment) (rows : list Payment) :
  Table.filter_pk (uuid p) (Table.save p rows) <> [].
Proof.
  unfold Table.save. case_bool_decide as E.
  - rewrite filter_pk_cons, decide_True by reflexivity. discriminate.
  - intros H. pose proof (filter_pk_replace_same p rows E) as Hh.
    rewrite H in Hh. discriminate.
Qed.

End SaveFacts.

(** [save] and look-up by primary key: after [save] the row found under
    the key of the payment is the payment as saved, the rows under every
    other key are as before, and the table has grown by one row exactly
    when the key was new. *)
Lemma save_then_lookup (p : Payment) (rows : list Payment) :
  head (Table.filter_pk (uuid p) (Table.save p rows)) = Some p
  /\ (forall pk : string,
        pk <> uuid p ->
        Table.filter_pk pk (Table.save p rows) = Table.filter_pk pk rows)
  /\ length (Table.save p rows)
     = (if bool_decide (uuid p ∈ uuid <$> rows) then length rows else S (length rows)).
Proof.
  unfold Table.save. case_bool_decide as E.
  - split; [now rewrite filter_pk_cons, decide_True |]. split.
    + intros pk Hne. rewrite filter_pk_cons, decide_False by congruence. reflexivity.
    + apply filter_pk_nil_iff in E. now rewrite bool_decide_false.
  - split; [now apply filter_pk_replace_same |]. split.
    + intros pk Hne. apply filter_pk_replace_other. congruence.
    + rewrite length_fmap, bool_decide_true; [reflexivity |].
      destruct (decide (uuid p ∈ uuid <$> rows)) as [H | H]; [exact H |].
      now apply filter_pk_nil_iff in H.
Qed.


(** [save] keeps primary keys unique, and saving the same payment twice is
    the same as saving it once. *)
Lemma save_keeps_keys_unique (p : Payment) (rows : list Payment) :
  (NoDup (uuid <$> rows) -> NoDup (uuid <$> Table.save p rows))
  /\ Table.save p (Table.save p rows) = Table.save p rows.
Proof.
  split.
  - intros Hnd. unfold Table.save. case_bool_decide as E.
    + rewrite fmap_cons. apply NoDup_cons. split; [| exact Hnd].
      now apply filter_pk_nil_iff.
    + now rewrite replace_keeps_keys.
  - pose proof (save_present p rows) as Hp.
    unfold Table.save at 1. rewrite bool_decide_false by exact Hp.
    unfold Table.save. case_bool_decide as E.
    + rewrite fmap_cons, bool_decide_true by reflexivity. f_equal.
      now apply replace_absent.
    + apply replace_twice.
Qed.


(** ** What the life cycle never changes *)

Section ColumnFacts.

Lemma immutable_columns_refl (p : Payment) : immutable_columns p p.
Proof. repeat split. Qed.

Lemma immutable_columns_trans (p q r : Payment) :
  immutable_columns p q -> immutable_columns q r -> immutable_columns p r.
Proof. unfold immutable_columns. intuition congruence. Qed.

Lemma rows_immutable_refl (rows : list Payment) : Forall2 immutable_columns rows rows.
Proof. induction rows; constructor; auto using immutable_columns_refl. Qed.

Lemma rows_immutable_keys (rows rows' : list Payment) :
  Forall2 immutable_columns rows rows' -> uuid <$> rows = uuid <$> rows'.
Proof.
  induction 1 as [|p q rows rows' H _ IH]; [reflexivity |].
  rewrite !fmap_cons, IH. f_equal. apply H.
Qed.

Lemma replace_immutable (p : Payment) (rows : list Payment) :
  (forall q, q ∈ rows -> uuid q = uuid p -> immutable_columns q p) ->
  Forall2 immutable_columns rows
    ((fun q => if bool_decide (uuid q = uuid p) then p else q) <$> rows).
Proof.
  induction rows as [|q rows IH]; intros H; [constructor |].
  rewrite fmap_cons. constructor.
  - case_bool_decide as E; [apply H; [left | exact E] | apply immutable_columns_refl].
  - apply IH. intros q' Hin. apply H. now right.
Qed.

Lemma unique_key_row (rows : list Payment) (q row : Payment) :
  NoDup (uuid <$> rows) -> q ∈ rows -> row ∈ rows -> uuid q = uuid row -> q = row.
Proof.
  intros Hnd Hq Hrow E.
  apply list_elem_of_lookup in Hq as [i Hi]. apply list_elem_of_lookup in Hrow as [j Hj].
  assert (i = j) as ->.
  { apply (NoDup_lookup (uuid <$> rows) i j (uuid q) Hnd).
    - now rewrite list_lookup_fmap, Hi.
    - now rewrite list_lookup_fmap, Hj, E. }
  congruence.
Qed.

Lemma save_immutable (p row : Payment) (rows : list Payment) :
  NoDup (uuid <$> rows) ->
  head (Table.filter_pk (uuid row) rows) = Some row ->
  immutable_columns row p ->
  Forall2 immutable_columns rows (Table.save p rows).
Proof.
  intros Hnd Hhead Himm.
  assert (Hu : uuid row = uuid p) by apply Himm.
  assert (Hin : row ∈ rows).
  { destruct (Table.filter_pk (uuid row) rows) as [|r rest] eqn:E; [discriminate |].
    injection Hhead as ->.
    assert (H : row ∈ Table.filter_pk (uuid row) rows) by (rewrite E; left).
    unfold Table.filter_pk in H. apply list_elem_of_filter in H. tauto. }
  unfold Table.save. rewrite bool_decide_false.
  - apply replace_immutable. intros q Hq E.
    rewrite (unique_key_row rows q row Hnd Hq Hin) by congruence. exact Himm.
  - rewrite <- Hu. intros E. rewrite E in Hhead. discriminate.
Qed.

Lemma new_backend_head (p : Payment) (w : World) (self : Backend) :
  new_backend p w = Return self ->
  world self = w
  /\ head (Table.filter_pk (uuid (payment self)) (payments w)) = Some (payment self).
Proof.
  intros H. pose proof (new_backend_row p w self H) as (Hw & Hu & _).
  split; [exact Hw |]. rewrite Hu. unfold new_backend in H.
  destruct (Table.filter_pk (uuid p) (payments w)) as [|row rest]; [discriminate |].
  now injection H as <-.
Qed.

Lemma success_columns (env : Env) (cls : BackendClass) (self1 : Backend) :
  immutable_columns (payment self1) (payment (fst (success env cls self1))).
Proof.
  unfold success, generate_invoice, save, notify_user, bind, get, update, ret.
  destruct (negb (cls_recurring cls)), (PAYMENT_FAKTURACE env); repeat split.
Qed.

Lemma thepay_collect_keeps_columns (request : Request) :
  keeps_columns (ThePay.collect request).
Proof.
  intros self. unfold ThePay.collect, bind, get, update, ret.
  destruct (negb (checkSignature (GET request))); [repeat split |].
  destruct (negb (bool_decide (getMerchantData (GET request) = uuid (payment self))));
    [repeat split |].
  destruct (bool_decide (getStatus (GET request) = 2)); repeat split.
Qed.

Lemma registered_keeps_columns (method : string) (cls : BackendClass) :
  BACKENDS !! method = Some cls ->
  (forall request back_url complete_url,
      keeps_columns (perform cls request back_url complete_url))
  /\ (forall request, keeps_columns (collect cls request)).
Proof.
  intros H. apply BACKENDS_lookup in H.
  destruct H as [-> | [-> | [-> | [-> | ->]]]]; split;
    first [ intros request; apply thepay_collect_keeps_columns
          | intros ? ? ? self; repeat split
          | intros ? self; repeat split ].
Qed.

Lemma initiate_columns (cls : BackendClass) request back_url complete_url
    (self : Backend) :
  (forall request back_url complete_url,
      keeps_columns (perform cls request back_url complete_url)) ->
  NoDup (uuid <$> payments (world self)) ->
  head (Table.filter_pk (uuid (payment self)) (payments (world self)))
  = Some (payment self) ->
  Forall2 immutable_columns (payments (world self))
    (payments (world (fst (initiate cls request back_url complete_url self)))).
Proof.
  intros Hk Hnd Hhead.
  destruct (decide (state (payment self) = NEW)) as [Hs | Hs];
    [| rewrite initiate_not_new by assumption; apply rows_immutable_refl].
  destruct (decide (repeat (payment self) = None \/ cls_recurring cls = true))
    as [Hg | Hg].
  - destruct (Hk request back_url complete_url self) as [Hc Ht].
    destruct (perform cls request back_url complete_url self) as [self1 [r|e]] eqn:Hp;
      cbn [fst] in Hc, Ht.
    + rewrite (initiate_performed _ _ _ _ _ self1 r Hs Hg Hp). cbn. rewrite Ht.
      apply (save_immutable _ (payment self)); [assumption | assumption |].
      eapply immutable_columns_trans; [exact Hc | repeat split].
    + rewrite (initiate_perform_raises _ _ _ _ _ self1 e Hs Hg Hp). cbn [fst].
      rewrite Ht. apply rows_immutable_refl.
  - rewrite initiate_not_recurring; [apply rows_immutable_refl | |].
    + destruct (repeat (payment self)); [eauto | tauto].
    + destruct (cls_recurring cls); tauto.
Qed.

Lemma complete_columns (env : Env) (cls : BackendClass) request (self : Backend) :
  (forall request, keeps_columns (collect cls request)) ->
  NoDup (uuid <$> payments (world self)) ->
  head (Table.filter_pk (uuid (payment self)) (payments (world self)))
  = Some (payment self) ->
  Forall2 immutable_columns (payments (world self))
    (payments (world (fst (complete env cls request self)))).
Proof.
  intros Hk Hnd Hhead.
  destruct (decide (state (payment self) = PENDING)) as [Hs | Hs];
    [| rewrite complete_not_pending by assumption; apply rows_immutable_refl].
  destruct (Hk request self) as [Hc Ht].
  destruct (collect cls request self) as [self1 [collected|e]] eqn:Hcol;
    cbn [fst] in Hc, Ht.
  - rewrite (complete_collected env cls request self self1 collected Hs Hcol).
    destruct collected; cbn [fst].
    + destruct (success_row env cls self1) as (_ & _ & ->). rewrite Ht.
      apply (save_immutable _ (payment self)); [assumption | assumption |].
      eapply immutable_columns_trans; [exact Hc | apply success_columns].
    + destruct (failure_row self1) as (_ & _ & ->). rewrite Ht.
      apply (save_immutable _ (payment self)); [assumption | assumption |].
      eapply immutable_columns_trans; [exact Hc | repeat split].
  - rewrite (complete_collect_raises env cls request self self1 e Hs Hcol).
    cbn [fst]. rewrite Ht. apply rows_immutable_refl.
Qed.

Lemma call_columns (env : Env) (p : Payment) (op : operation) (w : World) :
  NoDup (uuid <$> payments w) ->
  Forall2 immutable_columns (payments w) (payments (call env p op w)).
Proof.
  intros Hnd.
  destruct op as [method request back_url complete_url | method request]; cbn [call];
    (destruct (get_backend env method) as [cls|] eqn:Hg; [| apply rows_immutable_refl]);
    (destruct (new_backend p w) as [self|] eqn:Hn; [| apply rows_immutable_refl]);
    apply get_backend_registered, registered_keeps_columns in Hg as [Hperform Hcollect];
    apply new_backend_head in Hn as [<- Hhead].
  - now apply initiate_columns.
  - now apply complete_columns.
Qed.

End ColumnFacts.

(** Whatever [initiate] and [complete] operations are issued through the
    registry on a table with unique primary keys, the table keeps its rows
    in place: none is added, removed or moved, and each agrees with its
    earlier version on the primary key, the amount, the description, the
    creation time, the backend column, [extra], the customer, [repeat] and
    [amount_fixed]. Only [state], [details], [recurring] and [invoice]
    change. *)
Theorem run_keeps_immutable_columns (env : Env) (ops : list (Payment * operation))
    (w : World) :
  NoDup (uuid <$> payments w) ->
  Forall2 immutable_columns (payments w) (payments (run env ops w))
  /\ NoDup (uuid <$> payments (run env ops w)).
Proof.
  revert w. induction ops as [|[p op] ops IH]; intros w Hnd; cbn.
  - split; [apply rows_immutable_refl | exact Hnd].
  - pose proof (call_columns env p op w Hnd) as Hstep.
    assert (Hnd' : NoDup (uuid <$> payments (call env p op w)))
      by now rewrite <- (rows_immutable_keys _ _ Hstep).
    destruct (IH _ Hnd') as [Hrest Hfinal]. split; [| exact Hfinal].
    eapply Forall2_trans; [| exact Hstep | exact Hrest].
    apply immutable_columns_trans.
Qed.

Lemma run_keeps_immutable_columns_witness :
  Forall2 immutable_columns (payments abandoned_world)
    (payments (run test_env
                 [ (renewal_at "r4" 40 REJECTED, Initiate "pay" forged_request "b" "c");
                   (renewal_at "r9" 90 NEW, Complete "pay" forged_request) ]
                 abandoned_world)).
Proof.
  apply (run_keeps_immutable_columns test_env
           [ (renewal_at "r4" 40 REJECTED, Initiate "pay" forged_request "b" "c");
             (renewal_at "r9" 90 NEW, Complete "pay" forged_request) ]
           abandoned_world).
  apply (bool_decide_unpack _). vm_compute. exact I.
Defined.

(** ** The renewal policy at its edges *)

Section PolicyFacts.

Lemma last_processed_bound (chain : list Payment) (q : Payment) :
  q ∈ chain -> state q = PROCESSED ->
  exists t, RenewalPolicy.last_processed chain = Some t /\ created q <= t.
Proof.
  unfold RenewalPolicy.last_processed.
  induction chain as [|r chain IH]; intros Hin Hs; [now apply elem_of_nil in Hin |].
  cbn [foldr]. apply elem_of_cons in Hin as [<- | Hin].
  - rewrite decide_True by assumption.
    destruct (foldr _ None chain) as [t|]; eexists; split; try reflexivity; lia.
  - destruct (IH Hin Hs) as (t & -> & Ht).
    destruct (decide (state r = PROCESSED)); [| eauto].
    eexists. split; [reflexivity | lia].
Qed.

Lemma filter_none (P : Payment -> Prop) `{forall x, Decision (P x)} (rows : list Payment) :
  (forall x, x ∈ rows -> ~ P x) -> filter P rows = [].
Proof.
  induction rows as [|x rows IH]; intros Hall; [reflexivity |].
  rewrite filter_cons, decide_False by (apply Hall; left).
  apply IH. intros y Hy. apply Hall. now right.
Qed.

Lemma failures_rejected (chain : list Payment) :
  (length (Scheduler.failures chain) <= length (Table.filter_state REJECTED chain))%nat.
Proof.
  unfold Scheduler.failures.
  destruct (Table.order_by_created_desc (Table.filter_state PROCESSED chain));
    [lia | apply length_filter].
Qed.

Lemma not_refused_returns (env : Env) (self : Payment) (kwargs : gmap string jvalue)
    (w : World) (cls : BackendClass) :
  get_backend env (backend self) = Return cls ->
  refused self w = false ->
  Scheduler.repeat_payment env self kwargs w = (renewed env self kwargs w, Return PyNone).
Proof. intros Hg Hr. now rewrite repeat_payment_cases, Hg, Hr. Qed.

Lemma refused_false_streak (self : Payment) (w : World) :
  (RenewalPolicy.failure_streak (Table.filter_repeat self (payments w)) < 3)%nat ->
  refused self w = false.
Proof.
  intros H. destruct (refused self w) eqn:E; [| reflexivity].
  apply refused_streak in E. lia.
Qed.

Lemma failures_skip (q : Payment) (chain : list Payment) :
  state q <> REJECTED -> state q <> PROCESSED ->
  Scheduler.failures (q :: chain) = Scheduler.failures chain.
Proof.
  intros Hr Hp. unfold Scheduler.failures, Table.filter_state.
  now rewrite !filter_cons, !decide_False by assumption.
Qed.

Lemma refused_skip (self q : Payment) (w : World) :
  repeat q <> Some (uuid self) \/ (state q <> REJECTED /\ state q <> PROCESSED) ->
  refused self (set_payments (cons q) w) = refused self w.
Proof.
  intros H. unfold refused. cbn [payments set_payments].
  unfold Table.filter_repeat. rewrite filter_cons.
  destruct (decide (repeat q = Some (uuid self))) as [E | E]; [| reflexivity].
  destruct H as [H | [Hr Hp]]; [contradiction |].
  rewrite (failures_skip q _ Hr Hp).
  destruct (filter _ (payments w)) as [|r chain] eqn:Ec; [| reflexivity].
  cbn. reflexivity.
Qed.

End PolicyFacts.

(** A PROCESSED renewal resets the count: when the chain holds a PROCESSED
    payment that is at least as recent as every REJECTED one (the test on
    the creation time is strict), no failure is counted and the renewal is
    created, however many REJECTED payments came before. *)
Theorem processed_resets_failures (env : Env) (self : Payment)
    (kwargs : gmap string jvalue) (w : World) (cls : BackendClass) (q : Payment) :
  get_backend env (backend self) = Return cls ->
  q ∈ Table.filter_repeat self (payments w) ->
  state q = PROCESSED ->
  (forall r : Payment,
      r ∈ Table.filter_repeat self (payments w) -> state r = REJECTED ->
      created r <= created q) ->
  Scheduler.failures (Table.filter_repeat self (payments w)) = []
  /\ snd (Scheduler.repeat_payment env self kwargs w) = Return PyNone.
Proof.
  intros Hg Hq Hs Hall.
  assert (Hz : RenewalPolicy.failure_streak (Table.filter_repeat self (payments w)) = 0%nat).
  { unfold RenewalPolicy.failure_streak.
    destruct (last_processed_bound _ q Hq Hs) as (t & -> & Ht).
    rewrite filter_none; [reflexivity |].
    intros r Hr [Hlt Hrej]. specialize (Hall r Hr Hrej). lia. }
  split.
  - apply length_zero_iff_nil. now rewrite failures_streak.
  - rewrite (not_refused_returns env self kwargs w cls Hg); [reflexivity |].
    apply refused_false_streak. lia.
Qed.

Lemma processed_resets_failures_witness :
  snd (Scheduler.repeat_payment test_env (donation 100 false) ∅
         (mkWorld
            [ renewal_at "r5" 50 PROCESSED; renewal_at "r4" 40 REJECTED;
              renewal_at "r3" 30 REJECTED; renewal_at "r2" 20 REJECTED;
              renewal_at "r1" 10 REJECTED ] [] [] [] 5))
  = Return PyNone.
Proof.
  apply (processed_resets_failures test_env (donation 100 false) ∅
           (mkWorld
              [ renewal_at "r5" 50 PROCESSED; renewal_at "r4" 40 REJECTED;
                renewal_at "r3" 30 REJECTED; renewal_at "r2" 20 REJECTED;
                renewal_at "r1" 10 REJECTED ] [] [] [] 5)
           DebugPay (renewal_at "r5" 50 PROCESSED) eq_refl).
  - vm_compute. left.
  - reflexivity.
  - intros r Hr Hs. vm_compute in Hr.
    repeat (apply elem_of_cons in Hr as [-> | Hr];
            [unfold renewal_at; cbn [created]; lia |]).
    now apply elem_of_nil in Hr.
Defined.

(** A chain with fewer than three REJECTED payments is never refused,
    whatever their order and whatever else the chain holds. *)
Theorem few_rejections_never_refused (env : Env) (self : Payment)
    (kwargs : gmap string jvalue) (w : World) (cls : BackendClass) :
  get_backend env (backend self) = Return cls ->
  (length (Table.filter_state REJECTED (Table.filter_repeat self (payments w))) < 3)%nat ->
  Scheduler.repeat_payment env self kwargs w = (renewed env self kwargs w, Return PyNone)
  /\ payments (renewed env self kwargs w) = renewal_row env self kwargs w :: payments w.
Proof.
  intros Hg Hlt. split; [| reflexivity].
  apply (not_refused_returns env self kwargs w cls Hg).
  apply refused_false_streak. rewrite <- failures_streak.
  pose proof (failures_rejected (Table.filter_repeat self (payments w))). lia.
Qed.

Lemma few_rejections_never_refused_witness :
  Scheduler.repeat_payment test_env (donation 100 false) ∅ two_failures_world
  = (renewed test_env (donation 100 false) ∅ two_failures_world, Return PyNone)
  /\ payments (renewed test_env (donation 100 false) ∅ two_failures_world)
     = renewal_row test_env (donation 100 false) ∅ two_failures_world
       :: payments two_failures_world.
Proof.
  apply (few_rejections_never_refused test_env (donation 100 false) ∅
           two_failures_world DebugPay eq_refl).
  vm_compute. lia.
Defined.

(** The decision of [repeat_payment] looks only at the REJECTED and
    PROCESSED payments of its own chain: a further row that renews
    another payment, or that is NEW, PENDING or ACCEPTED, changes nothing
    of the result. In particular an ACCEPTED renewal that is not yet
    PROCESSED does not reset the count. *)
Theorem other_rows_do_not_count (env : Env) (self : Payment)
    (kwargs : gmap string jvalue) (w : World) (q : Payment) :
  repeat q <> Some (uuid self) \/ (state q <> REJECTED /\ state q <> PROCESSED) ->
  snd (Scheduler.repeat_payment env self kwargs (set_payments (cons q) w))
  = snd (Scheduler.repeat_payment env self kwargs w).
Proof.
  intros H. rewrite !repeat_payment_cases, (refused_skip self q w H).
  destruct (get_backend env (backend self)); [| reflexivity].
  now destruct (refused self w).
Qed.

Lemma other_rows_do_not_count_witness :
  snd (Scheduler.repeat_payment test_env (donation 100 false) ∅
         (set_payments (cons (renewal_at "r6" 60 ACCEPTED)) abandoned_world))
  = snd (Scheduler.repeat_payment test_env (donation 100 false) ∅ abandoned_world).
Proof.
  apply (other_rows_do_not_count test_env (donation 100 false) ∅ abandoned_world
           (renewal_at "r6" 60 ACCEPTED)).
  right. split; discriminate.
Defined.

(** [repeat_payment] does not look for a renewal that is still
    outstanding: when a call has created a renewal, the next call, with
    whatever keyword arguments, creates another one. *)
Theorem repeat_payment_repeats (env : Env) (self : Payment)
    (kwargs kwargs' : gmap string jvalue) (w : World) :
  snd (Scheduler.repeat_payment env self kwargs w) = Return PyNone ->
  snd (Scheduler.repeat_payment env self kwargs'
         (fst (Scheduler.repeat_payment env self kwargs w))) = Return PyNone
  /\ length (payments (fst (Scheduler.repeat_payment env self kwargs'
                              (fst (Scheduler.repeat_payment env self kwargs w)))))
     = S (S (length (payments w))).
Proof.
  rewrite repeat_payment_cases.
  destruct (get_backend env (backend self)) as [cls|] eqn:Hg; [| discriminate].
  destruct (refused self w) eqn:Hr; [discriminate |]. intros _. cbn [fst].
  assert (Hr' : refused self (renewed env self kwargs w) = false).
  { rewrite <- Hr. apply (refused_skip self (renewal_row env self kwargs w) w).
    right. split; discriminate. }
  rewrite (not_refused_returns env self kwargs' _ cls Hg Hr'). split; reflexivity.
Qed.

Lemma repeat_payment_repeats_witness :
  snd (Scheduler.repeat_payment test_env reward_donation ∅
         (fst (Scheduler.repeat_payment test_env reward_donation ∅
                 (world_of reward_donation)))) = Return PyNone
  /\ length (payments (fst (Scheduler.repeat_payment test_env reward_donation ∅
                              (fst (Scheduler.repeat_payment test_env reward_donation ∅
                                      (world_of reward_donation))))))
     = S (S (length (payments (world_of reward_donation)))).
Proof.
  apply (repeat_payment_repeats test_env reward_donation ∅ ∅ (world_of reward_donation)).
  reflexivity.
Defined.

(** The trigger [repeat_payment] posts after creating a renewal carries
    the primary key and the backend column of the payment it was called
    on, not those of the row it created, and the shared secret; its
    language is the active language when that is supported and en
    otherwise. *)
Theorem repeat_payment_trigger (env : Env) (self : Payment)
    (kwargs : gmap string jvalue) (w : World) :
  snd (Scheduler.repeat_payment env self kwargs w) = Return PyNone ->
  exists (t : HttpPost) (row : Payment),
    posted (fst (Scheduler.repeat_payment env self kwargs w)) = t :: posted w
    /\ payments (fst (Scheduler.repeat_payment env self kwargs w)) = row :: payments w
    /\ uuid row = uuid4 env (drawn w)
    /\ post_uuid t = uuid self
    /\ post_method t = backend self
    /\ post_secret t = PAYMENT_SECRET env
    /\ post_language t
       = (if bool_decide (get_language env ∈ SUPPORTED_LANGUAGES env)
          then get_language env else "en")
    /\ (post_language t ∈ SUPPORTED_LANGUAGES env \/ post_language t = "en").
Proof.
  rewrite repeat_payment_cases.
  destruct (get_backend env (backend self)); [| discriminate].
  destruct (refused self w); [discriminate |]. intros _.
  exists (Scheduler.trigger env self), (renewal_row env self kwargs w).
  repeat split. cbn. case_bool_decide; [now left | now right].
Qed.

Lemma repeat_payment_trigger_witness :
  exists (t : HttpPost) (row : Payment),
    posted (fst (Scheduler.repeat_payment production_env
                   card_donation ∅
                   (mkWorld [] [] [] [] 0))) = t :: []
    /\ payments (fst (Scheduler.repeat_payment production_env
                        card_donation ∅
                        (mkWorld [] [] [] [] 0))) = row :: []
    /\ uuid row = uuid4 production_env 0
    /\ post_uuid t = uuid card_donation
    /\ post_method t = "thepay-card"
    /\ post_secret t = "secret"
    /\ post_language t
       = (if bool_decide (get_language production_env ∈ SUPPORTED_LANGUAGES production_env)
          then get_language production_env else "en")
    /\ (post_language t ∈ SUPPORTED_LANGUAGES production_env \/ post_language t = "en").
Proof.
  apply (repeat_payment_trigger production_env
           card_donation ∅ (mkWorld [] [] [] [] 0)).
  vm_compute. reflexivity.
Defined.

(** ** Customers, amounts and periods *)

(** A customer whose VAT id is set and passes [clean] is charged VAT
    exactly when the country is CZ: a company elsewhere in the EU with a
    VAT id of its own country pays none. *)
Theorem validated_vat_customer (c : Customer) :
  vat_truthy (vat c) = true ->
  snd (CustomerModel.clean c) = Return tt ->
  CustomerModel.is_eu_enduser c = false
  /\ CustomerModel.needs_vat c = bool_decide (CustomerModel.country_code c = Some "CZ")
  /\ CustomerModel.vat_rate c
     = (if bool_decide (CustomerModel.country_code c = Some "CZ") then 21 else 0).
Proof.
  intros Hv Hc. unfold CustomerModel.clean in Hc. rewrite Hv in Hc.
  assert (E : CustomerModel.vat_country_code c = CustomerModel.country_code c).
  { case_bool_decide; [assumption | discriminate]. }
  assert (He : CustomerModel.is_eu_enduser c = false).
  { unfold CustomerModel.is_eu_enduser. rewrite Hv. apply andb_false_r. }
  unfold CustomerModel.vat_rate, CustomerModel.needs_vat.
  rewrite He, E, orb_false_r. repeat split.
Qed.

(** A company in Germany with a German VAT id. *)
Lemma validated_vat_customer_witness :
  CustomerModel.vat_rate
    (mkCustomer 3 (VatStr "de811569869") "" (Some "Beispiel GmbH") (Some "Hauptstrasse 1")
       (Some "10115 Berlin") (Some "DE") "billing@example.de" "https://weblate.org" 3)
  = (if bool_decide
          (CustomerModel.country_code
             (mkCustomer 3 (VatStr "de811569869") "" (Some "Beispiel GmbH")
                (Some "Hauptstrasse 1") (Some "10115 Berlin") (Some "DE")
                "billing@example.de" "https://weblate.org" 3) = Some "CZ")
     then 21 else 0).
Proof.
  apply (validated_vat_customer
           (mkCustomer 3 (VatStr "de811569869") "" (Some "Beispiel GmbH")
              (Some "Hauptstrasse 1") (Some "10115 Berlin") (Some "DE")
              "billing@example.de" "https://weblate.org" 3)); reflexivity.
Defined.

(** The amount column is the gross amount of a fixed payment and the net
    amount of any other: [vat_amount] hands back the integer itself when
    the amount is fixed, [amount_without_vat] when it is not, and both do
    when the customer needs no VAT; a float is computed only on the other
    side, and only when VAT applies. *)
Theorem amount_is_gross_or_net (p : Payment) :
  (amount_fixed p = true -> PaymentModel.vat_amount p = PyInt (amount p))
  /\ (amount_fixed p = false -> PaymentModel.amount_without_vat p = PyInt (amount p))
  /\ (CustomerModel.needs_vat (customer p) = false ->
      PaymentModel.vat_amount p = PyInt (amount p)
      /\ PaymentModel.amount_without_vat p = PyInt (amount p))
  /\ (CustomerModel.needs_vat (customer p) = true ->
      exists f : float,
        if amount_fixed p then PaymentModel.amount_without_vat p = PyFloat f
        else PaymentModel.vat_amount p = PyFloat f).
Proof.
  unfold PaymentModel.vat_amount, PaymentModel.amount_without_vat.
  destruct (amount_fixed p), (CustomerModel.needs_vat (customer p)); cbn [andb negb];
    repeat split; try discriminate; intros _; eexists; reflexivity.
Qed.

Lemma amount_is_gross_or_net_witness :
  PaymentModel.vat_amount (donation 121 true) = PyInt 121
  /\ PaymentModel.amount_without_vat (donation 100 false) = PyInt 100.
Proof.
  split.
  - apply (proj1 (amount_is_gross_or_net (donation 121 true))). reflexivity.
  - apply (proj1 (proj2 (amount_is_gross_or_net (donation 100 false)))). reflexivity.
Defined.

(** [get_period_delta] knows the periods y, b and m, of twelve, six and
    one month, and raises ValueError on everything else. Of the recurrence
    choices it so covers every recurring one and not the one-time choice;
    the quarterly choice q that migration 0013 puts on the column has no
    period. *)
Theorem period_delta_choices (period : string) :
  (is_Some (get_period_delta period)
   <-> period = "y" \/ period = "b" \/ period = "m")
  /\ (forall d : relativedelta,
        get_period_delta period = Some d ->
        12 * years d + months d
        = (if bool_decide (period = "y") then 12
           else if bool_decide (period = "b") then 6 else 1))
  /\ (forall label : string,
        (period, label) ∈ RECURRENCE_CHOICES ->
        (is_Some (get_period_delta period) <-> str_truthy period = true))
  /\ (("q", "Quarterly") ∈ RECURRENCE_CHOICES_0013 /\ get_period_delta "q" = None).
Proof.
  unfold get_period_delta. split; [| split; [| split]].
  - split.
    + intros [d Hd]. repeat case_bool_decide; try discriminate; tauto.
    + intros [-> | [-> | ->]]; cbn; eauto.
  - intros d. repeat case_bool_decide; intros [= <-]; reflexivity.
  - intros label Hin.
    repeat (apply elem_of_cons in Hin as [[= -> _] | Hin]);
      try (now apply elem_of_nil in Hin);
      (split;
       [ intros [d Hd]; vm_compute in Hd; (discriminate Hd || reflexivity)
       | intros Ht; vm_compute in Ht; try discriminate Ht; vm_compute; eauto ]).
  - split; [| reflexivity]. do 2 right. left.
Qed.

Lemma period_delta_choices_witness :
  12 * years (mkRelativedelta 0 6) + months (mkRelativedelta 0 6)
  = (if bool_decide ("b" = "y") then 12 else if bool_decide ("b" = "b") then 6 else 1)
  /\ (is_Some (get_period_delta "") <-> str_truthy "" = true).
Proof.
  split.
  - apply (proj1 (proj2 (period_delta_choices "b")) (mkRelativedelta 0 6)). reflexivity.
  - apply (proj1 (proj2 (proj2 (period_delta_choices ""))) "Onetime").
    do 3 right. left.
Defined.

(** ** The payment views *)

Section ViewFacts.

Lemma rollback_same (w : World) : set_payments (fun _ => payments w) w = w.
Proof. now destruct w. Qed.

Lemma get_object_row (pk : string) (w : World) (object : Payment) :
  get_object pk w = Some object ->
  uuid object = pk
  /\ new_backend object w = Return (mkBackend object None w)
  /\ Lifecycle.row_state pk (payments w) = Some (state object).
Proof.
  unfold get_object, new_backend, Lifecycle.row_state. intros H.
  destruct (Table.filter_pk pk (payments w)) as [|row rest] eqn:E; [discriminate |].
  injection H as ->.
  assert (Hu : uuid object = pk).
  { assert (Hin : object ∈ Table.filter_pk pk (payments w)) by (rewrite E; left).
    unfold Table.filter_pk in Hin. apply list_elem_of_filter in Hin. tauto. }
  split; [exact Hu |]. rewrite Hu, E. split; reflexivity.
Qed.

Lemma registered_returns (method : string) (cls : BackendClass) :
  BACKENDS !! method = Some cls ->
  (forall request back_url complete_url self,
      exists r, snd (perform cls request back_url complete_url self) = Return r)
  /\ (forall request self, exists b, snd (collect cls request self) = Return b).
Proof.
  intros H. apply BACKENDS_lookup in H.
  destruct H as [-> | [-> | [-> | [-> | ->]]]]; split; intros;
    first [ eexists; apply thepay_collect_result | eexists; reflexivity ].
Qed.

Lemma registered_names (method : string) (cls : BackendClass) :
  BACKENDS !! method = Some cls -> str_truthy method = true.
Proof.
  intros H. pose proof (BACKENDS_named method cls H) as Hn.
  apply BACKENDS_lookup in H.
  destruct H as [-> | [-> | [-> | [-> | ->]]]]; injection Hn as <-; reflexivity.
Qed.

Lemma method_form_valid (env : Env) (method : option string) :
  MethodForm_is_valid env method = true
  <-> exists m cls, method = Some m /\ get_backend env m = Return cls.
Proof.
  unfold MethodForm_is_valid, MethodForm_choices. split.
  - destruct method as [m|]; [| discriminate].
    rewrite andb_true_iff, bool_decide_eq_true. intros [_ Hin].
    apply list_elem_of_fmap in Hin as ([n v] & Hn & Hin). cbn in Hn. subst n.
    apply list_elem_of_fmap in Hin as (cls & [= Hname _] & Hin).
    apply list_backends_elem in Hin as [name Hg].
    pose proof (get_backend_registered env name cls Hg) as Hreg.
    apply BACKENDS_named in Hreg. rewrite Hreg in Hname. injection Hname as <-.
    eauto.
  - intros (m & cls & -> & Hg).
    pose proof (get_backend_registered env m cls Hg) as Hreg.
    rewrite (registered_names m cls Hreg). cbn [andb]. apply bool_decide_eq_true.
    apply list_elem_of_fmap. exists (Some m, cls_verbose cls). split; [reflexivity |].
    apply list_elem_of_fmap. exists cls. split.
    + now rewrite (BACKENDS_named m cls Hreg).
    + apply list_backends_elem. eauto.
Qed.

Lemma validated_can_pay (urls : UrlConf) (validate_vatin : vat_value -> bool)
    (object : Payment) :
  validate_customer urls validate_vatin object (customer object) = None ->
  CustomerModel.is_empty (customer object) = false.
Proof.
  unfold validate_customer.
  destruct (CustomerModel.is_empty (customer object)); [discriminate | reflexivity].
Qed.

End ViewFacts.

(** The method form accepts exactly the names [get_backend] resolves: a
    POST that passes the form never fails to find its backend, and a
    debug method cannot be posted when debug mode is off. *)
Theorem method_form_resolves (env : Env) (method : option string) :
  (MethodForm_is_valid env method = true
   <-> exists m cls, method = Some m /\ get_backend env m = Return cls)
  /\ (PAYMENT_DEBUG env = false ->
      forall m cls, BACKENDS !! m = Some cls -> cls_debug cls = true ->
                    MethodForm_is_valid env (Some m) = false).
Proof.
  split; [apply method_form_valid |].
  intros Hp m cls Hm Hd.
  destruct (MethodForm_is_valid env (Some m)) eqn:E; [| reflexivity].
  apply method_form_valid in E as (m' & cls' & [= <-] & Hg).
  apply get_backend_iff in Hg as [Hm' [H | H]]; congruence.
Qed.

Lemma method_form_resolves_witness :
  MethodForm_is_valid production_env (Some "pay") = false.
Proof.
  apply (proj2 (method_form_resolves production_env (Some "pay")) eq_refl "pay" DebugPay);
    reflexivity.
Defined.

(** [PaymentView] answers without touching anything when there is nothing
    to pay or nobody to bill: an unknown key gives 404; a payment that is
    no longer NEW is redirected to its origin, whatever was posted; a NEW
    payment whose customer lacks name, address, city or country, or whose
    VAT id no longer validates, is redirected to the customer form. *)
Theorem payment_view_guards (env : Env) (urls : UrlConf)
    (validate_vatin : vat_value -> bool) (v : verb) (request : Request)
    (pk : string) (w : World) :
  (get_object pk w = None ->
   PaymentView_dispatch env urls validate_vatin v request pk w = (w, Http404))
  /\ (forall object : Payment,
        get_object pk w = Some object -> state object <> NEW ->
        PaymentView_dispatch env urls validate_vatin v request pk w
        = (w, HttpResponse (redirect_origin object)))
  /\ (forall object : Payment,
        get_object pk w = Some object -> state object = NEW ->
        CustomerModel.is_empty (customer object) = true
        \/ (vat_truthy (vat (customer object)) = true
            /\ validate_vatin (vat (customer object)) = false) ->
        PaymentView_dispatch env urls validate_vatin v request pk w
        = (w, HttpResponse (redirect (reverse urls "payment-customer" pk)))).
Proof.
  unfold PaymentView_dispatch. split; [| split].
  - intros ->. cbn. now rewrite rollback_same.
  - intros object Ho Hs. rewrite Ho, bool_decide_false by assumption. reflexivity.
  - intros object Ho Hs Hc. rewrite Ho, bool_decide_true by assumption. cbn [negb].
    apply get_object_row in Ho as [<- _].
    unfold validate_customer.
    destruct (CustomerModel.is_empty (customer object)); [reflexivity |].
    destruct Hc as [Hc | [Hv Hc]]; [discriminate |]. now rewrite Hv, Hc.
Qed.

Lemma payment_view_guards_witness :
  PaymentView_dispatch test_env test_urls (fun _ => true) (http_post (Some "pay"))
    forged_request (uuid card_donation) (world_of card_donation)
  = (world_of card_donation, HttpResponse (redirect_origin card_donation))
  /\ PaymentView_dispatch test_env test_urls (fun _ => true) (http_post (Some "pay"))
       forged_request (uuid anonymous_donation) (world_of anonymous_donation)
     = (world_of anonymous_donation,
        HttpResponse (redirect (reverse test_urls "payment-customer"
                                  (uuid anonymous_donation)))).
Proof.
  split.
  - apply (proj1 (proj2 (payment_view_guards test_env test_urls (fun _ => true)
                           (http_post (Some "pay")) forged_request (uuid card_donation)
                           (world_of card_donation))) card_donation);
      [reflexivity | discriminate].
  - apply (proj2 (proj2 (payment_view_guards test_env test_urls (fun _ => true)
                           (http_post (Some "pay")) forged_request
                           (uuid anonymous_donation) (world_of anonymous_donation)))
             anonymous_donation); [reflexivity | reflexivity | left; reflexivity].
Defined.

Section ViewRuns.

(** The stored state after a registered method has completed an instance
    that is bound to its row. *)
Lemma complete_row_state (env : Env) (cls : BackendClass) (request : Request)
    (self : Backend) (method : string) :
  BACKENDS !! method = Some cls ->
  state (payment self) = PENDING ->
  exists collected : bool,
    snd (complete env cls request self) = Return collected
    /\ Lifecycle.row_state (uuid (payment self))
         (payments (world (fst (complete env cls request self))))
       = Some (if collected then ACCEPTED else REJECTED).
Proof.
  intros Hreg Hs.
  destruct (registered_returns method cls Hreg) as [_ Hret].
  destruct (registered_well_behaved method cls Hreg) as [_ Hkeep].
  destruct (Hret request self) as [collected Hc].
  destruct (Hkeep request self) as [Hu Ht].
  destruct (collect cls request self) as [self1 r] eqn:Hcol. cbn [fst snd] in *. subst r.
  exists collected.
  rewrite (complete_collected env cls request self self1 collected Hs Hcol).
  destruct collected; cbn [fst snd]; (split; [reflexivity |]).
  - destruct (success_row env cls self1) as (Hu' & Hs' & ->).
    now rewrite row_state_save, Hu', Hu, Hs', decide_True.
  - destruct (failure_row self1) as (Hu' & Hs' & ->).
    now rewrite row_state_save, Hu', Hu, Hs', decide_True.
Qed.

Lemma initiated_row_state (cls : BackendClass) (self1 : Backend) :
  Lifecycle.row_state (uuid (payment self1)) (payments (world (initiated cls self1)))
  = Some PENDING.
Proof.
  unfold initiated. cbn [world payments set_payments]. rewrite row_state_save.
  cbn [uuid state set_details set_state]. now rewrite decide_True.
Qed.

End ViewRuns.

(** A POST to [PaymentView] for a NEW payment with valid billing data and
    a method the form offers: when the payment is a renewal and the method
    is not recurring, InvalidState escapes the view and nothing is
    changed; otherwise a method that redirects to its gateway leaves the
    payment PENDING and the view answers with that redirect, and a method
    that does not redirect is completed in the same request, so that the
    payment is ACCEPTED or REJECTED and the view redirects to the
    origin. *)
Theorem payment_view_post (env : Env) (urls : UrlConf)
    (validate_vatin : vat_value -> bool) (request : Request) (pk : string) (w : World)
    (object : Payment) (m : string) (cls : BackendClass) :
  get_object pk w = Some object ->
  state object = NEW ->
  validate_customer urls validate_vatin object (customer object) = None ->
  get_backend env m = Return cls ->
  (is_Some (repeat object) /\ cls_recurring cls = false ->
   PaymentView_dispatch env urls validate_vatin (http_post (Some m)) request pk w
   = (w, ServerError InvalidState))
  /\ (repeat object = None \/ cls_recurring cls = true ->
      match snd (perform cls request
                   (build_absolute_uri urls (reverse urls "payment" pk))
                   (build_absolute_uri urls (reverse urls "payment-complete" pk))
                   (mkBackend object None w)) with
      | Return (Some gateway) =>
          snd (PaymentView_dispatch env urls validate_vatin (http_post (Some m))
                 request pk w) = HttpResponse gateway
          /\ Lifecycle.row_state pk
               (payments (fst (PaymentView_dispatch env urls validate_vatin
                                 (http_post (Some m)) request pk w)))
             = Some PENDING
      | Return None =>
          snd (PaymentView_dispatch env urls validate_vatin (http_post (Some m))
                 request pk w) = HttpResponse (redirect_origin object)
          /\ (Lifecycle.row_state pk
                (payments (fst (PaymentView_dispatch env urls validate_vatin
                                  (http_post (Some m)) request pk w)))
              = Some ACCEPTED
              \/ Lifecycle.row_state pk
                   (payments (fst (PaymentView_dispatch env urls validate_vatin
                                     (http_post (Some m)) request pk w)))
                 = Some REJECTED)
      | Raise _ => False
      end).
Proof.
  intros Ho Hs Hval Hg.
  pose proof (get_object_row pk w object Ho) as (Hu & Hnew & _).
  pose proof (get_backend_registered env m cls Hg) as Hreg.
  assert (Hform : MethodForm_is_valid env (Some m) = true)
    by (apply method_form_valid; eauto).
  unfold PaymentView_dispatch.
  rewrite Ho, bool_decide_true, Hval, Hform by assumption.
  unfold PaymentView_form_valid. cbn [negb from_option id].
  rewrite (validated_can_pay urls validate_vatin object Hval), Hg, Hnew, Hu. cbn [negb].
  set (back_url := build_absolute_uri urls (reverse urls "payment" pk)).
  set (complete_url := build_absolute_uri urls (reverse urls "payment-complete" pk)).
  set (self := mkBackend object None w).
  split.
  - intros [Hr Hrec].
    rewrite (initiate_not_recurring cls request back_url complete_url self Hr Hrec).
    cbn. now rewrite rollback_same.
  - intros Hguard.
    destruct (registered_returns m cls Hreg) as [Hret _].
    destruct (registered_well_behaved m cls Hreg) as [Hkeep _].
    destruct (Hret request back_url complete_url self) as [r Hr].
    destruct (Hkeep request back_url complete_url self) as [Hu1 Ht1].
    destruct (perform cls request back_url complete_url self) as [self1 r'] eqn:Hp.
    cbn [fst snd] in *. subst r'.
    rewrite (initiate_performed cls request back_url complete_url self self1 r Hs Hguard Hp).
    destruct r as [gateway|].
    + cbn [atomic fst snd]. split; [reflexivity |].
      replace pk with (uuid (payment self1)) by (rewrite Hu1; exact Hu).
      apply initiated_row_state.
    + destruct (complete_row_state env cls request (initiated cls self1) m Hreg eq_refl)
        as (collected & Hc & Hrow).
      destruct (complete env cls request (initiated cls self1)) as [self2 c] eqn:Hcomp.
      cbn [fst snd] in Hc, Hrow. subst c. cbn [atomic fst snd].
      split; [reflexivity |].
      cbn [initiated payment uuid set_details set_state] in Hrow.
      replace (uuid (payment self1)) with pk in Hrow by (rewrite Hu1; symmetry; exact Hu).
      rewrite Hrow. destruct collected; [now left | now right].
Qed.

Lemma payment_view_post_witness :
  snd (PaymentView_dispatch test_env test_urls (fun _ => true) (http_post (Some "reject"))
         forged_request (uuid form_donation) (world_of form_donation))
  = HttpResponse (redirect_origin form_donation)
  /\ (Lifecycle.row_state (uuid form_donation)
        (payments (fst (PaymentView_dispatch test_env test_urls (fun _ => true)
                          (http_post (Some "reject")) forged_request
                          (uuid form_donation) (world_of form_donation))))
      = Some ACCEPTED
      \/ Lifecycle.row_state (uuid form_donation)
           (payments (fst (PaymentView_dispatch test_env test_urls (fun _ => true)
                             (http_post (Some "reject")) forged_request
                             (uuid form_donation) (world_of form_donation))))
         = Some REJECTED).
Proof.
  apply (proj2 (payment_view_post test_env test_urls (fun _ => true) forged_request
                  (uuid form_donation) (world_of form_donation) form_donation
                  "reject" DebugReject eq_refl eq_refl eq_refl eq_refl)).
  left. reflexivity.
Defined.

(** [CompleteView] absorbs callbacks that come at the wrong time, and
    completes only a PENDING payment whose backend column resolves: a NEW
    payment is sent back to the payment page and a payment that is already
    ACCEPTED, REJECTED or PROCESSED to its origin, both without any
    change; for a PENDING payment whose backend column names no usable
    backend the KeyError of [get_backend] escapes the view and the payment
    stays PENDING; otherwise the payment becomes ACCEPTED or REJECTED and
    the view redirects to the origin. *)
Theorem complete_view_outcomes (env : Env) (urls : UrlConf) (request : Request)
    (pk : string) (w : World) (object : Payment) :
  get_object pk w = Some object ->
  (state object = NEW ->
   CompleteView_dispatch env urls request pk w
   = (w, HttpResponse (redirect (reverse urls "payment" pk))))
  /\ (state object <> NEW -> state object <> PENDING ->
      CompleteView_dispatch env urls request pk w
      = (w, HttpResponse (redirect_origin object)))
  /\ (forall e : exn,
        state object = PENDING -> get_backend env (backend object) = Raise e ->
        CompleteView_dispatch env urls request pk w = (w, ServerError e))
  /\ (forall cls : BackendClass,
        state object = PENDING -> get_backend env (backend object) = Return cls ->
        snd (CompleteView_dispatch env urls request pk w)
        = HttpResponse (redirect_origin object)
        /\ (Lifecycle.row_state pk
              (payments (fst (CompleteView_dispatch env urls request pk w)))
            = Some ACCEPTED
            \/ Lifecycle.row_state pk
                 (payments (fst (CompleteView_dispatch env urls request pk w)))
               = Some REJECTED)).
Proof.
  intros Ho. pose proof (get_object_row pk w object Ho) as (Hu & Hnew & _).
  unfold CompleteView_dispatch. rewrite Ho. split; [| split; [| split]].
  - intros Hs. rewrite bool_decide_true, Hu by assumption. reflexivity.
  - intros Hn Hp. now rewrite !bool_decide_false by assumption.
  - intros e Hs Hg. rewrite bool_decide_false by (rewrite Hs; discriminate).
    rewrite bool_decide_true, Hg by assumption. cbn. now rewrite rollback_same.
  - intros cls Hs Hg. rewrite bool_decide_false by (rewrite Hs; discriminate).
    rewrite bool_decide_true, Hg, Hnew by assumption. cbn [negb].
    pose proof (get_backend_registered env _ cls Hg) as Hreg.
    destruct (complete_row_state env cls request (mkBackend object None w) _ Hreg Hs)
      as (collected & Hc & Hrow).
    destruct (complete env cls request (mkBackend object None w)) as [self1 c] eqn:Hcomp.
    cbn [fst snd] in Hc, Hrow. subst c. cbn [atomic fst snd payment] in *.
    split; [reflexivity |]. rewrite Hu in Hrow. rewrite Hrow.
    destruct collected; [now left | now right].
Qed.

Lemma complete_view_outcomes_witness :
  CompleteView_dispatch test_env test_urls forged_request (uuid form_donation)
    (world_of form_donation)
  = (world_of form_donation,
     HttpResponse (redirect (reverse test_urls "payment" (uuid form_donation))))
  /\ CompleteView_dispatch test_env test_urls forged_request (uuid card_donation)
       (world_of card_donation)
     = (world_of card_donation, HttpResponse (redirect_origin card_donation))
  /\ CompleteView_dispatch test_env test_urls forged_request (uuid pending_card_payment)
       (world_of pending_card_payment)
     = (world_of pending_card_payment, ServerError (KeyError ""))
  /\ snd (CompleteView_dispatch test_env test_urls forged_request
            (uuid (set_state PENDING (donation 100 false)))
            (world_of (set_state PENDING (donation 100 false))))
     = HttpResponse (redirect_origin (set_state PENDING (donation 100 false))).
Proof.
  split; [| split; [| split]].
  - apply (proj1 (complete_view_outcomes test_env test_urls forged_request
                    (uuid form_donation) (world_of form_donation) form_donation eq_refl)).
    reflexivity.
  - apply (proj1 (proj2 (complete_view_outcomes test_env test_urls forged_request
                           (uuid card_donation) (world_of card_donation) card_donation
                           eq_refl))); discriminate.
  - apply (proj1 (proj2 (proj2 (complete_view_outcomes test_env test_urls forged_request
                                  (uuid pending_card_payment)
                                  (world_of pending_card_payment) pending_card_payment
                                  eq_refl)))); reflexivity.
  - apply (proj2 (proj2 (proj2 (complete_view_outcomes test_env test_urls forged_request
                                  (uuid (set_state PENDING (donation 100 false)))
                                  (world_of (set_state PENDING (donation 100 false)))
                                  (set_state PENDING (donation 100 false)) eq_refl)))
             DebugPay); reflexivity.
Defined.

(** ** What an operation sends *)

Section EffectFacts.

(** A method that leaves the world and [self.invoice] alone. *)
Lemma registered_keeps_world (method : string) (cls : BackendClass) :
  BACKENDS !! method = Some cls ->
  (forall request back_url complete_url self,
      world (fst (perform cls request back_url complete_url self)) = world self
      /\ invoice_doc (fst (perform cls request back_url complete_url self))
         = invoice_doc self
      /\ customer (payment (fst (perform cls request back_url complete_url self)))
         = customer (payment self))
  /\ (forall request self,
         world (fst (collect cls request self)) = world self
         /\ invoice_doc (fst (collect cls request self)) = invoice_doc self
         /\ customer (payment (fst (collect cls request self))) = customer (payment self)).
Proof.
  intros H. apply BACKENDS_lookup in H.
  destruct H as [-> | [-> | [-> | [-> | ->]]]]; split; intros;
    try (repeat split; fail);
    cbn [collect ThePayCard ThePayBitcoin]; unfold ThePay.collect, bind, get, update, ret;
    destruct (negb (checkSignature (GET request))); try (repeat split; fail);
    destruct (negb (bool_decide (getMerchantData (GET request) = uuid (payment self))));
    try (repeat split; fail);
    destruct (bool_decide (getStatus (GET request) = 2)); repeat split.
Qed.

Lemma initiate_world (cls : BackendClass) (method : string) request back_url complete_url
    (self : Backend) :
  BACKENDS !! method = Some cls ->
  let w' := world (fst (initiate cls request back_url complete_url self)) in
  outbox w' = outbox (world self) /\ fakturace w' = fakturace (world self)
  /\ posted w' = posted (world self) /\ drawn w' = drawn (world self).
Proof.
  intros Hreg. destruct (registered_keeps_world method cls Hreg) as [Hk _].
  destruct (decide (state (payment self) = NEW)) as [Hs | Hs];
    [| cbn zeta; rewrite initiate_not_new by assumption; repeat split].
  destruct (decide (repeat (payment self) = None \/ cls_recurring cls = true))
    as [Hg | Hg].
  - destruct (Hk request back_url complete_url self) as (Hw & _ & _).
    destruct (perform cls request back_url complete_url self) as [self1 [r|e]] eqn:Hp;
      cbn [fst] in Hw; cbn zeta.
    + rewrite (initiate_performed _ _ _ _ _ self1 r Hs Hg Hp). cbn. rewrite Hw.
      repeat split.
    + rewrite (initiate_perform_raises _ _ _ _ _ self1 e Hs Hg Hp). cbn [fst].
      rewrite Hw. repeat split.
  - cbn zeta. rewrite initiate_not_recurring; [repeat split | |].
    + destruct (repeat (payment self)); [eauto | tauto].
    + destruct (cls_recurring cls); tauto.
Qed.

Lemma complete_world (env : Env) (cls : BackendClass) (method : string) request
    (self : Backend) :
  BACKENDS !! method = Some cls ->
  invoice_doc self = None ->
  let w' := world (fst (complete env cls request self)) in
  posted w' = posted (world self) /\ drawn w' = drawn (world self)
  /\ (outbox w' = outbox (world self)
      \/ exists mail, outbox w' = mail :: outbox (world self)
                      /\ to mail = [email (customer (payment self))]
                      /\ from_email mail = "billing@weblate.org")
  /\ (fakturace w' = fakturace (world self)
      \/ exists inv mail rest,
           fakturace w' = inv :: fakturace (world self)
           /\ is_Some (PAYMENT_FAKTURACE env)
           /\ outbox w' = mail :: rest /\ attachment mail = Some inv
           /\ body mail = ThanksBody (origin (customer (payment self)))).
Proof.
  intros Hreg Hinv. destruct (registered_keeps_world method cls Hreg) as [_ Hk].
  destruct (decide (state (payment self) = PENDING)) as [Hs | Hs];
    [| cbn zeta; rewrite complete_not_pending by assumption;
       repeat split; now left].
  destruct (Hk request self) as (Hw & Hd & Hcust).
  destruct (collect cls request self) as [self1 [collected|e]] eqn:Hcol;
    cbn [fst] in Hw, Hd, Hcust; cbn zeta.
  - rewrite (complete_collected env cls request self self1 collected Hs Hcol).
    destruct collected; cbn [fst].
    + unfold success, generate_invoice, save, notify_user, bind, get, update, ret.
      destruct (negb (cls_recurring cls)), (PAYMENT_FAKTURACE env) eqn:Hf; cbn;
        rewrite ?Hw, ?Hcust; repeat split;
        try (right; eexists; repeat split; fail);
        try (right; eexists _, _, _; repeat split; eauto; fail);
        now left.
    + cbn. rewrite Hw, Hcust. repeat split; [right; eexists; repeat split | now left].
  - rewrite (complete_collect_raises env cls request self self1 e Hs Hcol). cbn [fst].
    rewrite Hw. repeat split; now left.
Qed.

End EffectFacts.

(** What the operations issued through the registry send and what they
    never send. An [initiate] sends no mail, writes no invoice and posts
    nothing. A [complete] posts nothing; it sends at most one mail, from
    billing@weblate.org to the address of the customer of the row; and it
    writes at most one invoice, which it does only when invoicing is
    configured and which is then attached to the thank-you mail it
    sends. *)
Theorem call_effects (env : Env) (p : Payment) (w : World) :
  (forall (method : string) (request : Request) (back_url complete_url : string),
      outbox (call env p (Initiate method request back_url complete_url) w) = outbox w
      /\ fakturace (call env p (Initiate method request back_url complete_url) w)
         = fakturace w
      /\ posted (call env p (Initiate method request back_url complete_url) w) = posted w)
  /\ (forall (method : string) (request : Request),
        posted (call env p (Complete method request) w) = posted w
        /\ (outbox (call env p (Complete method request) w) = outbox w
            \/ exists mail row,
                 outbox (call env p (Complete method request) w) = mail :: outbox w
                 /\ get_object (uuid p) w = Some row
                 /\ to mail = [email (customer row)]
                 /\ from_email mail = "billing@weblate.org")
        /\ (fakturace (call env p (Complete method request) w) = fakturace w
            \/ exists inv mail rest,
                 fakturace (call env p (Complete method request) w) = inv :: fakturace w
                 /\ is_Some (PAYMENT_FAKTURACE env)
                 /\ outbox (call env p (Complete method request) w) = mail :: rest
                 /\ attachment mail = Some inv)).
Proof.
  split.
  - intros method request back_url complete_url. cbn [call].
    destruct (get_backend env method) as [cls|] eqn:Hg; [| repeat split].
    destruct (new_backend p w) as [self|] eqn:Hn; [| repeat split].
    apply get_backend_registered in Hg. apply new_backend_row in Hn as (<- & _ & _).
    destruct (initiate_world cls method request back_url complete_url self Hg)
      as (Ho & Hf & Hp & _).
    repeat split; assumption.
  - intros method request. cbn [call].
    destruct (get_backend env method) as [cls|] eqn:Hg; [| repeat split; now left].
    destruct (new_backend p w) as [self|] eqn:Hn; [| repeat split; now left].
    apply get_backend_registered in Hg.
    assert (Hrow : get_object (uuid p) w = Some (payment self) /\ world self = w
                   /\ invoice_doc self = None).
    { unfold new_backend in Hn. unfold get_object.
      destruct (Table.filter_pk (uuid p) (payments w)); [discriminate |].
      injection Hn as <-. repeat split. }
    destruct Hrow as (Hobj & <- & Hinv).
    destruct (complete_world env cls method request self Hg Hinv)
      as (Hp & _ & Ho & Hf).
    split; [exact Hp |]. split.
    + destruct Ho as [Ho | (mail & Ho & Hto & Hfrom)]; [now left |].
      right. exists mail, (payment self). repeat split; assumption.
    + destruct Hf as [Hf | (inv & mail & rest & Hf & Hc & Ho' & Ha & _)]; [now left |].
      right. exists inv, mail, rest. repeat split; assumption.
Qed.
